(** * Arkham AI dashboard: a shallow embedding of the front-end logic

    The development follows the TypeScript sources of the front end:
    - [frontend/types.ts]      : [Port], [Route], [Shipment], [RiskProfile], [EventLog];
    - [frontend/constants.ts]  : [PRIMARY_ROUTE], [ALTERNATIVE_ROUTES],
                                 [DISRUPTION_EVENTS], [getRandomDisruptionEvent];
    - [App.tsx]                : the event history and [addEvent];
    - [frontend/DashboardPage.tsx] : [activeRoute], [personalizedShipment],
                                 [fetchInitialData], the polling effect, [triggerDisruption];
    - [HistoryPage.tsx]        : the displayed shipment identifier, the
                                 timeline and its icons;
    - [OnboardingPage.tsx], [AuthPage.tsx] : the two [handleSubmit] handlers;
    - [components/Dashboard.tsx] : the risk bar and the displayed risks;
    - [components/RouteMap.tsx] : port coordinates, route paths, polylines and
                                 risk markers;
    - [services/perplexityService.ts], [services/vertexAIService.ts] :
                                 [getPerplexityAnalysis],
                                 [getDirectPerplexityAnalysis], [queryVertexAI].

    Modelling conventions.
    - A JavaScript number is an exact rational ([Q]); rounding of IEEE doubles,
      infinities and NaN are not represented.  Comparisons and the sign of a
      difference are the exact ones.
    - A JavaScript string is a [string] of 8-bit characters.  The model is
      exact on strings of ASCII characters ([isAscii]); slicing, case
      conversion and white space outside ASCII are not represented, and the
      statements about user input that depend on them assume ASCII input.
    - An optional field ([x?: T], or a JSON field that may be missing) is an
      [option].  [a || b] on numbers takes [b] when [a] is missing or [0];
      on strings when [a] is missing or empty; on objects when [a] is missing.
    - A promise either resolves with a value or rejects ([Outcome]).
    - A React event handler is a closure over the state of the render that
      created it: it reads that snapshot and issues a sequence of setter calls
      ([SetCall]); the state after the handler is the snapshot with the calls
      applied in order. *)

From Stdlib Require Import QArith Qminmax Qround Lqa Lia.
From Stdlib Require Import Sorted Permutation Ascii.
From stdpp Require Import gmap strings list pretty.

Local Open Scope string_scope.
Local Open Scope list_scope.

(** ** JavaScript base operations *)

Module Js.

(** [a || b] for an optional number: [undefined], [null] and [0] are falsy. *)
Definition orNum (a : option Q) (b : Q) : Q :=
  match a with
  | Some x => if Qeq_bool x 0 then b else x
  | None => b
  end.

(** [a || b] where both sides may be missing: the result may be missing. *)
Definition orNumOpt (a b : option Q) : option Q :=
  match a with
  | Some x => if Qeq_bool x 0 then b else Some x
  | None => b
  end.

(** Truthiness of an optional string: missing and empty strings are falsy. *)
Definition truthyStr (a : option string) : bool :=
  match a with
  | Some EmptyString => false
  | Some _ => true
  | None => false
  end.

Definition orStr (a : option string) (b : string) : string :=
  if truthyStr a then default b a else b.

Definition orStrOpt (a b : option string) : option string :=
  if truthyStr a then a else b.

(** [Math.max] and [Math.min] on two numbers. *)
Definition max (a b : Q) : Q := Qmax a b.
Definition min (a b : Q) : Q := Qmin a b.

(** [Math.floor]. *)
Definition floor (a : Q) : Z := Qfloor a.

(** [arr[i]] for a numeric index: [undefined] outside the bounds. *)
Definition index {A} (arr : list A) (i : Z) : option A :=
  if (i <? 0)%Z then None else nth_error arr (Z.to_nat i).

(** [arr.find(p)]. *)
Definition find {A} (p : A -> bool) (arr : list A) : option A := List.find p arr.

(** [arr.indexOf(x)] and [arr.findIndex(p)]: [-1] when absent. *)
Fixpoint findIndexFrom {A} (p : A -> bool) (arr : list A) (i : Z) : Z :=
  match arr with
  | [] => (-1)%Z
  | x :: rest => if p x then i else findIndexFrom p rest (i + 1)%Z
  end.
Definition findIndex {A} (p : A -> bool) (arr : list A) : Z := findIndexFrom p arr 0%Z.

(** [arr.some(p)]. *)
Definition some {A} (p : A -> bool) (arr : list A) : bool := existsb p arr.

(** [s.slice(0, n)] for [0 <= n], on strings of ASCII characters (one
    character per UTF-16 code unit). *)
Definition slice0 (n : nat) (s : string) : string := String.substring 0 n s.

Definition upperChar (c : ascii) : ascii :=
  let n := nat_of_ascii c in
  if (97 <=? n)%nat && (n <=? 122)%nat then ascii_of_nat (n - 32) else c.

Definition lowerChar (c : ascii) : ascii :=
  let n := nat_of_ascii c in
  if (65 <=? n)%nat && (n <=? 90)%nat then ascii_of_nat (n + 32) else c.

Fixpoint mapStr (f : ascii -> ascii) (s : string) : string :=
  match s with
  | EmptyString => EmptyString
  | String c rest => String (f c) (mapStr f rest)
  end.

(** [s.toUpperCase()] and [s.toLowerCase()] on strings of ASCII
    characters: only the letters [a-z], respectively [A-Z], change.  On other
    characters JavaScript applies the Unicode case mapping, which this model
    does not represent. *)
Definition toUpperCase (s : string) : string := mapStr upperChar s.
Definition toLowerCase (s : string) : string := mapStr lowerChar s.

(** [s.includes(sub)]. *)
Fixpoint includes (s sub : string) : bool :=
  String.prefix sub s ||
  match s with
  | EmptyString => false
  | String _ rest => includes rest sub
  end.

(** [s.split(',')[0]]: the part of [s] before its first comma. *)
Fixpoint beforeComma (s : string) : string :=
  match s with
  | EmptyString => EmptyString
  | String c rest => if Ascii.eqb c "," then EmptyString else String c (beforeComma rest)
  end.

(** [arr.sort(compare)]: the sort is stable; [a] stays before [b] when
    [compare(a, b) <= 0]. *)
Fixpoint sortInsert {A} (compare : A -> A -> Q) (x : A) (sorted : list A) : list A :=
  match sorted with
  | [] => [x]
  | y :: rest =>
      if Qle_bool (compare x y) 0 then x :: y :: rest
      else y :: sortInsert compare x rest
  end.
Definition sort {A} (compare : A -> A -> Q) (arr : list A) : list A :=
  foldr (sortInsert compare) [] arr.

(** [obj[key] = value] for an object [value], on an object literal used as
    a map.  The key ["__proto__"] names the prototype accessor inherited from
    [Object.prototype]: assigning an object to it replaces the prototype of
    [obj] and creates no own property, so the entries held by the map are
    unchanged.  Every other key is created or overwritten. *)
Definition assign {A} (key : string) (value : A) (obj : gmap string A) : gmap string A :=
  if String.eqb key "__proto__" then obj else <[key := value]> obj.

(** A settled promise. *)
Inductive Outcome (A : Type) : Type :=
| Resolved (a : A)
| Rejected.
Arguments Resolved {A} a.
Arguments Rejected {A}.

End Js.
Import Js.

(** ** [types.ts] *)

Record Port := { port_id : string; port_name : string }.

Record Route := {
  id : string;
  name : string;
  origin : Port;
  destination : Port;
  stops : option (list Port);
  timeDeltaDays : Q;
  costDeltaUSD : Q;
}.

Record Shipment := {
  shipment_id : string;
  contents : string;
  shipment_origin : Port;
  shipment_destination : Port;
  currentRouteId : string;
  eta : Q;
}.

Record DisruptionEvent := { event_name : string; description : string }.

Record RiskFactors := { congestion : Q; tariffs : Q; unrest : Q }.

Record RiskEntry := { overall : Q; factors : RiskFactors }.

(** [RiskProfile]: an object indexed by route identifiers. *)
Abbreviation RiskProfile := (gmap string RiskEntry).

Record EventLog := { message : string; timestamp : Z }.

Record UserConfiguration := {
  product : string;
  cfg_origin : string;
  cfg_destination : string;
}.

(** ** [frontend/constants.ts] *)

Module PORTS.
Definition taiwan := {| port_id := "TWTPE"; port_name := "Port of Taipei, Taiwan" |}.
Definition shanghai := {| port_id := "CNSHA"; port_name := "Port of Shanghai, China" |}.
Definition singapore := {| port_id := "SGSIN"; port_name := "Port of Singapore, Singapore" |}.
Definition japan := {| port_id := "JPTYO"; port_name := "Port of Tokyo, Japan" |}.
Definition vietnam := {| port_id := "VNSGN"; port_name := "Port of Ho Chi Minh City, Vietnam" |}.
Definition los_angeles := {| port_id := "USLAX"; port_name := "Port of Los Angeles, USA" |}.
End PORTS.

Definition PRIMARY_ROUTE : Route := {|
  id := "TW-LA-DIRECT";
  name := "Primary: Taiwan -> Los Angeles";
  origin := PORTS.taiwan;
  destination := PORTS.los_angeles;
  stops := None;
  timeDeltaDays := 0;
  costDeltaUSD := 0;
|}.

Definition ALTERNATIVE_ROUTES : list Route := [
  {| id := "TW-VN-LA";
     name := "Alternative: Taiwan -> Vietnam -> Los Angeles";
     origin := PORTS.taiwan;
     destination := PORTS.los_angeles;
     stops := Some [PORTS.vietnam];
     timeDeltaDays := 1;
     costDeltaUSD := 15000 |};
  {| id := "TW-JP-LA";
     name := "Alternative: Taiwan -> Japan -> Los Angeles";
     origin := PORTS.taiwan;
     destination := PORTS.los_angeles;
     stops := Some [PORTS.japan];
     timeDeltaDays := 2;
     costDeltaUSD := 25000 |};
  {| id := "TW-SG-LA";
     name := "Alternative: Taiwan -> Singapore -> Los Angeles";
     origin := PORTS.taiwan;
     destination := PORTS.los_angeles;
     stops := Some [PORTS.singapore];
     timeDeltaDays := 3;
     costDeltaUSD := 18000 |};
  {| id := "TW-SH-LA";
     name := "Alternative: Taiwan -> Shanghai -> Los Angeles";
     origin := PORTS.taiwan;
     destination := PORTS.los_angeles;
     stops := Some [PORTS.shanghai];
     timeDeltaDays := 2;
     costDeltaUSD := 12000 |}
].

Definition INITIAL_SHIPMENT : Shipment := {|
  shipment_id := "ARK-SC-123";
  contents := "100x Semiconductor Containers";
  shipment_origin := PORTS.taiwan;
  shipment_destination := PORTS.los_angeles;
  currentRouteId := id PRIMARY_ROUTE;
  eta := 14;
|}.

Definition DISRUPTION_EVENTS : list DisruptionEvent := [
  {| event_name := "Port Congestion at Los Angeles";
     description := "Severe container backlog at Port of Los Angeles causing 5-7 day delays. Labor shortages and increased vessel traffic contributing to congestion." |};
  {| event_name := "Trade Route Tensions in South China Sea";
     description := "Increased military activity and diplomatic tensions affecting shipping lanes through the South China Sea. Vessels reporting longer transit times." |};
  {| event_name := "Weather Disruption - Typhoon Warning";
     description := "Typhoon forecast affecting shipping routes in the Western Pacific. Multiple ports temporarily closed, vessels rerouting to avoid severe weather." |};
  {| event_name := "Labor Strike at Major Port";
     description := "Port workers union strike affecting operations at multiple terminals. Delays expected for all vessels scheduled to dock in the next 48 hours." |};
  {| event_name := "Fuel Price Surge";
     description := "Sudden spike in marine fuel prices affecting shipping costs. Bunker fuel costs increased by 25%, impacting route economics." |};
  {| event_name := "Regulatory Changes - New Customs Requirements";
     description := "New customs documentation requirements announced. Additional processing time expected at destination ports, potential for delays." |};
  {| event_name := "Cyber Attack on Port Systems";
     description := "Cybersecurity incident affecting port management systems. Operations slowed while systems are restored, causing delays." |};
  {| event_name := "Bridge Closure - Major Shipping Lane";
     description := "Critical bridge closure affecting access to major port. Alternative routes required, adding transit time and costs." |}
].

(** [getRandomDisruptionEvent]: [random] is the value returned by
    [Math.random()].  The result is [None] when the index is out of bounds
    (JavaScript's [undefined]). *)
Definition getRandomDisruptionEvent (random : Q) : option DisruptionEvent :=
  Js.index DISRUPTION_EVENTS
    (Js.floor (random * inject_Z (Z.of_nat (length DISRUPTION_EVENTS)))).

(** ** [App.tsx]: the event history *)

(** [addEvent(message)] performs [setEventHistory(prev => [...prev, { message,
    timestamp: new Date() }])]; [now] is the value of [new Date()]. *)
Definition addEvent (message : string) (now : Z) (prev : list EventLog) : list EventLog :=
  prev ++ [{| message := message; timestamp := now |}].

Inductive Page := landing | auth | onboarding | dashboard | history | settings | notFound.
Inductive Theme := light | dark.

(** The state held by [App] ([useState] cells). *)
Record AppState := {
  page : Page;
  theme : Theme;
  eventHistory : list EventLog;
  userConfig : option UserConfiguration;
}.

Definition initialApp : AppState :=
  {| page := landing; theme := dark; eventHistory := []; userConfig := None |}.

(** Every way the application changes the state of [App]: the setters and
  callbacks that [App] creates and passes to its pages.  The pages receive
  [eventHistory] as a read-only prop and [addEvent] as the only writer;
  [HistoryPage] displays [eventHistory.slice().reverse()], a copy. *)
Inductive AppAction :=
| Navigate (p : Page)
| SetTheme (t : Theme)
| SetUserConfig (c : option UserConfiguration)
| AddEvent (message : string) (now : Z).

Definition appStep (s : AppState) (a : AppAction) : AppState :=
  match a with
  | Navigate p =>
      {| page := p; theme := theme s; eventHistory := eventHistory s; userConfig := userConfig s |}
  | SetTheme t =>
      {| page := page s; theme := t; eventHistory := eventHistory s; userConfig := userConfig s |}
  | SetUserConfig c =>
      {| page := page s; theme := theme s; eventHistory := eventHistory s; userConfig := c |}
  | AddEvent m now =>
      {| page := page s; theme := theme s;
         eventHistory := addEvent m now (eventHistory s); userConfig := userConfig s |}
  end.

Definition appRun (s : AppState) (acts : list AppAction) : AppState := fold_left appStep acts s.

(** The entries that the [addEvent] calls of a sequence of actions carry, in
    the order of the calls. *)
Definition loggedEntries (acts : list AppAction) : list EventLog :=
  omap (fun a => match a with
                 | AddEvent m now => Some {| message := m; timestamp := now |}
                 | _ => None
                 end) acts.

(** ** [HistoryPage.tsx] *)

Module HistoryPage.
(** [userConfig ? `ARK-SC-${userConfig.product.slice(0,3).toUpperCase()}` : INITIAL_SHIPMENT.id] *)
Definition shipmentId (userConfig : option UserConfiguration) : string :=
  match userConfig with
  | Some cfg => "ARK-SC-" +:+ Js.toUpperCase (Js.slice0 3 (product cfg))
  | None => shipment_id INITIAL_SHIPMENT
  end.
End HistoryPage.

(** ** [services/perplexityService.ts] *)

Module PerplexityService.

(** The JSON reply of [/api/agent/query]. *)
Record AgentResponse := { agent_success : bool; agent_response : option string }.

Definition mockResponse : string :=
  "Based on the analysis, I recommend selecting the alternative route with the lowest risk score (32%). This route provides the best balance between risk reduction and minimal time impact.".

(** [getPerplexityAnalysis(prompt)].  [apiKey] is [PERPLEXITY_API_KEY];
    [queryAgent] is the settled backend call; [direct] is the settled
    result of [getDirectPerplexityAnalysis(prompt)], which is only awaited
    when a key is configured.  A rejected result propagates to the caller. *)
Definition getPerplexityAnalysis
    (apiKey : option string)
    (queryAgent : string -> Outcome (option AgentResponse))
    (direct : string -> Outcome string)
    (prompt : string) : Outcome string :=
  let fallback :=
    if Js.truthyStr apiKey then direct prompt else Resolved mockResponse in
  match queryAgent prompt with
  | Resolved (Some response) =>
      if agent_success response && Js.truthyStr (agent_response response)
      then Resolved (default "" (agent_response response))
      else fallback
  | Resolved None => fallback
  | Rejected => fallback
  end.

End PerplexityService.

(** ** Backend replies used by [DashboardPage.tsx] *)

Record Factors := {
  fac_congestion : option Q;
  fac_tariffs : option Q;
  fac_political_unrest : option Q;
}.

Record Breakdown := {
  port_congestion : option Q;
  trade_news : option Q;
  political : option Q;
}.

(** The [assessment] object of [/api/routes/assess], also the shape of
    [risk_assessment] in an optimized route. *)
Record Assessment := {
  overall_risk_score : option Q;
  assessment_factors : option Factors;
  assessment_breakdown : option Breakdown;
}.

Record AssessResponse := { success : bool; assessment : option Assessment }.

Record OptimizedRoute := {
  route_id : option string;
  waypoints : option (list string);
  metrics_risk_score : option Q;
  risk_assessment : option Assessment;
}.

Record OptimizeResponse := {
  opt_success : bool;
  optimized_routes : option (list OptimizedRoute);
  recommendation : option string;
  optimization_recommendation : option string;
}.

(** ** [DashboardPage.tsx] *)

Module DashboardPage.

Local Open Scope Q_scope.

(** The [useState] cells of the page that the risk and routing logic reads
    or writes.  Loading flags, notifications, map data points and the event
    messages emitted through [addEvent] are left out: no branch of the
    modelled code depends on them. *)
Record State := {
  riskProfile : RiskProfile;
  activeRouteId : string;
  isDisruptionTriggered : bool;
  currentDisruptionEvent : option DisruptionEvent;
  aiAnalysis : string;
}.

Inductive SetCall :=
  | SetRiskProfile (rp : RiskProfile)
  | SetActiveRouteId (routeId : string)
  | SetIsDisruptionTriggered (b : bool)
  | SetCurrentDisruptionEvent (e : option DisruptionEvent)
  | SetAiAnalysis (text : string).

Definition applyCall (s : State) (c : SetCall) : State :=
  match c with
  | SetRiskProfile rp =>
      {| riskProfile := rp; activeRouteId := activeRouteId s;
         isDisruptionTriggered := isDisruptionTriggered s;
         currentDisruptionEvent := currentDisruptionEvent s; aiAnalysis := aiAnalysis s |}
  | SetActiveRouteId r =>
      {| riskProfile := riskProfile s; activeRouteId := r;
         isDisruptionTriggered := isDisruptionTriggered s;
         currentDisruptionEvent := currentDisruptionEvent s; aiAnalysis := aiAnalysis s |}
  | SetIsDisruptionTriggered b =>
      {| riskProfile := riskProfile s; activeRouteId := activeRouteId s;
         isDisruptionTriggered := b;
         currentDisruptionEvent := currentDisruptionEvent s; aiAnalysis := aiAnalysis s |}
  | SetCurrentDisruptionEvent e =>
      {| riskProfile := riskProfile s; activeRouteId := activeRouteId s;
         isDisruptionTriggered := isDisruptionTriggered s;
         currentDisruptionEvent := e; aiAnalysis := aiAnalysis s |}
  | SetAiAnalysis t =>
      {| riskProfile := riskProfile s; activeRouteId := activeRouteId s;
         isDisruptionTriggered := isDisruptionTriggered s;
         currentDisruptionEvent := currentDisruptionEvent s; aiAnalysis := t |}
  end.

(** The state once every setter call of a handler has been processed. *)
Definition applyCalls (s : State) (calls : list SetCall) : State := fold_left applyCall calls s.

(** The risk profiles a handler passes to [setRiskProfile], in order. *)
Definition storedProfiles (calls : list SetCall) : list RiskProfile :=
  omap (fun c => match c with SetRiskProfile rp => Some rp | _ => None end) calls.

(** [const allRoutes = [PRIMARY_ROUTE, ...ALTERNATIVE_ROUTES]] *)
Definition allRoutes : list Route := PRIMARY_ROUTE :: ALTERNATIVE_ROUTES.

(** [allRoutes.find(r => r.id === activeRouteId) || PRIMARY_ROUTE] *)
Definition activeRoute (activeRouteId : string) : Route :=
  default PRIMARY_ROUTE (Js.find (fun r => String.eqb (id r) activeRouteId) allRoutes).

(** [s.replace(/\s/g, '')] on strings of ASCII characters, where the white
    space matched by [\s] is the characters 9 to 13 and 32.  (JavaScript
    also counts U+00A0, U+FEFF and other Unicode spaces.) *)
Definition isSpace (c : ascii) : bool :=
  let n := nat_of_ascii c in
  ((9 <=? n)%nat && (n <=? 13)%nat) || (n =? 32)%nat.

Fixpoint removeSpaces (s : string) : string :=
  match s with
  | EmptyString => EmptyString
  | String c rest => if isSpace c then removeSpaces rest else String c (removeSpaces rest)
  end.

Definition personalizedShipment (userConfig : option UserConfiguration) : Shipment :=
  match userConfig with
  | None => INITIAL_SHIPMENT
  | Some cfg =>
      let originPort :=
        {| port_id := removeSpaces (Js.toUpperCase (Js.slice0 5 (cfg_origin cfg)));
           port_name := cfg_origin cfg |} in
      let destinationPort :=
        {| port_id := removeSpaces (Js.toUpperCase (Js.slice0 5 (cfg_destination cfg)));
           port_name := cfg_destination cfg |} in
      {| shipment_id := "ARK-SC-" +:+ Js.toUpperCase (Js.slice0 3 (product cfg));
         contents := product cfg;
         shipment_origin := originPort;
         shipment_destination := destinationPort;
         currentRouteId := currentRouteId INITIAL_SHIPMENT;
         eta := eta INITIAL_SHIPMENT |}
  end.

(** [resp?.success && resp?.assessment]: the assessment when the reply is a
    success carrying one. *)
Definition okAssessment (resp : option AssessResponse) : option Assessment :=
  match resp with
  | Some r => if success r then assessment r else None
  | None => None
  end.

(** [assessment.factors?.f || breakdown.b || dflt] with
    [breakdown = assessment.breakdown || {}]. *)
Definition factorOr (a : Assessment) (f : Factors -> option Q) (b : Breakdown -> option Q)
    (dflt : Q) : Q :=
  Js.orNum (Js.orNumOpt (assessment_factors a ≫= f) (assessment_breakdown a ≫= b)) dflt.

(** [ALTERNATIVE_ROUTES.indexOf(route)] and
    [ALTERNATIVE_ROUTES.findIndex(r => r.id === route.id)].  The four route
    objects have pairwise different identifiers, so identity of the object
    and equality of the identifier select the same position. *)
Definition indexOfAlternative (route : Route) : Z :=
  Js.findIndex (fun r => String.eqb (id r) (id route)) ALTERNATIVE_ROUTES.

Definition entry (o c t u : Q) : RiskEntry :=
  {| overall := o; factors := {| congestion := c; tariffs := t; unrest := u |} |}.

(** *** [fetchInitialData] *)

(** The replies the backend gives during one run of a handler.
    [assessRoute routeId] is the settled call [assessRoute(origin, destination,
    stops, routeId)]; [random routeId] is the value [Math.random()] returns
    while the route [routeId] is being handled. *)
Record AssessWorld := {
  getApiHealth : Outcome unit;
  getAllRiskData : Outcome unit;
  assessRoute : string -> Outcome (option AssessResponse);
  random : string -> Q;
}.

Definition primaryFallback : RiskEntry := entry 0.15 0.1 0.08 0.12.

Definition alternativeFallback (routeIndex : Z) : RiskEntry :=
  let i := inject_Z routeIndex in
  entry (0.25 + i * 0.06) (0.2 + i * 0.05) (0.1 + i * 0.03) (0.2 + i * 0.04).

(** Lines 123-156: the primary route. *)
Definition initialPrimary (w : AssessWorld) (updated : RiskProfile) : RiskProfile :=
  match assessRoute w (id PRIMARY_ROUTE) with
  | Resolved resp =>
      match okAssessment resp with
      | Some a =>
          <[id PRIMARY_ROUTE :=
             entry (Js.max 0.1 (Js.orNum (overall_risk_score a) 0.1))
                   (Js.max 0.05 (factorOr a fac_congestion port_congestion 0.1))
                   (Js.max 0.05 (factorOr a fac_tariffs trade_news 0.1))
                   (Js.max 0.05 (factorOr a fac_political_unrest political 0.1))]> updated
      | None => <[id PRIMARY_ROUTE := primaryFallback]> updated
      end
  | Rejected => <[id PRIMARY_ROUTE := primaryFallback]> updated
  end.

(** The overall risk of an alternative route on a successful assessment
    (lines 173-176). *)
Definition initialFinalRisk (a : Assessment) (routeIndex : Z) (rnd : Q) : Q :=
  let baseRisk := Js.max 0.15 (Js.orNum (overall_risk_score a) 0.2) in
  let adjustedRisk := baseRisk + (inject_Z routeIndex * 0.06) + (rnd * 0.04) in
  Js.min 0.85 (Js.max 0.2 adjustedRisk).

(** Lines 159-211: one iteration of the loop over [ALTERNATIVE_ROUTES]. *)
Definition initialAlternative (w : AssessWorld) (updated : RiskProfile) (route : Route)
    : RiskProfile :=
  let routeIndex := indexOfAlternative route in
  let i := inject_Z routeIndex in
  match assessRoute w (id route) with
  | Resolved resp =>
      match okAssessment resp with
      | Some a =>
          <[id route :=
             entry (initialFinalRisk a routeIndex (random w (id route)))
                   (Js.max 0.1 (factorOr a fac_congestion port_congestion (0.2 + i * 0.05)))
                   (Js.max 0.05 (factorOr a fac_tariffs trade_news (0.1 + i * 0.03)))
                   (Js.max 0.1 (factorOr a fac_political_unrest political (0.2 + i * 0.04)))]>
            updated
      | None => <[id route := alternativeFallback routeIndex]> updated
      end
  | Rejected => <[id route := alternativeFallback routeIndex]> updated
  end.

(** Lines 214-226: routes still without an entry get the default one. *)
Definition ensureRoute (updated : RiskProfile) (route : Route) : RiskProfile :=
  match updated !! id route with
  | Some _ => updated
  | None =>
      <[id route :=
         if String.eqb (id route) (id PRIMARY_ROUTE) then primaryFallback
         else alternativeFallback (indexOfAlternative route)]> updated
  end.

(** Lines 233-249: the defaults used when the assessment block throws. *)
Definition initialRiskDefaults : RiskProfile :=
  fold_left (fun acc route =>
               if String.eqb (id route) (id PRIMARY_ROUTE)
               then <[id route := primaryFallback]> acc
               else <[id route := alternativeFallback (indexOfAlternative route)]> acc)
            allRoutes ∅.

(** Lines 265-269: the mock data used when the backend is unreachable. *)
Definition mockRisk : RiskProfile :=
  fold_left (fun acc route => <[id route := entry 0.1 0.1 0.1 0.1]> acc) allRoutes ∅.

(** [fetchInitialData].  Every statement of the assessment block that can
    throw sits in a [try] of its own, so the block always reaches
    [setRiskProfile(updatedRiskProfile)]; [initialRiskDefaults] is what its
    [catch] would store. *)
Definition fetchInitialData (w : AssessWorld) : list SetCall :=
  match getApiHealth w with
  | Rejected => [SetRiskProfile mockRisk]
  | Resolved _ =>
      let updated := initialPrimary w ∅ in
      let updated := fold_left (initialAlternative w) ALTERNATIVE_ROUTES updated in
      let updated := fold_left ensureRoute allRoutes updated in
      [SetRiskProfile updated]
  end.

(** Whether [fetchInitialData] ends in its outer [catch] (lines 255-271),
    which calls [setError].  The page then renders its error screen (lines
    628-649) in place of the dashboard, so the disruption button is not
    shown.  The health check is the only call awaited outside an inner
    [try]. *)
Definition loadFailed (w : AssessWorld) : bool :=
  match getApiHealth w with
  | Rejected => true
  | Resolved _ => false
  end.

(** *** The polling effect (lines 282-365) *)

Definition pollPrimary (w : AssessWorld) (updated : RiskProfile) : RiskProfile :=
  match assessRoute w (id PRIMARY_ROUTE) with
  | Resolved resp =>
      match okAssessment resp with
      | Some a =>
          <[id PRIMARY_ROUTE :=
             entry (Js.orNum (overall_risk_score a) 0.1)
                   (factorOr a fac_congestion port_congestion 0.1)
                   (factorOr a fac_tariffs trade_news 0.1)
                   (factorOr a fac_political_unrest political 0.1)]> updated
      | None => updated
      end
  | Rejected => updated
  end.

Definition pollFinalRisk (a : Assessment) (routeIndex : Z) (rnd : Q) : Q :=
  let baseRisk := Js.orNum (overall_risk_score a) 0.2 in
  let adjustedRisk := baseRisk + (inject_Z routeIndex * 0.05) + (rnd * 0.03) in
  Js.min 0.9 (Js.max 0.15 adjustedRisk).

Definition pollAlternative (w : AssessWorld) (updated : RiskProfile) (route : Route)
    : RiskProfile :=
  match assessRoute w (id route) with
  | Resolved resp =>
      match okAssessment resp with
      | Some a =>
          let routeIndex := indexOfAlternative route in
          let i := inject_Z routeIndex in
          <[id route :=
             entry (pollFinalRisk a routeIndex (random w (id route)))
                   (factorOr a fac_congestion port_congestion (0.2 + i * 0.05))
                   (factorOr a fac_tariffs trade_news (0.1 + i * 0.02))
                   (factorOr a fac_political_unrest political (0.2 + i * 0.03))]> updated
      | None => updated
      end
  | Rejected => updated
  end.

(** The body of the interval callback, run on the state [s] of the render
    that installed the interval.  [getAllRiskData] is awaited outside any
    inner [try]: when it rejects the callback stores nothing. *)
Definition pollTick (s : State) (w : AssessWorld) : list SetCall :=
  match getAllRiskData w with
  | Rejected => []
  | Resolved _ =>
      let updated := riskProfile s in
      let updated := pollPrimary w updated in
      let updated := fold_left (pollAlternative w) ALTERNATIVE_ROUTES updated in
      [SetRiskProfile updated]
  end.

(** *** [triggerDisruption] (lines 368-591) *)

(** The replies received during one run of the handler.  [routeRandom index]
    is the value of [Math.random()] in the iteration [index] of
    [routes.forEach].  The health check and the risk-data fetch sit in
    [try] blocks of their own and only feed the map and the event log. *)
Record DisruptionWorld := {
  eventRandom : Q;
  assessPrimary : Outcome (option AssessResponse);
  optimizeRoute : Outcome (option OptimizeResponse);
  routeRandom : nat -> Q;
  queryVertexAI : Outcome string;
}.

(** Lines 402-431. *)
Definition assessPrimaryRisk (riskProfile : RiskProfile)
    (reply : Outcome (option AssessResponse)) : list SetCall :=
  match reply with
  | Resolved resp =>
      match okAssessment resp with
      | Some a =>
          [SetRiskProfile
             (<[id PRIMARY_ROUTE :=
                 entry (Js.orNum (overall_risk_score a) 0.78)
                       (factorOr a fac_congestion port_congestion 0.3)
                       (factorOr a fac_tariffs trade_news 0.9)
                       (factorOr a fac_political_unrest political 0.5)]> riskProfile)]
      | None => []
      end
  | Rejected =>
      [SetRiskProfile (<[id PRIMARY_ROUTE := entry 0.78 0.3 0.9 0.5]> riskProfile)]
  end.

(** Lines 462-469: does the waypoint name [wp] denote the stop [stop]? *)
Definition stopMatches (wp : string) (stop : Port) : bool :=
  let wpName := Js.toLowerCase wp in
  let stopName := Js.toLowerCase (port_name stop) in
  Js.includes wpName (Js.beforeComma stopName)
  || Js.includes stopName (Js.beforeComma wpName)
  || (Js.includes wpName "vietnam" && Js.includes stopName "vietnam")
  || (Js.includes wpName "japan" && Js.includes stopName "tokyo")
  || (Js.includes wpName "singapore" && Js.includes stopName "singapore")
  || (Js.includes wpName "shanghai" && Js.includes stopName "shanghai").

(** Lines 454-474: the predicate of the second [allRoutes.find]. *)
Definition waypointsMatch (routeWaypoints : list string) (fr : Route) : bool :=
  let frontendStops := default [] (stops fr) in
  if (length routeWaypoints =? 0)%nat && (length frontendStops =? 0)%nat
  then String.eqb (id fr) (id PRIMARY_ROUTE)
  else if (length routeWaypoints =? length frontendStops)%nat
  then Js.some (fun wp => Js.some (stopMatches wp) frontendStops) routeWaypoints
  else false.

(** Lines 450-475. *)
Definition matchingFrontendRoute (route : OptimizedRoute) : option Route :=
  match Js.find (fun fr => match route_id route with
                           | Some rid => String.eqb (id fr) rid
                           | None => false
                           end) allRoutes with
  | Some fr => Some fr
  | None => Js.find (waypointsMatch (default [] (waypoints route))) allRoutes
  end.

(** Line 477. *)
Definition optimizedRouteId (route : OptimizedRoute) (index : nat) : string :=
  Js.orStr (id <$> matchingFrontendRoute route)
           (Js.orStr (route_id route) ("route-" +:+ pretty index)).

(** Lines 478-491: the entry written for the route at position [index]. *)
Definition optimizedEntry (route : OptimizedRoute) (index : nat) (rnd : Q) : RiskEntry :=
  let i := inject_Z (Z.of_nat index) in
  let ra := risk_assessment route in
  let riskScore :=
    Js.orNum (Js.orNumOpt (metrics_risk_score route) (ra ≫= overall_risk_score))
             (0.3 + i * 0.05) in
  let baseRisk := 0.3 in
  let routeSpecificRisk := baseRisk + (i * 0.08) + (rnd * 0.1) in
  let finalRisk := Js.min 0.9 (Js.max 0.2 (Js.orNum (Some riskScore) routeSpecificRisk)) in
  entry finalRisk
    (Js.orNum (Js.orNumOpt ((ra ≫= assessment_factors) ≫= fac_congestion)
                           ((ra ≫= assessment_breakdown) ≫= port_congestion))
              (0.2 + i * 0.05))
    (Js.orNum (Js.orNumOpt ((ra ≫= assessment_factors) ≫= fac_tariffs)
                           ((ra ≫= assessment_breakdown) ≫= trade_news))
              (0.1 + i * 0.03))
    (Js.orNum (Js.orNumOpt ((ra ≫= assessment_factors) ≫= fac_political_unrest)
                           ((ra ≫= assessment_breakdown) ≫= political))
              (0.2 + i * 0.04)).

(** [routes.forEach((route, index) => ...)], from position [index] on.  The
    key of the assignment [updatedRiskProfile[routeId] = {...}] comes from
    the backend, hence [Js.assign]; every other assignment of the page uses
    the identifier of a front-end route, none of which is ["__proto__"]. *)
Fixpoint optimizedLoop (rnd : nat -> Q) (routes : list OptimizedRoute) (index : nat)
    (updated : RiskProfile) : RiskProfile :=
  match routes with
  | [] => updated
  | route :: rest =>
      optimizedLoop rnd rest (S index)
        (Js.assign (optimizedRouteId route index)
                   (optimizedEntry route index (rnd index)) updated)
  end.

(** Lines 494-499. *)
Definition raisePrimary (updated : RiskProfile) : RiskProfile :=
  match updated !! id PRIMARY_ROUTE with
  | Some e =>
      <[id PRIMARY_ROUTE := {| overall := Js.max 0.75 (overall e); factors := factors e |}]>
        updated
  | None => updated
  end.

(** Lines 514-517 and 521-524. *)
Definition optimizeFallback (riskProfile : RiskProfile) : RiskProfile :=
  match Js.index ALTERNATIVE_ROUTES 0, Js.index ALTERNATIVE_ROUTES 1 with
  | Some r0, Some r1 =>
      <[id r1 := entry 0.45 0.4 0.1 0.3]> (<[id r0 := entry 0.32 0.2 0.1 0.2]> riskProfile)
  | _, _ => riskProfile
  end.

(** [optimizedRoutes.recommendation || optimizedRoutes.optimization?.recommendation] *)
Definition backendRecommendation (resp : option OptimizeResponse) : option string :=
  match resp with
  | Some r => Js.orStrOpt (recommendation r) (optimization_recommendation r)
  | None => None
  end.

(** Lines 434-525. *)
Definition optimizeRoutes (riskProfile : RiskProfile)
    (reply : Outcome (option OptimizeResponse)) (rnd : nat -> Q) : list SetCall :=
  match reply with
  | Resolved resp =>
      match resp ≫= (fun r => if opt_success r then optimized_routes r else None) with
      | Some routes =>
          SetRiskProfile (raisePrimary (optimizedLoop rnd routes 0 riskProfile))
          :: (if Js.truthyStr (backendRecommendation resp)
              then [SetAiAnalysis (default "" (backendRecommendation resp))]
              else [])
      | None => [SetRiskProfile (optimizeFallback riskProfile)]
      end
  | Rejected => [SetRiskProfile (optimizeFallback riskProfile)]
  end.

(** Lines 527-561: the agent is asked unless the backend sent a
    recommendation and the snapshot already holds an analysis. *)
Definition askAgent (aiAnalysis : string) (reply : Outcome (option OptimizeResponse))
    (agent : Outcome string) : list SetCall :=
  let optimizedRoutes := match reply with Resolved resp => resp | Rejected => None end in
  if negb (Js.truthyStr (backendRecommendation optimizedRoutes))
     || negb (Js.truthyStr (Some aiAnalysis))
  then match agent with
       | Resolved analysis => [SetAiAnalysis analysis]
       | Rejected => []
       end
  else [].

Record RouteRisk := { route : Route; risk : Q }.

(** Line 565: [riskProfile[route.id]?.overall || 1.0]. *)
Definition routeRisk (riskProfile : RiskProfile) (route : Route) : Q :=
  Js.orNum (overall <$> riskProfile !! id route) 1.0.

(** Lines 563-566. *)
Definition routeRisks (riskProfile : RiskProfile) : list RouteRisk :=
  Js.sort (fun a b => risk a - risk b)
    (map (fun route => {| route := route; risk := routeRisk riskProfile route |})
         allRoutes).

(** Line 568. *)
Definition bestAlternative (riskProfile : RiskProfile) : option Route :=
  match Js.find (fun r => negb (String.eqb (id (route r)) (id PRIMARY_ROUTE)))
                (routeRisks riskProfile) with
  | Some r => Some (route r)
  | None => Js.index ALTERNATIVE_ROUTES 0
  end.

(** Lines 570-577. *)
Definition reroute (riskProfile : RiskProfile) (activeRouteId : string) : list SetCall :=
  match bestAlternative riskProfile with
  | Some best =>
      if negb (String.eqb (id best) activeRouteId) then [SetActiveRouteId (id best)] else []
  | None => []
  end.

(** [triggerDisruption], run on the state [s] captured by the callback.
    Every occurrence of [riskProfile], [activeRouteId] and [aiAnalysis] in
    the handler denotes the captured value.  Each awaited call sits in a
    [try] of its own, so the outer [catch] (lines 579-587) is not entered. *)
Definition triggerDisruption (s : State) (w : DisruptionWorld) : list SetCall :=
  [SetIsDisruptionTriggered true;
   SetCurrentDisruptionEvent (getRandomDisruptionEvent (eventRandom w))]
  ++ assessPrimaryRisk (riskProfile s) (assessPrimary w)
  ++ optimizeRoutes (riskProfile s) (optimizeRoute w) (routeRandom w)
  ++ askAgent (aiAnalysis s) (optimizeRoute w) (queryVertexAI w)
  ++ reroute (riskProfile s) (activeRouteId s).

End DashboardPage.

(** ** The polling effect of [DashboardPage.tsx] (lines 282-365) *)

Module PollingEffect.

(** The values of the dependency array
    [[isDisruptionTriggered, userConfig, personalizedShipment, riskProfile, addEvent]]
    at one render.  Objects and functions are compared by identity
    ([Object.is]), so each is represented by the reference of the object the
    variable holds; [userConfig] is [None] when it is [null].  Every
    [setRiskProfile] call of the page stores a newly built object, hence a
    new reference. *)
Record Inputs := {
  isDisruptionTriggered : bool;
  userConfig : option nat;
  personalizedShipment : nat;
  riskProfile : nat;
  addEvent : nat;
}.

#[global] Instance Inputs_eq_dec : EqDecision Inputs.
Proof. solve_decision. Defined.

(** What a step asks of the browser.  [SetInterval callback periodMs] is
    [setInterval(f, periodMs)], where [callback s w] gives the setter calls
    that [f] makes when the interval fires, [s] being the state of the render
    whose effect created [f] and [w] the replies of the backend during that
    firing.  [ClearInterval] is [clearInterval] of the interval installed
    last.  [AbortFetch] stands for cancelling a request in flight; the page
    never issues it. *)
Inductive TimerOp :=
| SetInterval
    (callback : DashboardPage.State -> DashboardPage.AssessWorld ->
                list DashboardPage.SetCall)
    (periodMs : Z)
| ClearInterval
| AbortFetch.

(** The effect function: [None] when it returns early, otherwise the period
    of the interval it installs, whose callback is the arrow function of
    lines 285-359, [DashboardPage.pollTick]; its cleanup is
    [clearInterval(pollInterval)]. *)
Definition effect (i : Inputs) : option Z :=
  if negb (bool_decide (is_Some (userConfig i))) || negb (isDisruptionTriggered i)
  then None
  else Some 10000%Z.

Definition cleanup (installed : option Z) : list TimerOp :=
  match installed with
  | Some _ => [ClearInterval]
  | None => []
  end.

(** What React does with the effect: after a render whose dependencies
    differ from those of the previous render it runs the pending cleanup and
    then the effect; on unmount it runs the pending cleanup. *)
Inductive Lifecycle :=
| Commit (i : Inputs)
| Unmount.

Record EffectState := {
  lastInputs : option Inputs;
  installed : option Z;
}.

Definition unmounted : EffectState := {| lastInputs := None; installed := None |}.

Definition step (st : EffectState) (ev : Lifecycle) : EffectState * list TimerOp :=
  match ev with
  | Commit i =>
      if bool_decide (lastInputs st = Some i) then (st, [])
      else
        ({| lastInputs := Some i; installed := effect i |},
         cleanup (installed st)
         ++ match effect i with
            | Some p => [SetInterval DashboardPage.pollTick p]
            | None => []
            end)
  | Unmount => (unmounted, cleanup (installed st))
  end.

(** The operations issued along a sequence of lifecycle events, each paired
    with the event that caused it. *)
Fixpoint run (st : EffectState) (evs : list Lifecycle) : list (Lifecycle * TimerOp) :=
  match evs with
  | [] => []
  | ev :: rest =>
      let '(st', ops) := step st ev in
      map (fun op => (ev, op)) ops ++ run st' rest
  end.

(** The state reached after a sequence of lifecycle events. *)
Definition after (st : EffectState) (evs : list Lifecycle) : EffectState :=
  fold_left (fun s ev => fst (step s ev)) evs st.

(** Whether the page polls: it is mounted, and at the last render that ran
    the effect a user configuration existed and the disruption flag was
    set. *)
Definition polling (last : option Inputs) : bool :=
  match last with
  | Some i => bool_decide (is_Some (userConfig i)) && isDisruptionTriggered i
  | None => false
  end.

(** The number of intervals set and not cleared by a sequence of
    operations. *)
Fixpoint live (ops : list TimerOp) : Z :=
  match ops with
  | [] => 0
  | SetInterval _ _ :: rest => 1 + live rest
  | ClearInterval :: rest => live rest - 1
  | AbortFetch :: rest => live rest
  end.

End PollingEffect.


(** ** The handlers of the dashboard that write the risk profile *)

Module Handlers.
Import DashboardPage.

Inductive Handler :=
  | FetchInitialData (w : AssessWorld)
  | PollTick (w : AssessWorld)
  | TriggerDisruption (w : DisruptionWorld).

(** The setter calls issued by a handler that captured the state [s]. *)
Definition calls (s : State) (h : Handler) : list SetCall :=
  match h with
  | FetchInitialData w => fetchInitialData w
  | PollTick w => pollTick s w
  | TriggerDisruption w => triggerDisruption s w
  end.

Definition run (s : State) (h : Handler) : State := applyCalls s (calls s h).

(** The state of a freshly mounted page ([useState] initial values);
    [event] is the disruption event drawn at mount. *)
Definition mounted (event : option DisruptionEvent) : State :=
  {| riskProfile := ∅;
     activeRouteId := id PRIMARY_ROUTE;
     isDisruptionTriggered := false;
     currentDisruptionEvent := event;
     aiAnalysis := "" |}.

(** What the outer [catch] of [triggerDisruption] (lines 584-587) would
    store. *)
Definition disruptionErrorFallback (riskProfile : RiskProfile) : RiskProfile :=
  match Js.index ALTERNATIVE_ROUTES 0 with
  | Some r0 =>
      <[id r0 := entry 0.32 0.2 0.1 0.2]>
        (<[id PRIMARY_ROUTE := entry 0.78 0.3 0.9 0.5]> riskProfile)
  | None => <[id PRIMARY_ROUTE := entry 0.78 0.3 0.9 0.5]> riskProfile
  end.

End Handlers.

(** ** Predicates used in the statements *)

Section Predicates.
Local Open Scope Q_scope.

Definition inUnit (x : Q) : Prop := 0 <= x /\ x <= 1.

Definition entryInUnit (e : RiskEntry) : Prop :=
  inUnit (overall e)
  /\ inUnit (congestion (factors e))
  /\ inUnit (tariffs (factors e))
  /\ inUnit (unrest (factors e)).

(** Every value held in a risk profile lies in [[0, 1]]. *)
Definition profileInUnit (rp : RiskProfile) : Prop :=
  forall k e, rp !! k = Some e -> entryInUnit e.

Definition scoreInUnit (o : option Q) : Prop := forall x, o = Some x -> inUnit x.

Definition factorsInUnit (f : option Factors) : Prop :=
  forall x, f = Some x ->
    scoreInUnit (fac_congestion x) /\ scoreInUnit (fac_tariffs x)
    /\ scoreInUnit (fac_political_unrest x).

Definition breakdownInUnit (b : option Breakdown) : Prop :=
  forall x, b = Some x ->
    scoreInUnit (port_congestion x) /\ scoreInUnit (trade_news x)
    /\ scoreInUnit (political x).

(** Every score reported in an assessment lies in [[0, 1]]. *)
Definition assessmentInUnit (a : Assessment) : Prop :=
  scoreInUnit (overall_risk_score a)
  /\ factorsInUnit (assessment_factors a)
  /\ breakdownInUnit (assessment_breakdown a).

Definition assessReplyInUnit (reply : Outcome (option AssessResponse)) : Prop :=
  forall resp a, reply = Resolved resp -> DashboardPage.okAssessment resp = Some a ->
    assessmentInUnit a.

(** The optimizer lists at most 17 routes and every factor score it reports
    lies in [[0, 1]]. *)
Definition optimizeReplyInUnit (reply : Outcome (option OptimizeResponse)) : Prop :=
  forall r routes, reply = Resolved (Some r) -> optimized_routes r = Some routes ->
    (length routes <= 17)%nat
    /\ forall route ra, In route routes -> risk_assessment route = Some ra ->
         factorsInUnit (assessment_factors ra) /\ breakdownInUnit (assessment_breakdown ra).

(** The backend replies received by a handler report scores in [[0, 1]]. *)
Definition backendInUnit (h : Handlers.Handler) : Prop :=
  match h with
  | Handlers.FetchInitialData w | Handlers.PollTick w =>
      forall routeId, assessReplyInUnit (DashboardPage.assessRoute w routeId)
  | Handlers.TriggerDisruption w =>
      assessReplyInUnit (DashboardPage.assessPrimary w)
      /\ optimizeReplyInUnit (DashboardPage.optimizeRoute w)
  end.

(** The backend agent query failed: it threw, or its reply is not a
    successful one carrying a non-empty response. *)
Definition agentQueryFailed (o : Outcome (option PerplexityService.AgentResponse)) : Prop :=
  match o with
  | Rejected => True
  | Resolved None => True
  | Resolved (Some r) =>
      PerplexityService.agent_success r
      && Js.truthyStr (PerplexityService.agent_response r) = false
  end.

(** The predicate of line 568: the entry is not the primary route. *)
Definition isAlternative (r : DashboardPage.RouteRisk) : bool :=
  negb (String.eqb (id (DashboardPage.route r)) (id PRIMARY_ROUTE)).

(** Setter calls other than [setActiveRouteId] leave the active route alone. *)
Definition keepsActiveRoute (c : DashboardPage.SetCall) : Prop :=
  match c with DashboardPage.SetActiveRouteId _ => False | _ => True end.

(** The route optimisation did not deliver a list of routes: the call
    rejected, or the reply is not a success carrying [optimized_routes]. *)
Definition optimizeFailed (reply : Outcome (option OptimizeResponse)) : Prop :=
  match reply with
  | Rejected => True
  | Resolved resp =>
      resp ≫= (fun r => if opt_success r then optimized_routes r else None) = None
  end.

(** No entry of the profile records an overall risk of zero. *)
Definition profileNonzero (rp : RiskProfile) : Prop :=
  forall k e, rp !! k = Some e -> ~ overall e == 0.

End Predicates.

(** ** Concrete backend behaviours used in the examples *)

Module Scenario.
Import DashboardPage.
Local Open Scope Q_scope.

(** The backend cannot be reached: every call rejects. *)
Definition unreachable : AssessWorld :=
  {| getApiHealth := Rejected;
     getAllRiskData := Rejected;
     assessRoute := fun _ => Rejected;
     random := fun _ => 0.5 |}.

Definition unreachableDisruption : DisruptionWorld :=
  {| eventRandom := 0.5;
     assessPrimary := Rejected;
     optimizeRoute := Rejected;
     routeRandom := fun _ => 0.5;
     queryVertexAI := Rejected |}.

(** The backend answers every assessment with the overall score [score]
    and no factor scores. *)
Definition reporting (score : Q) : AssessWorld :=
  {| getApiHealth := Resolved tt;
     getAllRiskData := Resolved tt;
     assessRoute := fun _ =>
       Resolved (Some {| success := true;
                         assessment := Some {| overall_risk_score := Some score;
                                               assessment_factors := None;
                                               assessment_breakdown := None |} |});
     random := fun _ => 0.5 |}.

(** The page once the initial load has finished against a backend that
    answers the health check and reports a risk of [0.1] for every route:
    the dashboard with the disruption button is shown. *)
Definition loadedHealthy : State :=
  Handlers.run (Handlers.mounted None) (Handlers.FetchInitialData (reporting 0.1)).

(** The optimizer lists eighteen routes and says nothing else about them. *)
Definition bareRoute : OptimizedRoute :=
  {| route_id := None; waypoints := None; metrics_risk_score := None;
     risk_assessment := None |}.

Definition eighteenRoutes : DisruptionWorld :=
  {| eventRandom := 0.5;
     assessPrimary := Rejected;
     optimizeRoute :=
       Resolved (Some {| opt_success := true;
                         optimized_routes := Some (replicate 18 bareRoute);
                         recommendation := None;
                         optimization_recommendation := None |});
     routeRandom := fun _ => 0.5;
     queryVertexAI := Rejected |}.

(** Two renders of the page with the disruption flag set and a user
    configuration present; between them only the risk profile object has been
    replaced. *)
Definition pollingRender (riskProfileRef : nat) : PollingEffect.Inputs :=
  {| PollingEffect.isDisruptionTriggered := true;
     PollingEffect.userConfig := Some 1%nat;
     PollingEffect.personalizedShipment := 2%nat;
     PollingEffect.riskProfile := riskProfileRef;
     PollingEffect.addEvent := 3%nat |}.

End Scenario.

(** ** Further predicates on backend replies *)

Module Reply.
Import DashboardPage.

(** The assessment call for [routeId] resolved with a successful reply that
    carries an assessment (the condition of lines 131, 168, 310 and 336). *)
Definition assessed (w : AssessWorld) (routeId : string) : option Assessment :=
  match assessRoute w routeId with
  | Resolved resp => okAssessment resp
  | Rejected => None
  end.

(** The routes delivered by a successful optimisation (line 445). *)
Definition routesOf (reply : Outcome (option OptimizeResponse)) : option (list OptimizedRoute) :=
  match reply with
  | Resolved resp => resp ≫= (fun r => if opt_success r then optimized_routes r else None)
  | Rejected => None
  end.

(** The bounds [fetchInitialData] keeps on the overall risk when the backend
    is reachable: at least [0.1] on the primary route, within [[0.2, 0.85]]
    on the alternative routes. *)
Definition initialBounds (rp : RiskProfile) : Prop :=
  forall k e, rp !! k = Some e ->
    (k = id PRIMARY_ROUTE -> (0.1 <= overall e)%Q)
    /\ (In k (map id ALTERNATIVE_ROUTES) -> (0.2 <= overall e)%Q /\ (overall e <= 0.85)%Q).

End Reply.

(** The texts a handler passes to [setAiAnalysis], in order. *)
Definition storedAnalyses (calls : list DashboardPage.SetCall) : list string :=
  omap (fun c => match c with DashboardPage.SetAiAnalysis t => Some t | _ => None end) calls.

(** Every character of the string satisfies [p]. *)
Fixpoint allChars (p : ascii -> bool) (s : string) : bool :=
  match s with
  | EmptyString => true
  | String c rest => p c && allChars p rest
  end.

Definition isLowerAscii (c : ascii) : bool :=
  let n := nat_of_ascii c in (97 <=? n)%nat && (n <=? 122)%nat.

(** The strings on which the model of strings is exact: every character is
    an ASCII character.  There a character is one UTF-16 code unit, so
    [slice] cuts at the same place; [toUpperCase] and [toLowerCase] change
    the letters [a-z] and [A-Z] only and keep the length; and the white
    space of [\s] and [trim()] is the characters 9 to 13 and 32.  Outside
    (["ß".toUpperCase()] is ["SS"], U+00A0 is white space) the model and
    JavaScript differ, so the statements about slicing, case conversion and
    trimming of user input are made for these strings. *)
Definition isAscii (s : string) : bool :=
  allChars (fun c => (nat_of_ascii c <? 128)%nat) s.

(** A derived port identifier: at most five characters, none of them white
    space or a lower-case ASCII letter. *)
Definition portIdShape (portId : string) : Prop :=
  (String.length portId <= 5)%nat
  /\ allChars (fun c => negb (DashboardPage.isSpace c)) portId = true
  /\ allChars (fun c => negb (isLowerAscii c)) portId = true.

(** ** [HistoryPage.tsx]: the timeline *)

Module HistoryView.

(** [getIconForMessage] (lines 15-22). *)
Definition getIconForMessage (message : string) : string :=
  let lowerMessage := Js.toLowerCase message in
  if Js.includes lowerMessage "created" then "📝"
  else if Js.includes lowerMessage "disruption" then "⚠️"
  else if Js.includes lowerMessage "analysis" then "🤖"
  else if Js.includes lowerMessage "route updated" then "➡️"
  else "🔹".

(** Line 47: [eventHistory.length > 0 ? eventHistory.slice().reverse().map(...)
    : <placeholder>]; an entry is shown with its icon.  [None] stands for the
    "No events recorded yet." placeholder. *)
Definition timeline (eventHistory : list EventLog) : option (list (string * EventLog)) :=
  if (0 <? length eventHistory)%nat
  then Some (map (fun log => (getIconForMessage (message log), log)) (rev eventHistory))
  else None.

End HistoryView.

(** ** Messages the dashboard logs ([DashboardPage.tsx] lines 253, 376, 576) *)

Module EventMessage.

(** [`Shipment ${personalizedShipment.id} created. Route: ${PRIMARY_ROUTE.name}.`] *)
Definition shipmentCreated (shipmentId : string) : string :=
  "Shipment " +:+ shipmentId +:+ " created. Route: " +:+ name PRIMARY_ROUTE +:+ ".".

(** [`DISRUPTION DETECTED: ${newDisruption.name}`] *)
Definition disruptionDetected (e : DisruptionEvent) : string :=
  "DISRUPTION DETECTED: " +:+ event_name e.

(** [`Route updated to ${bestAlternative.name}.`] *)
Definition routeUpdated (best : Route) : string :=
  "Route updated to " +:+ name best +:+ ".".

End EventMessage.

(** ** [components/Dashboard.tsx] *)

Module Dashboard.
Local Open Scope Q_scope.

(** [RiskBar]: the colour class of the bar (lines 183-185) and its width in
    percent (line 182).  [value > c] is the negation of [value <= c]. *)
Definition barColor (value : Q) : string :=
  let barColor := "bg-green-500" in
  let barColor := if negb (Qle_bool value 0.3) then "bg-yellow-500" else barColor in
  if negb (Qle_bool value 0.6) then "bg-red-500" else barColor.

Definition percentage (value : Q) : Q := value * 100.

(** [riskProfile[route.id]?.overall || 0]: the risk shown for a route
    (lines 206, 207, 253 and 254). *)
Definition shownRisk (riskProfile : RiskProfile) (route : Route) : Q :=
  Js.orNum (overall <$> riskProfile !! id route) 0.

(** Lines 206-208. *)
Definition riskReduction (riskProfile : RiskProfile) (activeRoute : Route) : Q :=
  let primaryRisk := shownRisk riskProfile PRIMARY_ROUTE in
  let activeRisk := shownRisk riskProfile activeRoute in
  primaryRisk - activeRisk.

End Dashboard.

(** ** HTTP replies *)

Module Http.

(** What [fetch] resolves with: the status flag and the settled results of
    [response.json()] and [response.text()]. *)
Record Response (A : Type) := {
  ok : bool;
  json : Outcome A;
  text : Outcome string;
}.
Arguments ok {A} r.
Arguments json {A} r.
Arguments text {A} r.

End Http.

(** ** [services/vertexAIService.ts] *)

Module VertexAIService.

(** The JSON body of [/api/agent/query]; [null] is [None]. *)
Record Data := { data_success : bool; data_response : option string }.

(** [queryVertexAI] (lines 81-114 of the service file): every failure is
    logged and thrown again. *)
Definition queryVertexAI (fetch : Outcome (Http.Response (option Data))) : Outcome string :=
  match fetch with
  | Rejected => Rejected
  | Resolved response =>
      if negb (Http.ok response) then Rejected
      else match Http.json response with
           | Resolved (Some data) =>
               if data_success data && Js.truthyStr (data_response data)
               then Resolved (default "" (data_response data))
               else Rejected
           | Resolved None => Rejected
           | Rejected => Rejected
           end
  end.

End VertexAIService.

(** ** [services/perplexityService.ts]: the direct call *)

Module PerplexityDirect.

Record Message := { content : option string }.
Record Choice := { choice_message : option Message }.
(** The JSON body of the chat completion; a missing [choices] is [None]. *)
Record Completion := { choices : option (list Choice) }.

(** [data.choices[0]?.message?.content || 'No response from Perplexity API'] *)
Definition firstContent (choices : list Choice) : string :=
  Js.orStr ((Js.index choices 0 ≫= choice_message) ≫= content)
           "No response from Perplexity API".

(** [getDirectPerplexityAnalysis] (lines 33-65).  Reading [choices[0]] of a
    body without [choices] throws. *)
Definition getDirectPerplexityAnalysis (apiKey : option string)
    (fetch : Outcome (Http.Response (option Completion))) : Outcome string :=
  if negb (Js.truthyStr apiKey) then Rejected
  else match fetch with
       | Rejected => Rejected
       | Resolved response =>
           if negb (Http.ok response) then Rejected
           else match Http.json response with
                | Resolved (Some data) =>
                    match choices data with
                    | Some cs => Resolved (firstContent cs)
                    | None => Rejected
                    end
                | Resolved None => Rejected
                | Rejected => Rejected
                end
       end.

End PerplexityDirect.

(** [getPerplexityAnalysis] with its fallback wired to the direct call, as in
    the service file: [fetch prompt] is the settled request to the Perplexity
    endpoint. *)
Definition getPerplexityAnalysisDirect
    (apiKey : option string)
    (queryAgent : string -> Outcome (option PerplexityService.AgentResponse))
    (fetch : string -> Outcome (Http.Response (option PerplexityDirect.Completion)))
    (prompt : string) : Outcome string :=
  PerplexityService.getPerplexityAnalysis apiKey queryAgent
    (fun p => PerplexityDirect.getDirectPerplexityAnalysis apiKey (fetch p)) prompt.

(** ** [components/RouteMap.tsx] *)

Module RouteMap.
Local Open Scope Q_scope.

Record LatLng := { lat : Q; lng : Q }.

(** The static table of port coordinates.  A JavaScript object used as a map
    from names to coordinates; names of properties inherited from
    [Object.prototype] are not port names and are outside the model.  The
    table is mutable: [getPortCoordinates] stores geocoded coordinates in it. *)
Definition PORT_COORDINATES : gmap string LatLng := list_to_map [
  ("Port of Taipei, Taiwan", {| lat := 25.0330; lng := 121.5654 |});
  ("Taiwan", {| lat := 25.0330; lng := 121.5654 |});
  ("Port of Shanghai, China", {| lat := 31.2304; lng := 121.4737 |});
  ("Shanghai", {| lat := 31.2304; lng := 121.4737 |});
  ("Port of Shenzhen, China", {| lat := 22.5431; lng := 114.0579 |});
  ("Port of Singapore, Singapore", {| lat := 1.2897; lng := 103.8501 |});
  ("Singapore", {| lat := 1.2897; lng := 103.8501 |});
  ("Port of Hong Kong, China", {| lat := 22.3193; lng := 114.1694 |});
  ("Port of Busan, South Korea", {| lat := 35.1796; lng := 129.0756 |});
  ("Port of Tokyo, Japan", {| lat := 35.6762; lng := 139.6503 |});
  ("Tokyo", {| lat := 35.6762; lng := 139.6503 |});
  ("Japan", {| lat := 35.6762; lng := 139.6503 |});
  ("Port of Yokohama, Japan", {| lat := 35.4437; lng := 139.6380 |});
  ("Port of Ho Chi Minh City, Vietnam", {| lat := 10.7769; lng := 106.7009 |});
  ("Vietnam", {| lat := 10.7769; lng := 106.7009 |});
  ("Port of Bangkok, Thailand", {| lat := 13.7563; lng := 100.5018 |});
  ("Port of Jakarta, Indonesia", {| lat := (-6.2088); lng := 106.8456 |});
  ("Port of Manila, Philippines", {| lat := 14.5995; lng := 120.9842 |});
  ("Port of Mumbai, India", {| lat := 19.0760; lng := 72.8777 |});
  ("Port of Chennai, India", {| lat := 13.0827; lng := 80.2707 |});
  ("Port of Dubai, UAE", {| lat := 25.2048; lng := 55.2708 |});
  ("Port of Jeddah, Saudi Arabia", {| lat := 21.4858; lng := 39.1925 |});
  ("Port of Rotterdam, Netherlands", {| lat := 51.9225; lng := 4.4792 |});
  ("Port of Hamburg, Germany", {| lat := 53.5511; lng := 9.9937 |});
  ("Port of Antwerp, Belgium", {| lat := 51.2194; lng := 4.4025 |});
  ("Port of London, UK", {| lat := 51.5074; lng := (-0.1278) |});
  ("Port of Felixstowe, UK", {| lat := 51.9617; lng := 1.3514 |});
  ("Port of Le Havre, France", {| lat := 49.4944; lng := 0.1079 |});
  ("Port of Genoa, Italy", {| lat := 44.4056; lng := 8.9463 |});
  ("Port of Barcelona, Spain", {| lat := 41.3851; lng := 2.1734 |});
  ("Port of Piraeus, Greece", {| lat := 37.9420; lng := 23.6462 |});
  ("Port of Los Angeles, USA", {| lat := 33.7490; lng := (-118.2648) |});
  ("Los Angeles", {| lat := 33.7490; lng := (-118.2648) |});
  ("Port of Long Beach, USA", {| lat := 33.7701; lng := (-118.1937) |});
  ("Port of New York/Newark, USA", {| lat := 40.7128; lng := (-74.0060) |});
  ("Port of New York, USA", {| lat := 40.7128; lng := (-74.0060) |});
  ("Port of Savannah, USA", {| lat := 32.0809; lng := (-81.0912) |});
  ("Port of Charleston, USA", {| lat := 32.7765; lng := (-79.9311) |});
  ("Port of Houston, USA", {| lat := 29.7604; lng := (-95.3698) |});
  ("Port of Vancouver, Canada", {| lat := 49.2827; lng := (-123.1207) |});
  ("Port of Santos, Brazil", {| lat := (-23.9608); lng := (-46.3336) |});
  ("Port of Buenos Aires, Argentina", {| lat := (-34.6037); lng := (-58.3816) |});
  ("Port of Callao, Peru", {| lat := (-12.0464); lng := (-77.0428) |});
  ("Port of Durban, South Africa", {| lat := (-29.8587); lng := 31.0218 |});
  ("Port of Cape Town, South Africa", {| lat := (-33.9249); lng := 18.4241 |});
  ("Port of Lagos, Nigeria", {| lat := 6.5244; lng := 3.3792 |})
].

(** [getPortCoordinates(portName)] on the table [table]; [geocodePort] gives
    the settled result of the geocoding request ([None] for [null]).  Returns
    the table afterwards and the coordinates. *)
Definition getPortCoordinates (table : gmap string LatLng)
    (geocodePort : string -> option LatLng) (portName : string)
    : gmap string LatLng * LatLng :=
  match table !! portName with
  | Some c => (table, c)
  | None =>
      match geocodePort portName with
      | Some c => (<[portName := c]> table, c)
      | None => (table, {| lat := 0; lng := 0 |})
      end
  end.

(** [uniquePorts.add(name)] on a [Set], kept in insertion order. *)
Definition addUnique (names : list string) (n : string) : list string :=
  if bool_decide (n ∈ names) then names else names ++ [n].

(** The names a route adds, in the order of the source: origin, destination,
    then [route.stops?.forEach]. *)
Definition routePortNames (route : Route) : list string :=
  [port_name (origin route); port_name (destination route)]
  ++ match stops route with
     | Some ss => map port_name ss
     | None => []
     end.

Definition uniquePorts (routes : list Route) : list string :=
  fold_left addUnique (concat (map routePortNames routes)) [].

(** [loadCoordinates]: every unique port is looked up through
    [getPortCoordinates] and stored in [coords].  The calls touch distinct
    names of the table, so their interleaving does not matter.  Returns the
    table afterwards and the value passed to [setPortCoords]. *)
Definition loadCoordinates (table : gmap string LatLng)
    (geocodePort : string -> option LatLng) (routes : list Route)
    : gmap string LatLng * gmap string LatLng :=
  fold_left
    (fun acc portName =>
       let '(table', c) := getPortCoordinates (fst acc) geocodePort portName in
       (table', <[portName := c]> (snd acc)))
    (uniquePorts routes) (table, ∅).

(** [portCoords[name] || PORT_COORDINATES[name]]. *)
Definition lookupCoords (portCoords table : gmap string LatLng) (name : string)
    : option LatLng :=
  match portCoords !! name with
  | Some c => Some c
  | None => table !! name
  end.

(** [if (c && c.lat !== 0 && c.lng !== 0) path.push(c)]: what is pushed. *)
Definition pushed (c : option LatLng) : list LatLng :=
  match c with
  | Some c => if negb (Qeq_bool (lat c) 0) && negb (Qeq_bool (lng c) 0) then [c] else []
  | None => []
  end.

(** One element of [routePaths]. *)
Definition routePath (portCoords table : gmap string LatLng) (route : Route)
    : list LatLng :=
  pushed (lookupCoords portCoords table (port_name (origin route)))
  ++ match stops route with
     | Some ss =>
         flat_map (fun stop => pushed (lookupCoords portCoords table (port_name stop))) ss
     | None => []
     end
  ++ pushed (lookupCoords portCoords table (port_name (destination route))).

Definition routePaths (portCoords table : gmap string LatLng) (routes : list Route)
    : list (list LatLng) :=
  map (routePath portCoords table) routes.

Definition getRouteColor (activeRouteId routeId : string) : string :=
  if String.eqb routeId activeRouteId then "#06b6d4" else "#6b7280".

Record Polyline := {
  polyline_key : string;
  polyline_path : list LatLng;
  strokeColor : string;
}.

(** [routePaths.map((path, index) => ...)]: no polyline for a path of fewer
    than two points; [routes[index]] is the route the path was computed
    from. *)
Definition polylines (portCoords table : gmap string LatLng)
    (activeRouteId : string) (routes : list Route) : list (option Polyline) :=
  map (fun route =>
         let path := routePath portCoords table route in
         if (length path <? 2)%nat then None
         else Some {| polyline_key := id route;
                      polyline_path := path;
                      strokeColor := getRouteColor activeRouteId (id route) |})
      routes.

(** A risk data point as received from the backend. *)
Record RiskDataPoint := {
  latitude : option Q;
  longitude : option Q;
  severity : option Q;
  category : option string;
  title : option string;
}.

Record RiskMarker := {
  marker_id : string;
  position : LatLng;
  marker_severity : Q;
  marker_category : string;
  marker_title : string;
}.

(** [point.latitude && point.longitude] as a filter condition. *)
Definition located (point : RiskDataPoint) : bool :=
  match latitude point, longitude point with
  | Some la, Some lo => negb (Qeq_bool la 0) && negb (Qeq_bool lo 0)
  | _, _ => false
  end.

Definition riskMarker (index : nat) (point : RiskDataPoint) : RiskMarker :=
  {| marker_id := "risk-" +:+ pretty index;
     position := {| lat := default 0 (latitude point); lng := default 0 (longitude point) |};
     marker_severity := Js.orNum (severity point) 0.5;
     marker_category := Js.orStr (category point) "Unknown";
     marker_title := Js.orStr (title point) "Risk Event" |}.

Definition riskMarkers (riskDataPoints : list RiskDataPoint) : list RiskMarker :=
  imap riskMarker (List.filter located riskDataPoints).

End RouteMap.

(** ** [OnboardingPage.tsx] and [AuthPage.tsx] *)

Module OnboardingPage.

(** [s.trim()] on strings of ASCII characters, where the white space
    removed is the characters 9 to 13 and 32.  (JavaScript also removes
    U+00A0, U+FEFF and other Unicode spaces.) *)
Fixpoint trimStart (s : string) : string :=
  match s with
  | EmptyString => EmptyString
  | String c rest => if DashboardPage.isSpace c then trimStart rest else s
  end.

Fixpoint trimEnd (s : string) : string :=
  match s with
  | EmptyString => EmptyString
  | String c rest =>
      match trimEnd rest with
      | EmptyString => if DashboardPage.isSpace c then EmptyString else String c EmptyString
      | kept => String c kept
      end
  end.

Definition trim (s : string) : string := trimEnd (trimStart s).

(** The three controlled inputs of the form. *)
Record Form := {
  form_product : string;
  form_origin : string;
  form_destination : string;
}.

(** [handleSubmit]: the calls made on the setters of [App]; the alert on a
    blank field changes no state. *)
Definition handleSubmit (f : Form) : list AppAction :=
  if String.eqb (trim (form_product f)) ""
     || String.eqb (trim (form_origin f)) ""
     || String.eqb (trim (form_destination f)) ""
  then []
  else [SetUserConfig (Some {| product := form_product f;
                               cfg_origin := form_origin f;
                               cfg_destination := form_destination f |});
        Navigate dashboard].

End OnboardingPage.

Module AuthPage.

Definition handleSubmit (isLogin : bool) : list AppAction :=
  if isLogin then [Navigate dashboard]
  else [SetUserConfig None; Navigate onboarding].

End AuthPage.

(** What a user can do to the state of [App]: submit either form, follow a
    navigation link, change the theme in the settings, or cause the
    dashboard to log an event. *)
Inductive UserEvent :=
| SubmitAuth (isLogin : bool)
| SubmitOnboarding (f : OnboardingPage.Form)
| Follow (p : Page)
| ChooseTheme (t : Theme)
| LogEvent (message : string) (now : Z).

Definition userActions (e : UserEvent) : list AppAction :=
  match e with
  | SubmitAuth isLogin => AuthPage.handleSubmit isLogin
  | SubmitOnboarding f => OnboardingPage.handleSubmit f
  | Follow p => [Navigate p]
  | ChooseTheme t => [SetTheme t]
  | LogEvent m now => [AddEvent m now]
  end.

Definition userStep (s : AppState) (e : UserEvent) : AppState := appRun s (userActions e).

(** A string with at least one character that is not white space. *)
Definition filled (s : string) : bool := negb (allChars DashboardPage.isSpace s).

(** The three fields of the form hold ASCII characters only. *)
Definition asciiForm (f : OnboardingPage.Form) : bool :=
  isAscii (OnboardingPage.form_product f)
  && isAscii (OnboardingPage.form_origin f)
  && isAscii (OnboardingPage.form_destination f).

Definition asciiEvent (e : UserEvent) : bool :=
  match e with
  | SubmitOnboarding f => asciiForm f
  | _ => true
  end.

Definition configFilled (c : option UserConfiguration) : Prop :=
  match c with
  | None => True
  | Some cfg =>
      filled (product cfg) = true /\ filled (cfg_origin cfg) = true
      /\ filled (cfg_destination cfg) = true
  end.

(** * Properties *)

(** ** Assignment to a property of an object used as a map *)

Lemma assign_cases {A} (key : string) (value : A) (obj : gmap string A) :
  (key = "__proto__" /\ Js.assign key value obj = obj)
  \/ (key <> "__proto__" /\ Js.assign key value obj = <[key := value]> obj).
Proof.
  unfold Js.assign. destruct (String.eqb key "__proto__") eqn:E.
  - left. by apply String.eqb_eq in E.
  - right. by apply String.eqb_neq in E.
Qed.

Lemma assign_ne {A} (key : string) (value : A) (obj : gmap string A) :
  key <> "__proto__" -> Js.assign key value obj = <[key := value]> obj.
Proof. intros H. by destruct (assign_cases key value obj) as [[? _]|[_ ->]]. Qed.

Lemma assign_lookup_ne {A} (key k : string) (value : A) (obj : gmap string A) :
  key <> k -> Js.assign key value obj !! k = obj !! k.
Proof.
  intros Hne. destruct (assign_cases key value obj) as [[_ ->]|[_ ->]]; [done|].
  by apply lookup_insert_ne.
Qed.

Lemma assign_keeps_entry {A} (key k : string) (value : A) (obj : gmap string A) :
  is_Some (obj !! k) -> is_Some (Js.assign key value obj !! k).
Proof.
  intros Hk. destruct (assign_cases key value obj) as [[_ ->]|[_ ->]]; [done|].
  rewrite lookup_insert_is_Some'. by right.
Qed.

Lemma assign_proto_unset {A} (key : string) (value : A) (obj : gmap string A) :
  Js.assign key value obj !! "__proto__" = obj !! "__proto__".
Proof.
  destruct (assign_cases key value obj) as [[_ ->]|[Hne ->]]; [done|].
  by apply lookup_insert_ne.
Qed.

Local Open Scope Q_scope.

(** ** The definitions at work *)

Section Examples.
Import DashboardPage.

Example toUpperCase_slice :
  Js.toUpperCase (Js.slice0 3 "High-Performance Semiconductors") = "HIG"
  /\ Js.toUpperCase (Js.slice0 3 "pc") = "PC".
Proof. split; reflexivity. Qed.

Example personalizedShipment_origin :
  shipment_origin
    (personalizedShipment
       (Some {| product := "Chips"; cfg_origin := "Port of Taipei, Taiwan";
                cfg_destination := "Port of Los Angeles, USA" |}))
  = {| port_id := "PORT"; port_name := "Port of Taipei, Taiwan" |}.
Proof. reflexivity. Qed.

(** Entries with equal keys keep their relative order. *)
Example sort_is_stable :
  Js.sort (fun a b : Q * nat => fst a - fst b)
    [(0.3, 1%nat); (0.1, 2%nat); (0.3, 3%nat); (0.1, 4%nat); (0.2, 5%nat)]
  = [(0.1, 2%nat); (0.1, 4%nat); (0.2, 5%nat); (0.3, 1%nat); (0.3, 3%nat)].
Proof. reflexivity. Qed.

Example includes_beforeComma :
  Js.includes "hello world" "o w" = true
  /\ Js.includes "hello world" "ow" = false
  /\ Js.includes "" "" = true
  /\ Js.beforeComma "port of tokyo, japan" = "port of tokyo".
Proof. repeat split; reflexivity. Qed.

Example matchingFrontendRoute_by_waypoint :
  id <$> matchingFrontendRoute
           {| route_id := None; waypoints := Some ["Tokyo, Japan"];
              metrics_risk_score := None; risk_assessment := None |}
  = Some "TW-JP-LA"
  /\ id <$> matchingFrontendRoute Scenario.bareRoute = Some "TW-LA-DIRECT"
  /\ optimizedRouteId
       {| route_id := None; waypoints := Some ["Busan"];
          metrics_risk_score := None; risk_assessment := None |} 3
     = "route-3".
Proof. repeat split; by vm_compute. Qed.

(** After an initial assessment in which the backend reports [0.3] for every
    route and every jitter draw is [0.5], the alternatives are staggered by
    their index. *)
Example fetchInitialData_reporting :
  Forall2 Qeq
    (map (fun r => Js.orNum (overall <$>
            riskProfile (Handlers.run (Handlers.mounted None)
                           (Handlers.FetchInitialData (Scenario.reporting 0.3))) !! id r) 0)
         allRoutes)
    [0.3; 0.32; 0.38; 0.44; 0.5].
Proof. repeat constructor; by vm_compute. Qed.

End Examples.

(** ** Base operations *)

Section JsFacts.

Lemma orNum_cases (a : option Q) (b : Q) :
  (a = None /\ Js.orNum a b = b)
  \/ (exists x, a = Some x /\ x == 0 /\ Js.orNum a b = b)
  \/ (exists x, a = Some x /\ ~ x == 0 /\ Js.orNum a b = x).
Proof.
  destruct a as [x|]; [|by left].
  right. simpl. destruct (Qeq_bool x 0) eqn:E.
  - left. exists x. by apply Qeq_bool_iff in E.
  - right. exists x. split; [done|]. split; [|done].
    intros H. apply Qeq_bool_iff in H. congruence.
Qed.

Lemma orNumOpt_cases (a b : option Q) :
  Js.orNumOpt a b = b \/ (exists x, a = Some x /\ ~ x == 0 /\ Js.orNumOpt a b = Some x).
Proof.
  destruct a as [x|]; [|by left].
  simpl. destruct (Qeq_bool x 0) eqn:E; [by left|].
  right. exists x. split; [done|]. split; [|done].
  intros H. apply Qeq_bool_iff in H. congruence.
Qed.

Lemma max_lower_l (a b : Q) : a <= Js.max a b.
Proof. apply Q.le_max_l. Qed.

Lemma max_lower_r (a b : Q) : b <= Js.max a b.
Proof. apply Q.le_max_r. Qed.

Lemma max_upper (a b c : Q) : a <= c -> b <= c -> Js.max a b <= c.
Proof. intros. by apply Q.max_lub. Qed.

Lemma min_upper_l (a b : Q) : Js.min a b <= a.
Proof. apply Q.le_min_l. Qed.

Lemma min_lower (a b c : Q) : c <= a -> c <= b -> c <= Js.min a b.
Proof. intros. by apply Q.min_glb. Qed.


Lemma toUpperCase_length (s : string) :
  String.length (Js.toUpperCase s) = String.length s.
Proof.
  unfold Js.toUpperCase. induction s as [|c s IH]; [done|].
  change (S (String.length (Js.mapStr Js.upperChar s)) = S (String.length s)).
  by f_equal.
Qed.

End JsFacts.

(** ** [constants.ts] *)

(** C8. For every value [r] of the random source with [0 <= r < 1],
    [getRandomDisruptionEvent] returns [DISRUPTION_EVENTS[floor(r * 8)]], a
    defined element of the eight-element list: the index lies in [0, 8). *)
Theorem getRandomDisruptionEvent_in_bounds (r : Q) :
  0 <= r -> r < 1 ->
  length DISRUPTION_EVENTS = 8%nat
  /\ (0 <= Js.floor (r * 8) < 8)%Z
  /\ exists e, getRandomDisruptionEvent r = Some e
               /\ nth_error DISRUPTION_EVENTS (Z.to_nat (Js.floor (r * 8))) = Some e
               /\ In e DISRUPTION_EVENTS.
Proof.
  intros Hlo Hhi.
  assert (Hb : (0 <= Js.floor (r * 8) < 8)%Z).
  { unfold Js.floor. split.
    - assert (H0 : 0 <= r * 8) by lra.
      apply Qfloor_resp_le in H0. exact H0.
    - pose proof (Qfloor_le (r * 8)) as Hle.
      assert (Hlt : inject_Z (Qfloor (r * 8)) < inject_Z 8).
      { apply Qle_lt_trans with (r * 8); [exact Hle|]. change (inject_Z 8) with 8. lra. }
      by rewrite <- Zlt_Qlt in Hlt. }
  split; [reflexivity|]. split; [exact Hb|].
  unfold getRandomDisruptionEvent, Js.index.
  change (inject_Z (Z.of_nat (length DISRUPTION_EVENTS))) with 8.
  destruct (Z.ltb_spec (Js.floor (r * 8)) 0) as [Hneg|_]; [lia|].
  assert (Hn : (Z.to_nat (Js.floor (r * 8)) < 8)%nat) by lia.
  destruct (nth_error DISRUPTION_EVENTS (Z.to_nat (Js.floor (r * 8)))) as [e|] eqn:He.
  - exists e. split; [done|]. split; [done|]. by apply nth_error_In in He.
  - apply nth_error_None in He. change (length DISRUPTION_EVENTS) with 8%nat in He. lia.
Qed.

Lemma getRandomDisruptionEvent_in_bounds_witness :
  0 <= 0.6 /\ 0.6 < 1
  /\ exists e, getRandomDisruptionEvent 0.6 = Some e
               /\ nth_error DISRUPTION_EVENTS (Z.to_nat (Js.floor (0.6 * 8))) = Some e
               /\ In e DISRUPTION_EVENTS.
Proof.
  assert (Hlo : 0 <= 0.6) by (by vm_compute).
  assert (Hhi : 0.6 < 1) by reflexivity.
  split; [exact Hlo|]. split; [exact Hhi|].
  apply (getRandomDisruptionEvent_in_bounds 0.6 Hlo Hhi).
Defined.

(** ** [App.tsx]: event history *)

Section EventHistory.

Lemma appStep_history (s : AppState) (a : AppAction) :
  eventHistory (appStep s a) = eventHistory s
  \/ exists m now, a = AddEvent m now
                   /\ eventHistory (appStep s a) = addEvent m now (eventHistory s).
Proof. destruct a; simpl; eauto. Qed.

Lemma appRun_history_prefix (acts : list AppAction) :
  forall s, eventHistory s `prefix_of` eventHistory (appRun s acts).
Proof.
  unfold appRun. induction acts as [|a acts IH]; intros s; simpl; [done|].
  etrans; [|apply IH].
  destruct (appStep_history s a) as [-> | (m & now & _ & ->)]; [done|].
  by apply prefix_app_r.
Qed.

End EventHistory.

(** C6. The event history is append-only.  Every call of [addEvent] makes
    the history the previous one followed by exactly one new entry, made of
    the given message and the time stamp: the length grows by one and every
    earlier entry keeps its position.  No other action of the application
    touches the history.  Hence after any sequence of actions the history is
    the earlier history followed by the entries of the [addEvent] calls, in
    the order of the calls: no entry is removed or altered.  The history
    starts empty with the component state. *)
Theorem eventHistory_append_only :
  (forall s m now,
      let s' := appStep s (AddEvent m now) in
      eventHistory s' = eventHistory s ++ [{| message := m; timestamp := now |}]
      /\ length (eventHistory s') = S (length (eventHistory s))
      /\ (forall i e, eventHistory s !! i = Some e -> eventHistory s' !! i = Some e)
      /\ eventHistory s' !! length (eventHistory s)
         = Some {| message := m; timestamp := now |})
  /\ (forall s p, eventHistory (appStep s (Navigate p)) = eventHistory s)
  /\ (forall s t, eventHistory (appStep s (SetTheme t)) = eventHistory s)
  /\ (forall s c, eventHistory (appStep s (SetUserConfig c)) = eventHistory s)
  /\ (forall s acts,
        eventHistory (appRun s acts) = eventHistory s ++ loggedEntries acts)
  /\ (forall s acts i e,
         eventHistory s !! i = Some e -> eventHistory (appRun s acts) !! i = Some e)
  /\ (forall m now prev,
        addEvent m now prev = prev ++ [{| message := m; timestamp := now |}])
  /\ eventHistory initialApp = [].
Proof.
  assert (Hrun : forall acts s,
            eventHistory (appRun s acts) = eventHistory s ++ loggedEntries acts).
  { unfold appRun. induction acts as [|a acts IH]; intros s; simpl.
    - by rewrite app_nil_r.
    - rewrite IH. destruct a; simpl; try reflexivity.
      unfold addEvent. by rewrite <- app_assoc. }
  split; [|split; [|split; [|split; [|split; [|split; [|split]]]]]]; try reflexivity.
  - intros s m now s'. subst s'. simpl. unfold addEvent. split; [done|]. split; [|split].
    + rewrite length_app. simpl. lia.
    + intros i e He. by apply lookup_app_l_Some.
    + by rewrite list_lookup_middle.
  - intros s acts. apply Hrun.
  - intros s acts i e He. rewrite Hrun. by apply lookup_app_l_Some.
Qed.

(** ** [DashboardPage.tsx]: derived values *)

(** C9. For every string [activeRouteId], [activeRoute] is a route of
    [allRoutes]: the one whose identifier is [activeRouteId] when there is
    one, and [PRIMARY_ROUTE] otherwise. *)
Theorem activeRoute_defined (activeRouteId : string) :
  (forall r, In r DashboardPage.allRoutes -> id r = activeRouteId ->
             DashboardPage.activeRoute activeRouteId = r)
  /\ ((forall r, In r DashboardPage.allRoutes -> id r <> activeRouteId) ->
      DashboardPage.activeRoute activeRouteId = PRIMARY_ROUTE)
  /\ In (DashboardPage.activeRoute activeRouteId) DashboardPage.allRoutes.
Proof.
  split; [|split].
  - intros r Hin <-.
    simpl in Hin. destruct Hin as [<-|[<-|[<-|[<-|[<-|[]]]]]]; reflexivity.
  - intros Hnone. unfold DashboardPage.activeRoute, Js.find.
    destruct (List.find _ DashboardPage.allRoutes) as [r|] eqn:Hf; [|done].
    apply find_some in Hf as [Hin Heq]. apply String.eqb_eq in Heq.
    by destruct (Hnone r Hin).
  - unfold DashboardPage.activeRoute, Js.find.
    destruct (List.find _ DashboardPage.allRoutes) as [r|] eqn:Hf.
    + by apply find_some in Hf as [Hin _].
    + simpl. by left.
Qed.





(** ** [perplexityService.ts] *)

(** C5. For every prompt, when the backend agent query fails and no
    Perplexity key is configured, [getPerplexityAnalysis] resolves (it does
    not reject) with the fixed sentence recommending the 32% alternative. *)
Theorem getPerplexityAnalysis_fallback
    (apiKey : option string)
    (queryAgent : string -> Outcome (option PerplexityService.AgentResponse))
    (direct : string -> Outcome string) (prompt : string) :
  Js.truthyStr apiKey = false ->
  agentQueryFailed (queryAgent prompt) ->
  PerplexityService.getPerplexityAnalysis apiKey queryAgent direct prompt
  = Resolved PerplexityService.mockResponse
  /\ Js.includes PerplexityService.mockResponse
       "alternative route with the lowest risk score (32%)" = true.
Proof.
  intros Hkey Hfail. split; [|reflexivity].
  unfold PerplexityService.getPerplexityAnalysis. rewrite Hkey.
  destruct (queryAgent prompt) as [[r|]|]; simpl in *; try reflexivity.
  by rewrite Hfail.
Qed.

Lemma getPerplexityAnalysis_fallback_witness :
  PerplexityService.getPerplexityAnalysis None (fun _ => Rejected)
    (fun _ => Rejected) "Which route?"
  = Resolved PerplexityService.mockResponse
  /\ Js.includes PerplexityService.mockResponse
       "alternative route with the lowest risk score (32%)" = true.
Proof.
  apply (getPerplexityAnalysis_fallback None (fun _ => Rejected) (fun _ => Rejected)
           "Which route?"); [reflexivity | exact I].
Defined.

(** ** [fetchInitialData] *)

Section InitialAssessment.
Import DashboardPage.

Lemma alternative_routes_cases (i : nat) (route : Route) :
  ALTERNATIVE_ROUTES !! i = Some route ->
  (i < 4)%nat
  /\ indexOfAlternative route = Z.of_nat i
  /\ In route ALTERNATIVE_ROUTES
  /\ id route <> id PRIMARY_ROUTE.
Proof.
  intros H.
  do 4 (destruct i as [|i]; [injection H as <-; repeat split; (lia || (simpl; tauto) || done)|]).
  done.
Qed.

Lemma initialAlternative_lookup_ne (w : AssessWorld) (u : RiskProfile) (route : Route) k :
  id route <> k -> initialAlternative w u route !! k = u !! k.
Proof.
  intros Hne. unfold initialAlternative.
  destruct (assessRoute w (id route)) as [resp|]; [destruct (okAssessment resp)|];
    by rewrite lookup_insert_ne.
Qed.

Lemma initialAlternative_lookup_ok (w : AssessWorld) (u : RiskProfile) (route : Route) resp a :
  assessRoute w (id route) = Resolved resp ->
  okAssessment resp = Some a ->
  overall <$> initialAlternative w u route !! id route
  = Some (initialFinalRisk a (indexOfAlternative route) (random w (id route))).
Proof.
  intros Hr Ha. unfold initialAlternative. rewrite Hr, Ha.
  by rewrite lookup_insert_eq.
Qed.

Lemma ensureRoute_lookup_Some (u : RiskProfile) (route : Route) k e :
  u !! k = Some e -> ensureRoute u route !! k = Some e.
Proof.
  intros Hk. unfold ensureRoute.
  destruct (u !! id route) eqn:Hr; [done|].
  rewrite lookup_insert_ne; [done|]. intros <-. congruence.
Qed.

Lemma fold_ensureRoute_lookup_Some (routes : list Route) :
  forall (u : RiskProfile) k e,
    u !! k = Some e -> fold_left ensureRoute routes u !! k = Some e.
Proof.
  induction routes as [|r routes IH]; intros u k e Hk; simpl; [done|].
  apply IH. by apply ensureRoute_lookup_Some.
Qed.

Lemma initialFinalRisk_clamped (a : Assessment) (routeIndex : Z) (rnd : Q) :
  0.2 <= initialFinalRisk a routeIndex rnd /\ initialFinalRisk a routeIndex rnd <= 0.85.
Proof.
  unfold initialFinalRisk. split.
  - apply min_lower; [by vm_compute | apply max_lower_l].
  - apply min_upper_l.
Qed.

End InitialAssessment.

(** C4. During the initial assessment, when the backend is reachable and the
    assessment of the alternative route at index [i] succeeds, the overall
    risk stored for that route is
    [min(0.85, max(0.2, max(0.15, s) + i * 0.06 + j))], where [s] is the
    reported [overall_risk_score] ([0.2] when it is absent or zero) and
    [j = Math.random() * 0.04] satisfies [0 <= j < 0.04]; the stored value
    lies in [[0.2, 0.85]]. *)
Theorem fetchInitialData_alternative_risk
    (w : DashboardPage.AssessWorld) (i : nat) (route : Route)
    (resp : option AssessResponse) (a : Assessment) :
  ALTERNATIVE_ROUTES !! i = Some route ->
  DashboardPage.getApiHealth w = Resolved tt ->
  DashboardPage.assessRoute w (id route) = Resolved resp ->
  DashboardPage.okAssessment resp = Some a ->
  0 <= DashboardPage.random w (id route) ->
  DashboardPage.random w (id route) < 1 ->
  let s := match overall_risk_score a with
           | Some x => if Qeq_bool x 0 then 0.2 else x
           | None => 0.2
           end in
  exists rp e j,
    DashboardPage.fetchInitialData w = [DashboardPage.SetRiskProfile rp]
    /\ rp !! id route = Some e
    /\ j = DashboardPage.random w (id route) * 0.04
    /\ 0 <= j /\ j < 0.04
    /\ overall e = Qmin 0.85 (Qmax 0.2 (Qmax 0.15 s + inject_Z (Z.of_nat i) * 0.06 + j))
    /\ 0.2 <= overall e /\ overall e <= 0.85.
Proof.
  intros Hi Hhealth Hreply Hok Hlo Hhi s.
  destruct (alternative_routes_cases i route Hi) as (Hlt & Hidx & Hin & Hne).
  unfold DashboardPage.fetchInitialData. rewrite Hhealth.
  set (rp := fold_left DashboardPage.ensureRoute DashboardPage.allRoutes _).
  assert (Hov : overall <$> rp !! id route
                = Some (DashboardPage.initialFinalRisk a (Z.of_nat i)
                          (DashboardPage.random w (id route)))).
  { rewrite <- Hidx.
    assert (Hfold : overall <$>
              fold_left (DashboardPage.initialAlternative w) ALTERNATIVE_ROUTES
                (DashboardPage.initialPrimary w ∅) !! id route
              = Some (DashboardPage.initialFinalRisk a (DashboardPage.indexOfAlternative route)
                        (DashboardPage.random w (id route)))).
    { do 4 (destruct i as [|i]; [injection Hi as <-; simpl;
        rewrite ?initialAlternative_lookup_ne by done;
        by apply initialAlternative_lookup_ok with resp|]).
      done. }
    destruct (fold_left (DashboardPage.initialAlternative w) ALTERNATIVE_ROUTES _ !! id route)
      as [e|] eqn:He; [|done].
    subst rp. by rewrite (fold_ensureRoute_lookup_Some _ _ _ e He). }
  destruct (rp !! id route) as [e|] eqn:He; [|done].
  injection Hov as Hov.
  exists rp, e, (DashboardPage.random w (id route) * 0.04).
  split; [done|]. split; [done|]. split; [done|].
  split; [lra|]. split; [lra|].
  split; [exact Hov|].
  rewrite Hov. apply initialFinalRisk_clamped.
Qed.

Lemma fetchInitialData_alternative_risk_witness :
  exists rp e j,
    DashboardPage.fetchInitialData (Scenario.reporting 0.3) = [DashboardPage.SetRiskProfile rp]
    /\ rp !! "TW-JP-LA" = Some e
    /\ j = 0.5 * 0.04
    /\ 0 <= j /\ j < 0.04
    /\ overall e = Qmin 0.85 (Qmax 0.2 (Qmax 0.15 0.3 + inject_Z 1 * 0.06 + j))
    /\ 0.2 <= overall e /\ overall e <= 0.85.
Proof.
  assert (Hlo : 0 <= 0.5) by (by vm_compute).
  exact (fetchInitialData_alternative_risk (Scenario.reporting 0.3) 1 _ _ _
           eq_refl eq_refl eq_refl eq_refl Hlo eq_refl).
Defined.

(** ** Range of the stored risk values *)

Section RangeBasics.
Import DashboardPage.

Lemma inUnit_max (a b : Q) : inUnit a -> inUnit b -> inUnit (Js.max a b).
Proof.
  intros [Ha0 Ha1] [Hb0 Hb1]. split.
  - apply Qle_trans with a; [done | apply max_lower_l].
  - by apply max_upper.
Qed.

Lemma inUnit_clamp (lo hi x : Q) :
  0 <= lo -> lo <= hi -> hi <= 1 -> inUnit (Js.min hi (Js.max lo x)).
Proof.
  intros H0 Hlh H1. split.
  - apply min_lower; [lra|]. apply Qle_trans with lo; [done | apply max_lower_l].
  - apply Qle_trans with hi; [apply min_upper_l | done].
Qed.

Lemma inUnit_orNum (a : option Q) (b : Q) :
  scoreInUnit a -> inUnit b -> inUnit (Js.orNum a b).
Proof.
  intros Ha Hb.
  destruct (orNum_cases a b) as [[_ ->]|[(x & _ & _ & ->)|(x & Hx & _ & ->)]]; auto.
Qed.

Lemma scoreInUnit_orNumOpt (a b : option Q) :
  scoreInUnit a -> scoreInUnit b -> scoreInUnit (Js.orNumOpt a b).
Proof.
  intros Ha Hb.
  destruct (orNumOpt_cases a b) as [->|(x & Hx & _ & ->)]; [done|].
  intros y [= <-]. auto.
Qed.

Lemma scoreInUnit_None : scoreInUnit None.
Proof. by intros x. Qed.

Lemma scoreInUnit_factors (f : option Factors) :
  factorsInUnit f ->
  scoreInUnit (f ≫= fac_congestion) /\ scoreInUnit (f ≫= fac_tariffs)
  /\ scoreInUnit (f ≫= fac_political_unrest).
Proof.
  intros H. destruct f as [x|].
  - exact (H x eq_refl).
  - split; [|split]; apply scoreInUnit_None.
Qed.

Lemma scoreInUnit_breakdown (b : option Breakdown) :
  breakdownInUnit b ->
  scoreInUnit (b ≫= port_congestion) /\ scoreInUnit (b ≫= trade_news)
  /\ scoreInUnit (b ≫= political).
Proof.
  intros H. destruct b as [x|].
  - exact (H x eq_refl).
  - split; [|split]; apply scoreInUnit_None.
Qed.

Lemma inUnit_factorOr (a : Assessment) f b (dflt : Q) :
  scoreInUnit (assessment_factors a ≫= f) ->
  scoreInUnit (assessment_breakdown a ≫= b) ->
  inUnit dflt -> inUnit (factorOr a f b dflt).
Proof.
  intros Hf Hb Hd. unfold factorOr.
  apply inUnit_orNum; [|done]. by apply scoreInUnit_orNumOpt.
Qed.

Lemma inUnit_affine (i n : Z) (base slope : Q) :
  (0 <= i <= n)%Z -> 0 <= base -> 0 <= slope -> base + inject_Z n * slope <= 1 ->
  inUnit (base + inject_Z i * slope).
Proof.
  intros [Hi0 Hin] Hb Hs Hsum.
  assert (H0 : 0 <= inject_Z i) by (change 0 with (inject_Z 0); by rewrite <- Zle_Qle).
  assert (H3 : inject_Z i <= inject_Z n) by (by rewrite <- Zle_Qle).
  split; nra.
Qed.

Lemma inUnit_default (i : Z) (base slope : Q) :
  (0 <= i <= 3)%Z -> 0 <= base -> 0 <= slope -> base + 3 * slope <= 1 ->
  inUnit (base + inject_Z i * slope).
Proof. intros. by apply inUnit_affine with 3%Z. Qed.

End RangeBasics.

Ltac assessment_scores a Ha :=
  destruct Ha as (Hov & Hfac & Hbd);
  destruct (scoreInUnit_factors _ Hfac) as (Hfc & Hft & Hfu);
  destruct (scoreInUnit_breakdown _ Hbd) as (Hbc & Hbt & Hbu).

Ltac unit_const := split; by vm_compute.

Section RangeInvariant.
Import DashboardPage.

Lemma profileInUnit_empty : profileInUnit ∅.
Proof. intros k e H. by rewrite lookup_empty in H. Qed.

Lemma profileInUnit_insert (u : RiskProfile) k e :
  entryInUnit e -> profileInUnit u -> profileInUnit (<[k := e]> u).
Proof.
  intros He Hu k' e' Hk'.
  destruct (decide (k = k')) as [->|Hne].
  - rewrite lookup_insert_eq in Hk'. by injection Hk' as <-.
  - rewrite lookup_insert_ne in Hk' by done. by apply (Hu k').
Qed.

Lemma entryInUnit_entry (o c t u : Q) :
  inUnit o -> inUnit c -> inUnit t -> inUnit u -> entryInUnit (entry o c t u).
Proof. intros Ho Hc Ht Hu. unfold entryInUnit, entry. simpl. tauto. Qed.

Lemma fold_left_profileInUnit {A} (f : RiskProfile -> A -> RiskProfile) (l : list A) :
  (forall u x, In x l -> profileInUnit u -> profileInUnit (f u x)) ->
  forall u, profileInUnit u -> profileInUnit (fold_left f l u).
Proof.
  induction l as [|x l IH]; intros Hf u Hu; simpl; [done|].
  apply IH.
  - intros u' y Hy. apply Hf. by right.
  - apply Hf; [by left | done].
Qed.

Lemma indexOfAlternative_range (route : Route) :
  In route ALTERNATIVE_ROUTES -> (0 <= indexOfAlternative route <= 3)%Z.
Proof.
  simpl. intros [<-|[<-|[<-|[<-|[]]]]]; vm_compute; split; discriminate.
Qed.

Lemma entryInUnit_primaryFallback : entryInUnit primaryFallback.
Proof. repeat split; by vm_compute. Qed.

Lemma entryInUnit_alternativeFallback (i : Z) :
  (0 <= i <= 3)%Z -> entryInUnit (alternativeFallback i).
Proof.
  intros Hi. unfold alternativeFallback.
  apply entryInUnit_entry; apply inUnit_default; try done; by vm_compute.
Qed.

Lemma initialPrimary_inUnit (w : AssessWorld) (u : RiskProfile) :
  assessReplyInUnit (assessRoute w (id PRIMARY_ROUTE)) ->
  profileInUnit u -> profileInUnit (initialPrimary w u).
Proof.
  intros Hw Hu. unfold initialPrimary.
  destruct (assessRoute w (id PRIMARY_ROUTE)) as [resp|];
    [destruct (okAssessment resp) as [a|] eqn:Ha|];
    try (apply profileInUnit_insert; [apply entryInUnit_primaryFallback | done]).
  specialize (Hw resp a eq_refl Ha). assessment_scores a Hw.
  apply profileInUnit_insert; [|done].
  apply entryInUnit_entry; apply inUnit_max; try unit_const;
    try (apply inUnit_factorOr; [done | done | unit_const]).
  apply inUnit_orNum; [done | unit_const].
Qed.

Lemma initialAlternative_inUnit (w : AssessWorld) (u : RiskProfile) (route : Route) :
  In route ALTERNATIVE_ROUTES ->
  assessReplyInUnit (assessRoute w (id route)) ->
  profileInUnit u -> profileInUnit (initialAlternative w u route).
Proof.
  intros Hin Hw Hu. unfold initialAlternative.
  pose proof (indexOfAlternative_range route Hin) as Hidx.
  destruct (assessRoute w (id route)) as [resp|];
    [destruct (okAssessment resp) as [a|] eqn:Ha|];
    try (apply profileInUnit_insert; [by apply entryInUnit_alternativeFallback | done]).
  specialize (Hw resp a eq_refl Ha). assessment_scores a Hw.
  apply profileInUnit_insert; [|done].
  apply entryInUnit_entry.
  - unfold initialFinalRisk. apply inUnit_clamp; by vm_compute.
  - apply inUnit_max; [unit_const|].
    apply inUnit_factorOr; [done | done |]. apply inUnit_default; try done; by vm_compute.
  - apply inUnit_max; [unit_const|].
    apply inUnit_factorOr; [done | done |]. apply inUnit_default; try done; by vm_compute.
  - apply inUnit_max; [unit_const|].
    apply inUnit_factorOr; [done | done |]. apply inUnit_default; try done; by vm_compute.
Qed.

Lemma ensureRoute_inUnit (u : RiskProfile) (route : Route) :
  In route allRoutes -> profileInUnit u -> profileInUnit (ensureRoute u route).
Proof.
  intros Hin Hu. unfold ensureRoute.
  destruct (u !! id route); [done|].
  apply profileInUnit_insert; [|done].
  destruct Hin as [<-|Hin]; [apply entryInUnit_primaryFallback|].
  destruct (String.eqb _ _); [apply entryInUnit_primaryFallback|].
  apply entryInUnit_alternativeFallback. by apply indexOfAlternative_range.
Qed.

Lemma initialRiskDefaults_inUnit : profileInUnit initialRiskDefaults.
Proof.
  unfold initialRiskDefaults. apply fold_left_profileInUnit; [|apply profileInUnit_empty].
  intros u route Hin Hu.
  destruct Hin as [<-|Hin]; simpl;
    [apply profileInUnit_insert; [apply entryInUnit_primaryFallback | done]|].
  destruct (String.eqb _ _);
    (apply profileInUnit_insert; [|done]);
    [apply entryInUnit_primaryFallback|].
  apply entryInUnit_alternativeFallback. by apply indexOfAlternative_range.
Qed.

Lemma mockRisk_inUnit : profileInUnit mockRisk.
Proof.
  unfold mockRisk. apply fold_left_profileInUnit; [|apply profileInUnit_empty].
  intros u route _ Hu. apply profileInUnit_insert; [|done].
  apply entryInUnit_entry; unit_const.
Qed.

Lemma Forall_singleton_set (P : RiskProfile -> Prop) (rp : RiskProfile) :
  Forall P (storedProfiles [SetRiskProfile rp]) <-> P rp.
Proof. change (storedProfiles [SetRiskProfile rp]) with [rp]. apply Forall_singleton. Qed.

Lemma fetchInitialData_inUnit (w : AssessWorld) :
  (forall routeId, assessReplyInUnit (assessRoute w routeId)) ->
  Forall profileInUnit (storedProfiles (fetchInitialData w)).
Proof.
  intros Hw. unfold fetchInitialData.
  destruct (getApiHealth w); rewrite Forall_singleton_set.
  - apply fold_left_profileInUnit; [intros; by apply ensureRoute_inUnit|].
    apply fold_left_profileInUnit; [intros; by apply initialAlternative_inUnit|].
    apply initialPrimary_inUnit; [done | apply profileInUnit_empty].
  - apply mockRisk_inUnit.
Qed.

End RangeInvariant.

Section RangeHandlers.
Import DashboardPage.

Lemma storedProfiles_app (a b : list SetCall) :
  storedProfiles (a ++ b) = storedProfiles a ++ storedProfiles b.
Proof. apply omap_app. Qed.

Lemma default_last_cons {A} (x y : A) (l : list A) :
  default x (last (y :: l)) = default y (last l).
Proof.
  revert x y. induction l as [|z l IH]; intros x y; [done|].
  change (last (y :: z :: l)) with (last (z :: l)). by rewrite !(IH _ z).
Qed.

(** The risk profile after a handler is the last profile it stored, or the
    captured one when it stored none. *)
Lemma applyCalls_riskProfile (calls : list SetCall) :
  forall s, riskProfile (applyCalls s calls)
            = default (riskProfile s) (last (storedProfiles calls)).
Proof.
  unfold applyCalls. induction calls as [|c calls IH]; intros s; [done|].
  simpl fold_left. rewrite IH.
  destruct c; try done.
  change (storedProfiles (SetRiskProfile rp :: calls)) with (rp :: storedProfiles calls).
  by rewrite default_last_cons.
Qed.

Lemma applyCalls_inUnit (s : State) (calls : list SetCall) :
  profileInUnit (riskProfile s) ->
  Forall profileInUnit (storedProfiles calls) ->
  profileInUnit (riskProfile (applyCalls s calls)).
Proof.
  intros Hs Hall. rewrite applyCalls_riskProfile.
  destruct (last (storedProfiles calls)) as [rp|] eqn:Hl; [|done].
  simpl. rewrite Forall_forall in Hall. apply Hall.
  rewrite last_lookup in Hl. by eapply list_elem_of_lookup_2.
Qed.

Lemma pollPrimary_inUnit (w : AssessWorld) (u : RiskProfile) :
  assessReplyInUnit (assessRoute w (id PRIMARY_ROUTE)) ->
  profileInUnit u -> profileInUnit (pollPrimary w u).
Proof.
  intros Hw Hu. unfold pollPrimary.
  destruct (assessRoute w (id PRIMARY_ROUTE)) as [resp|]; [|done].
  destruct (okAssessment resp) as [a|] eqn:Ha; [|done].
  specialize (Hw resp a eq_refl Ha). assessment_scores a Hw.
  apply profileInUnit_insert; [|done].
  apply entryInUnit_entry;
    try (apply inUnit_factorOr; [done | done | unit_const]).
  apply inUnit_orNum; [done | unit_const].
Qed.

Lemma pollAlternative_inUnit (w : AssessWorld) (u : RiskProfile) (route : Route) :
  In route ALTERNATIVE_ROUTES ->
  assessReplyInUnit (assessRoute w (id route)) ->
  profileInUnit u -> profileInUnit (pollAlternative w u route).
Proof.
  intros Hin Hw Hu. unfold pollAlternative.
  pose proof (indexOfAlternative_range route Hin) as Hidx.
  destruct (assessRoute w (id route)) as [resp|]; [|done].
  destruct (okAssessment resp) as [a|] eqn:Ha; [|done].
  specialize (Hw resp a eq_refl Ha). assessment_scores a Hw.
  apply profileInUnit_insert; [|done].
  apply entryInUnit_entry.
  - unfold pollFinalRisk. apply inUnit_clamp; by vm_compute.
  - apply inUnit_factorOr; [done | done |]. apply inUnit_default; try done; by vm_compute.
  - apply inUnit_factorOr; [done | done |]. apply inUnit_default; try done; by vm_compute.
  - apply inUnit_factorOr; [done | done |]. apply inUnit_default; try done; by vm_compute.
Qed.

Lemma pollTick_inUnit (s : State) (w : AssessWorld) :
  (forall routeId, assessReplyInUnit (assessRoute w routeId)) ->
  profileInUnit (riskProfile s) ->
  Forall profileInUnit (storedProfiles (pollTick s w)).
Proof.
  intros Hw Hs. unfold pollTick.
  destruct (getAllRiskData w); [|constructor].
  rewrite Forall_singleton_set.
  apply fold_left_profileInUnit; [intros; by apply pollAlternative_inUnit|].
  by apply pollPrimary_inUnit.
Qed.

Lemma assessPrimaryRisk_inUnit (rp : RiskProfile) reply :
  assessReplyInUnit reply -> profileInUnit rp ->
  Forall profileInUnit (storedProfiles (assessPrimaryRisk rp reply)).
Proof.
  intros Hw Hrp. unfold assessPrimaryRisk.
  destruct reply as [resp|].
  - destruct (okAssessment resp) as [a|] eqn:Ha; [|constructor].
    specialize (Hw resp a eq_refl Ha). assessment_scores a Hw.
    rewrite Forall_singleton_set.
    apply profileInUnit_insert; [|done].
    apply entryInUnit_entry;
      try (apply inUnit_factorOr; [done | done | unit_const]).
    apply inUnit_orNum; [done | unit_const].
  - rewrite Forall_singleton_set.
    apply profileInUnit_insert; [|done]. apply entryInUnit_entry; unit_const.
Qed.

Lemma optimizedEntry_inUnit (route : OptimizedRoute) (index : nat) (rnd : Q) :
  (index <= 16)%nat ->
  (forall ra, risk_assessment route = Some ra ->
     factorsInUnit (assessment_factors ra) /\ breakdownInUnit (assessment_breakdown ra)) ->
  entryInUnit (optimizedEntry route index rnd).
Proof.
  intros Hidx Hra. unfold optimizedEntry.
  assert (Hi : (0 <= Z.of_nat index <= 16)%Z) by lia.
  assert (Hs : scoreInUnit ((risk_assessment route ≫= assessment_factors) ≫= fac_congestion)
               /\ scoreInUnit ((risk_assessment route ≫= assessment_factors) ≫= fac_tariffs)
               /\ scoreInUnit ((risk_assessment route ≫= assessment_factors)
                                 ≫= fac_political_unrest)
               /\ scoreInUnit ((risk_assessment route ≫= assessment_breakdown)
                                 ≫= port_congestion)
               /\ scoreInUnit ((risk_assessment route ≫= assessment_breakdown) ≫= trade_news)
               /\ scoreInUnit ((risk_assessment route ≫= assessment_breakdown) ≫= political)).
  { destruct (risk_assessment route) as [ra|].
    - destruct (Hra ra eq_refl) as [Hf Hb].
      destruct (scoreInUnit_factors _ Hf) as (? & ? & ?).
      destruct (scoreInUnit_breakdown _ Hb) as (? & ? & ?). tauto.
    - pose proof scoreInUnit_None. tauto. }
  destruct Hs as (Hfc & Hft & Hfu & Hbc & Hbt & Hbu).
  apply entryInUnit_entry.
  - apply inUnit_clamp; by vm_compute.
  - apply inUnit_orNum; [by apply scoreInUnit_orNumOpt|].
    apply inUnit_affine with 16%Z; try done; by vm_compute.
  - apply inUnit_orNum; [by apply scoreInUnit_orNumOpt|].
    apply inUnit_affine with 16%Z; try done; by vm_compute.
  - apply inUnit_orNum; [by apply scoreInUnit_orNumOpt|].
    apply inUnit_affine with 16%Z; try done; by vm_compute.
Qed.

Lemma optimizedLoop_inUnit (rnd : nat -> Q) (routes : list OptimizedRoute) :
  forall (index : nat) (u : RiskProfile),
    (index + length routes <= 17)%nat ->
    (forall route ra, In route routes -> risk_assessment route = Some ra ->
       factorsInUnit (assessment_factors ra) /\ breakdownInUnit (assessment_breakdown ra)) ->
    profileInUnit u -> profileInUnit (optimizedLoop rnd routes index u).
Proof.
  induction routes as [|route routes IH]; intros index u Hlen Hra Hu; [done|].
  simpl in Hlen. simpl optimizedLoop. apply IH; [lia | |].
  - intros r ra Hin. apply Hra. by right.
  - destruct (assign_cases (optimizedRouteId route index)
                (optimizedEntry route index (rnd index)) u) as [[_ ->]|[_ ->]]; [done|].
    apply profileInUnit_insert; [|done].
    apply optimizedEntry_inUnit; [lia|]. intros ra. apply Hra. by left.
Qed.

Lemma raisePrimary_inUnit (u : RiskProfile) :
  profileInUnit u -> profileInUnit (raisePrimary u).
Proof.
  intros Hu. unfold raisePrimary.
  destruct (u !! id PRIMARY_ROUTE) as [e|] eqn:He; [|done].
  destruct (Hu _ _ He) as (Ho & Hc & Ht & Hun).
  apply profileInUnit_insert; [|done].
  split; [|done]. simpl. apply inUnit_max; [unit_const | done].
Qed.

Lemma optimizeFallback_inUnit (rp : RiskProfile) :
  profileInUnit rp -> profileInUnit (optimizeFallback rp).
Proof.
  intros Hrp. unfold optimizeFallback. simpl.
  do 2 (apply profileInUnit_insert; [apply entryInUnit_entry; unit_const|]). done.
Qed.

Lemma optimizeRoutes_inUnit (rp : RiskProfile) reply (rnd : nat -> Q) :
  optimizeReplyInUnit reply -> profileInUnit rp ->
  Forall profileInUnit (storedProfiles (optimizeRoutes rp reply rnd)).
Proof.
  intros Hw Hrp. unfold optimizeRoutes.
  destruct reply as [resp|];
    [|rewrite Forall_singleton_set; by apply optimizeFallback_inUnit].
  destruct (resp ≫= _) as [routes|] eqn:Hroutes;
    [|rewrite Forall_singleton_set; by apply optimizeFallback_inUnit].
  destruct resp as [r|]; [|done]. simpl in Hroutes.
  destruct (opt_success r); [|done].
  destruct (Hw r routes eq_refl Hroutes) as [Hlen Hra].
  assert (Hin : profileInUnit (raisePrimary (optimizedLoop rnd routes 0 rp))).
  { apply raisePrimary_inUnit. apply optimizedLoop_inUnit; [simpl; lia | done | done]. }
  destruct (Js.truthyStr _).
  - change (storedProfiles (SetRiskProfile ?x :: [SetAiAnalysis ?y])) with [x].
    by apply Forall_singleton.
  - by rewrite Forall_singleton_set.
Qed.

Lemma askAgent_stores_nothing (ai : string) reply agent :
  storedProfiles (askAgent ai reply agent) = [].
Proof. unfold askAgent. destruct (_ || _); [destruct agent|]; done. Qed.

Lemma reroute_stores_nothing (rp : RiskProfile) (active : string) :
  storedProfiles (reroute rp active) = [].
Proof. unfold reroute. destruct (bestAlternative rp); [destruct (negb _)|]; done. Qed.

Lemma triggerDisruption_inUnit (s : State) (w : DisruptionWorld) :
  assessReplyInUnit (assessPrimary w) ->
  optimizeReplyInUnit (optimizeRoute w) ->
  profileInUnit (riskProfile s) ->
  Forall profileInUnit (storedProfiles (triggerDisruption s w)).
Proof.
  intros Hp Ho Hs. unfold triggerDisruption.
  rewrite !storedProfiles_app, askAgent_stores_nothing, reroute_stores_nothing.
  change (storedProfiles [SetIsDisruptionTriggered true; SetCurrentDisruptionEvent _])
    with (@nil RiskProfile).
  rewrite app_nil_l, !app_nil_r. apply Forall_app. split.
  - by apply assessPrimaryRisk_inUnit.
  - by apply optimizeRoutes_inUnit.
Qed.

Lemma disruptionErrorFallback_inUnit (rp : RiskProfile) :
  profileInUnit rp -> profileInUnit (Handlers.disruptionErrorFallback rp).
Proof.
  intros Hrp. unfold Handlers.disruptionErrorFallback. simpl.
  do 2 (apply profileInUnit_insert; [apply entryInUnit_entry; unit_const|]). done.
Qed.

End RangeHandlers.

(** C3, as stated, fails: the dashboard stores backend scores without an
    upper clamp.  When the backend reports an overall score of [1.5] for the
    primary route, the initial assessment stores [1.5]; and when the
    optimizer lists eighteen routes without factor scores, the disruption
    handler stores the default congestion [0.2 + 17 * 0.05 = 1.05]. *)
Lemma stored_risk_exceeds_one :
  (exists rp e,
      rp ∈ DashboardPage.storedProfiles
             (Handlers.calls (Handlers.mounted None)
                (Handlers.FetchInitialData (Scenario.reporting 1.5)))
      /\ rp !! id PRIMARY_ROUTE = Some e
      /\ overall e = 1.5
      /\ ~ inUnit (overall e)
      /\ ~ profileInUnit rp)
  /\ (exists rp e,
         rp ∈ DashboardPage.storedProfiles
                (Handlers.calls Scenario.loadedHealthy
                   (Handlers.TriggerDisruption Scenario.eighteenRoutes))
         /\ rp !! id PRIMARY_ROUTE = Some e
         /\ congestion (factors e) == 1.05
         /\ ~ inUnit (congestion (factors e))
         /\ ~ profileInUnit rp).
Proof.
  split.
  - set (calls := Handlers.calls _ _).
    assert (Hcalls : exists rp, calls = [DashboardPage.SetRiskProfile rp]
                                /\ overall <$> rp !! id PRIMARY_ROUTE = Some 1.5).
    { eexists. split; [reflexivity|]. by vm_compute. }
    destruct Hcalls as (rp & -> & Hov).
    destruct (rp !! id PRIMARY_ROUTE) as [e|] eqn:He; [|done].
    injection Hov as Hov.
    assert (Hnot : ~ inUnit (overall e)).
    { rewrite Hov. intros [_ H]. by vm_compute in H. }
    exists rp, e. split; [apply list_elem_of_here|].
    split; [done|]. split; [done|]. split; [done|].
    intros Hall. apply Hnot. exact (proj1 (Hall _ _ He)).
  - set (calls := Handlers.calls _ _).
    assert (Hcalls : exists rp0 rp,
               DashboardPage.storedProfiles calls = [rp0; rp]
               /\ (congestion ∘ factors) <$> rp !! id PRIMARY_ROUTE
                  = Some (0.2 + inject_Z 17 * 0.05)).
    { eexists. eexists. split; [reflexivity|]. by vm_compute. }
    destruct Hcalls as (rp0 & rp & -> & Hc).
    destruct (rp !! id PRIMARY_ROUTE) as [e|] eqn:He; [|done].
    injection Hc as Hc. simpl in Hc.
    assert (Hnot : ~ inUnit (congestion (factors e))).
    { rewrite Hc. intros [_ H]. by vm_compute in H. }
    exists rp, e. split; [apply list_elem_of_further, list_elem_of_here|].
    split; [done|]. split; [by rewrite Hc|]. split; [done|].
    intros Hall. apply Hnot. exact (proj1 (proj2 (Hall _ _ He))).
Qed.

(** C3, amended.  Provided every score reported by the backend lies in
    [[0, 1]] and the optimizer lists at most 17 routes, a handler (initial
    assessment, polling refresh, disruption handler) that captured a risk
    profile with values in [[0, 1]] only stores risk profiles whose overall
    and factor scores lie in [[0, 1]], and leaves such a profile behind; the
    fallback profiles satisfy the same bounds. *)
Theorem stored_risk_in_unit_interval (s : DashboardPage.State) (h : Handlers.Handler) :
  profileInUnit (DashboardPage.riskProfile s) ->
  backendInUnit h ->
  Forall profileInUnit (DashboardPage.storedProfiles (Handlers.calls s h))
  /\ profileInUnit (DashboardPage.riskProfile (Handlers.run s h))
  /\ profileInUnit DashboardPage.mockRisk
  /\ profileInUnit DashboardPage.initialRiskDefaults
  /\ profileInUnit (Handlers.disruptionErrorFallback (DashboardPage.riskProfile s)).
Proof.
  intros Hs Hw.
  assert (Hcalls : Forall profileInUnit (DashboardPage.storedProfiles (Handlers.calls s h))).
  { destruct h as [w|w|w]; simpl in *.
    - by apply fetchInitialData_inUnit.
    - by apply pollTick_inUnit.
    - destruct Hw. by apply triggerDisruption_inUnit. }
  split; [exact Hcalls|]. split; [by apply applyCalls_inUnit|].
  split; [apply mockRisk_inUnit|]. split; [apply initialRiskDefaults_inUnit|].
  by apply disruptionErrorFallback_inUnit.
Qed.

Lemma stored_risk_in_unit_interval_witness :
  let s := Handlers.mounted None in
  let h := Handlers.FetchInitialData (Scenario.reporting 0.4) in
  Forall profileInUnit (DashboardPage.storedProfiles (Handlers.calls s h))
  /\ profileInUnit (DashboardPage.riskProfile (Handlers.run s h))
  /\ profileInUnit DashboardPage.mockRisk
  /\ profileInUnit DashboardPage.initialRiskDefaults
  /\ profileInUnit (Handlers.disruptionErrorFallback (DashboardPage.riskProfile s)).
Proof.
  apply stored_risk_in_unit_interval.
  - apply profileInUnit_empty.
  - intros routeId resp a [= <-] [= <-]. split; [|split].
    + intros x [= <-]. split; by vm_compute.
    + intros x Hx. discriminate Hx.
    + intros x Hx. discriminate Hx.
Defined.

(** ** Sorting by risk *)

Section SortByKey.
Context {A : Type} (key : A -> Q).

Lemma sortInsert_Permutation (x : A) (l : list A) :
  Permutation (Js.sortInsert (fun a b => key a - key b) x l) (x :: l).
Proof.
  induction l as [|y l IH]; simpl; [done|].
  destruct (Qle_bool _ _); [done|].
  rewrite IH. apply perm_swap.
Qed.

Lemma sort_Permutation (l : list A) :
  Permutation (Js.sort (fun a b => key a - key b) l) l.
Proof.
  unfold Js.sort. induction l as [|x l IH]; simpl; [done|].
  rewrite sortInsert_Permutation. by constructor.
Qed.

Lemma sortInsert_sorted (x : A) (l : list A) :
  StronglySorted (fun a b => key a <= key b) l ->
  StronglySorted (fun a b => key a <= key b) (Js.sortInsert (fun a b => key a - key b) x l).
Proof.
  induction 1 as [|y l Hsorted IH Hall]; simpl.
  - repeat constructor.
  - destruct (Qle_bool (key x - key y) 0) eqn:Hcmp.
    + apply Qle_bool_iff in Hcmp.
      assert (Hxy : key x <= key y) by lra.
      constructor; [by constructor|].
      constructor; [done|].
      eapply Forall_impl; [exact Hall|]. simpl. intros z Hz. lra.
    + assert (Hyx : key y <= key x).
      { destruct (Qlt_le_dec (key x) (key y)) as [Hlt|Hle]; [|done].
        assert (Hle : key x - key y <= 0) by lra.
        apply Qle_bool_iff in Hle. congruence. }
      constructor; [done|].
      rewrite sortInsert_Permutation. by constructor.
Qed.

Lemma sort_sorted (l : list A) :
  StronglySorted (fun a b => key a <= key b) (Js.sort (fun a b => key a - key b) l).
Proof.
  unfold Js.sort. induction l as [|x l IH]; simpl; [constructor|].
  by apply sortInsert_sorted.
Qed.

(** In a sorted list, the first element satisfying [p] has the least key
    among the elements satisfying [p]. *)
Lemma find_sorted_least (p : A -> bool) (l : list A) (b : A) :
  StronglySorted (fun a b => key a <= key b) l ->
  List.find p l = Some b ->
  forall x, In x l -> p x = true -> key b <= key x.
Proof.
  induction 1 as [|y l Hsorted IH Hall]; simpl; [done|].
  destruct (p y) eqn:Hy.
  - intros [= <-] x [<-|Hin] _; [lra|].
    rewrite Forall_forall in Hall. apply Hall. by apply list_elem_of_In.
  - intros Hb x [<-|Hin] Hx; [congruence|]. by apply IH.
Qed.

End SortByKey.

(** ** [triggerDisruption]: the route made active *)

Section Reroute.
Import DashboardPage.

Lemma routeRisk_unrecorded (rp : RiskProfile) (r : Route) :
  rp !! id r = None -> routeRisk rp r = 1.0.
Proof. intros H. unfold routeRisk. by rewrite H. Qed.

Lemma routeRisk_recorded (rp : RiskProfile) (r : Route) (e : RiskEntry) :
  rp !! id r = Some e -> ~ overall e == 0 -> routeRisk rp r = overall e.
Proof.
  intros H Hnz. unfold routeRisk. rewrite H. simpl.
  destruct (Qeq_bool (overall e) 0) eqn:E; [|done].
  apply Qeq_bool_iff in E. contradiction.
Qed.

Lemma routeRisks_Permutation (rp : RiskProfile) :
  Permutation (routeRisks rp)
    (map (fun r => {| route := r; risk := routeRisk rp r |}) allRoutes).
Proof. apply (sort_Permutation risk). Qed.

Lemma routeRisks_In (rp : RiskProfile) (x : RouteRisk) :
  In x (routeRisks rp) <-> In (route x) allRoutes /\ risk x = routeRisk rp (route x).
Proof.
  rewrite <- !list_elem_of_In, (routeRisks_Permutation rp), !list_elem_of_In, in_map_iff.
  split.
  - intros (r & <- & Hr). done.
  - intros [Hr Hx]. exists (route x). split; [|done]. destruct x. simpl in *. by subst.
Qed.

Lemma applyCalls_app (s : State) (a b : list SetCall) :
  applyCalls s (a ++ b) = applyCalls (applyCalls s a) b.
Proof. apply fold_left_app. Qed.

Lemma applyCalls_keepsActiveRoute (calls : list SetCall) :
  Forall keepsActiveRoute calls ->
  forall s, activeRouteId (applyCalls s calls) = activeRouteId s.
Proof.
  unfold applyCalls. induction 1 as [|c calls Hc _ IH]; intros s; simpl; [done|].
  rewrite IH. by destruct c.
Qed.

Lemma assessPrimaryRisk_keepsActiveRoute (rp : RiskProfile) reply :
  Forall keepsActiveRoute (assessPrimaryRisk rp reply).
Proof.
  unfold assessPrimaryRisk.
  destruct reply as [resp|]; [destruct (okAssessment resp)|]; by repeat constructor.
Qed.

Lemma optimizeRoutes_keepsActiveRoute (rp : RiskProfile) reply rnd :
  Forall keepsActiveRoute (optimizeRoutes rp reply rnd).
Proof.
  unfold optimizeRoutes.
  destruct reply as [resp|]; [destruct (resp ≫= _); [destruct (Js.truthyStr _)|]|];
    by repeat constructor.
Qed.

Lemma askAgent_keepsActiveRoute (ai : string) reply agent :
  Forall keepsActiveRoute (askAgent ai reply agent).
Proof.
  unfold askAgent. destruct (_ || _); [destruct agent|]; by repeat constructor.
Qed.

Lemma activeRouteId_reroute (s : State) (rp : RiskProfile) (best : Route) :
  bestAlternative rp = Some best ->
  activeRouteId (applyCalls s (reroute rp (activeRouteId s))) = id best.
Proof.
  intros Hb. unfold reroute. rewrite Hb.
  destruct (String.eqb_spec (id best) (activeRouteId s)) as [Heq|Hne]; simpl; done.
Qed.

Lemma activeRouteId_triggerDisruption (s : State) (w : DisruptionWorld) (best : Route) :
  bestAlternative (riskProfile s) = Some best ->
  activeRouteId (applyCalls s (triggerDisruption s w)) = id best.
Proof.
  intros Hb. unfold triggerDisruption.
  rewrite !app_assoc, applyCalls_app.
  set (s1 := applyCalls s _).
  assert (H1 : activeRouteId s1 = activeRouteId s).
  { subst s1. apply applyCalls_keepsActiveRoute.
    repeat (apply Forall_app; split);
      auto using assessPrimaryRisk_keepsActiveRoute, optimizeRoutes_keepsActiveRoute,
                 askAgent_keepsActiveRoute.
    by repeat constructor. }
  rewrite <- H1. by apply activeRouteId_reroute.
Qed.

End Reroute.

(** *** The recorded overall risk is never zero

    [routeRisk] reads a recorded risk of [0] as [1.0].  No handler ever
    stores such an entry, whatever the backend replies: on the profiles the
    page holds, the risk value of a route is its recorded overall risk, and
    [1.0] when none is recorded. *)

Ltac nonzero_const := simpl; by vm_compute.

Section NonzeroInvariant.
Import DashboardPage.

Lemma nonzero_orNum (a : option Q) (b : Q) : ~ b == 0 -> ~ Js.orNum a b == 0.
Proof.
  intros Hb.
  destruct (orNum_cases a b) as [[_ ->]|[(x & _ & _ & ->)|(x & _ & Hx & ->)]]; done.
Qed.

Lemma nonzero_max (c x : Q) : 0 < c -> ~ Js.max c x == 0.
Proof. intros Hc H. pose proof (max_lower_l c x). lra. Qed.

Lemma nonzero_clamp (lo hi x : Q) : 0 < lo -> lo <= hi -> ~ Js.min hi (Js.max lo x) == 0.
Proof.
  intros Hlo Hhi H.
  assert (lo <= Js.min hi (Js.max lo x)) by (apply min_lower; [done | apply max_lower_l]).
  lra.
Qed.

Lemma nonzero_alternativeFallback (i : Z) :
  (0 <= i)%Z -> ~ overall (alternativeFallback i) == 0.
Proof.
  intros Hi. simpl.
  assert (H0 : 0 <= inject_Z i) by (change 0 with (inject_Z 0); by rewrite <- Zle_Qle).
  lra.
Qed.

Lemma profileNonzero_insert (u : RiskProfile) k e :
  ~ overall e == 0 -> profileNonzero u -> profileNonzero (<[k := e]> u).
Proof.
  intros He Hu k' e' Hk'.
  destruct (decide (k = k')) as [->|Hne].
  - rewrite lookup_insert_eq in Hk'. by injection Hk' as <-.
  - rewrite lookup_insert_ne in Hk' by done. by apply (Hu k').
Qed.

Lemma profileNonzero_empty : profileNonzero ∅.
Proof. intros k e H. by rewrite lookup_empty in H. Qed.

Lemma fold_left_profileNonzero {A} (f : RiskProfile -> A -> RiskProfile) (l : list A) :
  (forall u x, In x l -> profileNonzero u -> profileNonzero (f u x)) ->
  forall u, profileNonzero u -> profileNonzero (fold_left f l u).
Proof.
  induction l as [|x l IH]; intros Hf u Hu; simpl; [done|].
  apply IH.
  - intros u' y Hy. apply Hf. by right.
  - apply Hf; [by left | done].
Qed.

Lemma fetchInitialData_nonzero (w : AssessWorld) :
  Forall profileNonzero (storedProfiles (fetchInitialData w)).
Proof.
  unfold fetchInitialData. destruct (getApiHealth w); rewrite Forall_singleton_set.
  - apply fold_left_profileNonzero.
    { intros u route Hin Hu. unfold ensureRoute.
      destruct (u !! id route); [done|]. apply profileNonzero_insert; [|done].
      destruct Hin as [<-|Hin]; [nonzero_const|].
      destruct (String.eqb _ _); [nonzero_const|].
      apply nonzero_alternativeFallback. by apply indexOfAlternative_range. }
    apply fold_left_profileNonzero.
    { intros u route Hin Hu. unfold initialAlternative.
      pose proof (indexOfAlternative_range route Hin) as [Hidx _].
      destruct (assessRoute w (id route)) as [resp|]; [destruct (okAssessment resp)|];
        (apply profileNonzero_insert; [|done]);
        try by apply nonzero_alternativeFallback.
      apply nonzero_clamp; by vm_compute. }
    unfold initialPrimary.
    destruct (assessRoute w (id PRIMARY_ROUTE)) as [resp|]; [destruct (okAssessment resp)|];
      (apply profileNonzero_insert; [|apply profileNonzero_empty]);
      try nonzero_const.
    apply nonzero_max. reflexivity.
  - unfold mockRisk. apply fold_left_profileNonzero; [|apply profileNonzero_empty].
    intros u route _ Hu. apply profileNonzero_insert; [nonzero_const | done].
Qed.

Lemma pollTick_nonzero (s : State) (w : AssessWorld) :
  profileNonzero (riskProfile s) ->
  Forall profileNonzero (storedProfiles (pollTick s w)).
Proof.
  intros Hs. unfold pollTick. destruct (getAllRiskData w); [|constructor].
  rewrite Forall_singleton_set. apply fold_left_profileNonzero.
  { intros u route _ Hu. unfold pollAlternative.
    destruct (assessRoute w (id route)) as [resp|]; [|done].
    destruct (okAssessment resp); [|done].
    apply profileNonzero_insert; [|done]. apply nonzero_clamp; by vm_compute. }
  unfold pollPrimary.
  destruct (assessRoute w (id PRIMARY_ROUTE)) as [resp|]; [|done].
  destruct (okAssessment resp); [|done].
  apply profileNonzero_insert; [|done]. apply nonzero_orNum. by vm_compute.
Qed.

Lemma optimizedLoop_nonzero (rnd : nat -> Q) (routes : list OptimizedRoute) :
  forall index (u : RiskProfile),
    profileNonzero u -> profileNonzero (optimizedLoop rnd routes index u).
Proof.
  induction routes as [|r routes IH]; intros index u Hu; [done|].
  simpl. apply IH.
  destruct (assign_cases (optimizedRouteId r index)
              (optimizedEntry r index (rnd index)) u) as [[_ ->]|[_ ->]]; [done|].
  apply profileNonzero_insert; [|done].
  apply nonzero_clamp; by vm_compute.
Qed.

Lemma triggerDisruption_nonzero (s : State) (w : DisruptionWorld) :
  profileNonzero (riskProfile s) ->
  Forall profileNonzero (storedProfiles (triggerDisruption s w)).
Proof.
  intros Hs. unfold triggerDisruption.
  rewrite !storedProfiles_app, askAgent_stores_nothing, reroute_stores_nothing.
  rewrite !app_nil_r. apply Forall_app. split; [constructor|]. apply Forall_app. split.
  - unfold assessPrimaryRisk.
    destruct (assessPrimary w) as [resp|]; [destruct (okAssessment resp); [|constructor]|];
      rewrite Forall_singleton_set; (apply profileNonzero_insert; [|done]).
    + apply nonzero_orNum. by vm_compute.
    + nonzero_const.
  - assert (Hfallback : profileNonzero (optimizeFallback (riskProfile s))).
    { unfold optimizeFallback. simpl.
      do 2 (apply profileNonzero_insert; [nonzero_const|]). done. }
    unfold optimizeRoutes.
    destruct (optimizeRoute w) as [resp|]; [|by rewrite Forall_singleton_set].
    destruct (resp ≫= _) as [routes|]; [|by rewrite Forall_singleton_set].
    assert (Hraised : profileNonzero
              (raisePrimary (optimizedLoop (routeRandom w) routes 0 (riskProfile s)))).
    { unfold raisePrimary. set (u := optimizedLoop _ _ _ _).
      assert (Hu : profileNonzero u) by by apply optimizedLoop_nonzero.
      destruct (u !! id PRIMARY_ROUTE); [|done].
      apply profileNonzero_insert; [|done]. simpl. apply nonzero_max. reflexivity. }
    destruct (Js.truthyStr _).
    + change (storedProfiles (SetRiskProfile ?x :: [SetAiAnalysis ?y])) with [x].
      by apply Forall_singleton.
    + by rewrite Forall_singleton_set.
Qed.

(** Every profile a handler stores, and the profile it leaves, is free of
    zero risks, provided the captured one is; the profile of a freshly
    mounted page is empty. *)
Lemma handlers_store_nonzero (s : State) (h : Handlers.Handler) :
  profileNonzero (riskProfile s) ->
  Forall profileNonzero (storedProfiles (Handlers.calls s h))
  /\ profileNonzero (riskProfile (Handlers.run s h)).
Proof.
  intros Hs.
  assert (Hcalls : Forall profileNonzero (storedProfiles (Handlers.calls s h))).
  { destruct h as [w|w|w]; simpl.
    - apply fetchInitialData_nonzero.
    - by apply pollTick_nonzero.
    - by apply triggerDisruption_nonzero. }
  split; [done|]. unfold Handlers.run. rewrite applyCalls_riskProfile.
  destruct (last _) as [rp|] eqn:Hl; [|done].
  simpl. rewrite Forall_forall in Hcalls. apply Hcalls.
  rewrite last_lookup in Hl. by eapply list_elem_of_lookup_2.
Qed.

Lemma routeRisk_held (rp : RiskProfile) (r : Route) :
  profileNonzero rp ->
  routeRisk rp r = match rp !! id r with Some e => overall e | None => 1.0 end.
Proof.
  intros Hrp. destruct (rp !! id r) as [e|] eqn:He.
  - apply (routeRisk_recorded _ _ _ He). by apply (Hrp (id r)).
  - by apply routeRisk_unrecorded.
Qed.

End NonzeroInvariant.

(** C1. For every risk profile captured by the disruption handler,
    [triggerDisruption] orders the five routes (the primary and the four
    alternatives) by ascending risk value, where the risk value of a route is
    its recorded overall risk and [1.0] when none is recorded, and the route
    that is active afterwards is the first one in that order that is not the
    primary route: an alternative route whose risk value is the lowest among
    the alternatives. *)
Theorem triggerDisruption_activates_lowest_risk_alternative
    (s : DashboardPage.State) (w : DashboardPage.DisruptionWorld) :
  let rp := DashboardPage.riskProfile s in
  let value := DashboardPage.routeRisk rp in
  let sorted := DashboardPage.routeRisks rp in
  Permutation sorted
    (map (fun r => {| DashboardPage.route := r; DashboardPage.risk := value r |})
         (PRIMARY_ROUTE :: ALTERNATIVE_ROUTES))
  /\ StronglySorted (fun a b => DashboardPage.risk a <= DashboardPage.risk b) sorted
  /\ (forall r, rp !! id r = None -> value r = 1.0)
  /\ (forall r e, rp !! id r = Some e -> ~ overall e == 0 -> value r = overall e)
  /\ exists best,
      List.find isAlternative sorted = Some best
      /\ DashboardPage.activeRouteId
           (DashboardPage.applyCalls s (DashboardPage.triggerDisruption s w))
         = id (DashboardPage.route best)
      /\ In (DashboardPage.route best) ALTERNATIVE_ROUTES
      /\ DashboardPage.activeRoute
           (DashboardPage.activeRouteId
              (DashboardPage.applyCalls s (DashboardPage.triggerDisruption s w)))
         = DashboardPage.route best
      /\ DashboardPage.risk best = value (DashboardPage.route best)
      /\ forall alt, In alt ALTERNATIVE_ROUTES ->
                     value (DashboardPage.route best) <= value alt.
Proof.
  intros rp value sorted.
  assert (Hsorted : StronglySorted
            (fun a b => DashboardPage.risk a <= DashboardPage.risk b) sorted)
    by apply (sort_sorted DashboardPage.risk).
  assert (Halt : forall alt, In alt ALTERNATIVE_ROUTES ->
            In {| DashboardPage.route := alt; DashboardPage.risk := value alt |} sorted
            /\ isAlternative
                 {| DashboardPage.route := alt; DashboardPage.risk := value alt |} = true).
  { intros alt Hin. split.
    - apply routeRisks_In. split; [by right | done].
    - simpl in Hin. destruct Hin as [<-|[<-|[<-|[<-|[]]]]]; reflexivity. }
  split; [apply routeRisks_Permutation|]. split; [exact Hsorted|].
  split; [apply routeRisk_unrecorded|]. split; [apply routeRisk_recorded|].
  destruct (List.find isAlternative sorted) as [best|] eqn:Hfind.
  - exists best. split; [done|].
    pose proof (find_some _ _ Hfind) as [Hin Hp].
    apply routeRisks_In in Hin as [Hroute Hrisk].
    assert (Hactive : DashboardPage.activeRouteId
                        (DashboardPage.applyCalls s (DashboardPage.triggerDisruption s w))
                      = id (DashboardPage.route best)).
    { apply activeRouteId_triggerDisruption.
      unfold DashboardPage.bestAlternative, Js.find.
      fold rp. fold sorted. change (fun r => negb _) with isAlternative.
      by rewrite Hfind. }
    assert (Hbest : In (DashboardPage.route best) ALTERNATIVE_ROUTES).
    { destruct Hroute as [Hprim|Hroute]; [|done].
      unfold isAlternative in Hp. rewrite <- Hprim in Hp. discriminate Hp. }
    split; [exact Hactive|]. split; [exact Hbest|].
    split.
    { rewrite Hactive. simpl in Hbest.
      destruct Hbest as [<-|[<-|[<-|[<-|[]]]]]; reflexivity. }
    split; [exact Hrisk|].
    intros alt Halt'. destruct (Halt alt Halt') as [Hin Hpalt].
    change (value (DashboardPage.route best))
      with (DashboardPage.routeRisk rp (DashboardPage.route best)).
    rewrite <- Hrisk.
    exact (find_sorted_least DashboardPage.risk isAlternative sorted best Hsorted Hfind
             _ Hin Hpalt).
  - exfalso.
    destruct (Halt _ (or_introl eq_refl)) as [Hin Hp].
    pose proof (find_none _ _ Hfind _ Hin) as Hnone. congruence.
Qed.

(** ** [triggerDisruption]: the risk left on the primary route *)

Section PrimaryRisk.
Import DashboardPage.

Lemma storedProfiles_triggerDisruption (s : State) (w : DisruptionWorld) :
  storedProfiles (triggerDisruption s w)
  = storedProfiles (assessPrimaryRisk (riskProfile s) (assessPrimary w))
    ++ storedProfiles (optimizeRoutes (riskProfile s) (optimizeRoute w) (routeRandom w)).
Proof.
  unfold triggerDisruption.
  rewrite !storedProfiles_app, askAgent_stores_nothing, reroute_stores_nothing.
  by rewrite !app_nil_r.
Qed.

Lemma optimizeRoutes_failed (rp : RiskProfile) reply rnd :
  optimizeFailed reply ->
  optimizeRoutes rp reply rnd = [SetRiskProfile (optimizeFallback rp)].
Proof.
  unfold optimizeFailed, optimizeRoutes. destruct reply as [resp|]; [|done].
  by intros ->.
Qed.

(** When the optimisation fails, the profile left by the handler is the
    captured profile with the two canned alternative entries: the primary
    route keeps the entry it had when the handler started, whatever the
    primary assessment stored in between. *)
Lemma triggerDisruption_failed_optimisation (s : State) (w : DisruptionWorld) :
  optimizeFailed (optimizeRoute w) ->
  riskProfile (applyCalls s (triggerDisruption s w)) = optimizeFallback (riskProfile s)
  /\ riskProfile (applyCalls s (triggerDisruption s w)) !! id PRIMARY_ROUTE
     = riskProfile s !! id PRIMARY_ROUTE.
Proof.
  intros Hfail.
  assert (Hrp : riskProfile (applyCalls s (triggerDisruption s w))
                = optimizeFallback (riskProfile s)).
  { rewrite applyCalls_riskProfile, storedProfiles_triggerDisruption.
    rewrite (optimizeRoutes_failed _ _ _ Hfail).
    change (storedProfiles [SetRiskProfile ?x]) with [x].
    by rewrite last_snoc. }
  split; [exact Hrp|]. rewrite Hrp.
  unfold optimizeFallback. simpl. by rewrite !lookup_insert_ne.
Qed.

Lemma optimizedLoop_keeps_entry (rnd : nat -> Q) (routes : list OptimizedRoute) k :
  forall index (u : RiskProfile),
    is_Some (u !! k) -> is_Some (optimizedLoop rnd routes index u !! k).
Proof.
  induction routes as [|r routes IH]; intros index u Hu; [done|].
  simpl. apply IH. by apply assign_keeps_entry.
Qed.

(** When the optimisation succeeds and the captured profile has an entry for
    the primary route, the handler leaves the primary route at [0.75] or more. *)
Lemma triggerDisruption_successful_optimisation (s : State) (w : DisruptionWorld) r routes :
  optimizeRoute w = Resolved (Some r) ->
  opt_success r = true -> optimized_routes r = Some routes ->
  is_Some (riskProfile s !! id PRIMARY_ROUTE) ->
  exists e, riskProfile (applyCalls s (triggerDisruption s w)) !! id PRIMARY_ROUTE = Some e
            /\ 0.75 <= overall e.
Proof.
  intros Hreply Hok Hroutes Hprim.
  rewrite applyCalls_riskProfile, storedProfiles_triggerDisruption.
  unfold optimizeRoutes. rewrite Hreply. simpl. rewrite Hok, Hroutes.
  set (u := optimizedLoop _ _ _ _).
  assert (Hlast : forall l tail,
            storedProfiles tail = [] ->
            default (riskProfile s)
              (last (l ++ storedProfiles (SetRiskProfile (raisePrimary u) :: tail)))
            = raisePrimary u).
  { intros l tail Htail.
    change (storedProfiles (SetRiskProfile ?x :: tail)) with (x :: storedProfiles tail).
    by rewrite Htail, last_snoc. }
  assert (Hu : is_Some (u !! id PRIMARY_ROUTE)) by by apply optimizedLoop_keeps_entry.
  destruct Hu as [e He].
  exists {| overall := Js.max 0.75 (overall e); factors := factors e |}.
  split; [|apply max_lower_l].
  destruct (Js.truthyStr _); rewrite Hlast by done;
    unfold raisePrimary; rewrite He; by rewrite lookup_insert_eq.
Qed.

End PrimaryRisk.

Section LoadedPrimary.
Import DashboardPage.

(** The entry of the primary route once a load whose health check passed has
    finished. *)
Lemma loaded_primary_entry (event : option DisruptionEvent) (w0 : AssessWorld) :
  loadFailed w0 = false ->
  exists e,
    riskProfile (Handlers.run (Handlers.mounted event) (Handlers.FetchInitialData w0))
      !! id PRIMARY_ROUTE = Some e
    /\ overall e = match Reply.assessed w0 (id PRIMARY_ROUTE) with
                   | Some a => Js.max 0.1 (Js.orNum (overall_risk_score a) 0.1)
                   | None => 0.15
                   end.
Proof.
  intros Hload. unfold loadFailed in Hload.
  unfold Handlers.run, Handlers.calls, fetchInitialData.
  destruct (getApiHealth w0) as [[]|]; [clear Hload|done].
  change (riskProfile (applyCalls (Handlers.mounted event) [SetRiskProfile ?rp])) with rp.
  assert (Hprim : exists e, initialPrimary w0 ∅ !! id PRIMARY_ROUTE = Some e
            /\ overall e = match Reply.assessed w0 (id PRIMARY_ROUTE) with
                           | Some a => Js.max 0.1 (Js.orNum (overall_risk_score a) 0.1)
                           | None => 0.15
                           end).
  { unfold initialPrimary, Reply.assessed.
    destruct (assessRoute w0 (id PRIMARY_ROUTE)) as [resp|]; [destruct (okAssessment resp)|];
      eexists; (split; [apply lookup_insert_eq | reflexivity]). }
  destruct Hprim as (e & He & Hov). exists e. split; [|exact Hov].
  apply fold_ensureRoute_lookup_Some.
  unfold ALTERNATIVE_ROUTES. simpl fold_left.
  by rewrite !initialAlternative_lookup_ne.
Qed.

Lemma optimizeFallback_lookup_primary (rp : RiskProfile) :
  optimizeFallback rp !! id PRIMARY_ROUTE = rp !! id PRIMARY_ROUTE.
Proof. unfold optimizeFallback. simpl. by rewrite !lookup_insert_ne. Qed.

End LoadedPrimary.

(** C2 does not hold on the code.  Take a page that has loaded with the
    backend reachable, so that the dashboard and its button are shown, and a
    click during which the route optimisation fails (the call rejects or its
    reply carries no routes).  The handler first stores the primary route
    with the assessed risk, [0.78] when the assessment rejects; the failure
    branch of the optimisation then stores a copy of the profile captured by
    the callback with two canned alternative entries, which puts the primary
    route back to the entry it had after the load: [0.15], or
    [max(0.1, score)] for the score reported at load time.  Unless that
    score was [0.75] or more, the handler ends with the primary route below
    [0.75]. *)
Theorem triggerDisruption_primary_risk_overwritten
    (event : option DisruptionEvent) (w0 : DashboardPage.AssessWorld)
    (w : DashboardPage.DisruptionWorld) :
  DashboardPage.loadFailed w0 = false ->
  optimizeFailed (DashboardPage.optimizeRoute w) ->
  let s := Handlers.run (Handlers.mounted event) (Handlers.FetchInitialData w0) in
  let calls := DashboardPage.triggerDisruption s w in
  let s' := DashboardPage.applyCalls s calls in
  exists e,
    DashboardPage.riskProfile s !! id PRIMARY_ROUTE = Some e
    /\ DashboardPage.riskProfile s' !! id PRIMARY_ROUTE = Some e
    /\ (DashboardPage.assessPrimary w = Rejected ->
        map (fun rp : RiskProfile => overall <$> rp !! id PRIMARY_ROUTE)
            (DashboardPage.storedProfiles calls)
        = [Some 0.78; Some (overall e)])
    /\ overall e = match Reply.assessed w0 (id PRIMARY_ROUTE) with
                   | Some a => Js.max 0.1 (Js.orNum (overall_risk_score a) 0.1)
                   | None => 0.15
                   end
    /\ ((forall a, Reply.assessed w0 (id PRIMARY_ROUTE) = Some a ->
           Js.orNum (overall_risk_score a) 0.1 < 0.75) ->
        overall e < 0.75).
Proof.
  intros Hload Hfail s calls s'.
  destruct (loaded_primary_entry event w0 Hload) as (e & He & Hov). fold s in He.
  destruct (triggerDisruption_failed_optimisation s w Hfail) as [Hfinal Hprim].
  exists e. split; [exact He|]. split; [|split; [|split]].
  - subst s' calls. by rewrite Hprim.
  - intros Hrej. subst calls.
    rewrite storedProfiles_triggerDisruption, Hrej.
    rewrite (optimizeRoutes_failed _ _ _ Hfail).
    change (DashboardPage.storedProfiles (DashboardPage.assessPrimaryRisk ?rp Rejected))
      with [<[id PRIMARY_ROUTE := DashboardPage.entry 0.78 0.3 0.9 0.5]> rp].
    change (DashboardPage.storedProfiles [DashboardPage.SetRiskProfile ?x]) with [x].
    change (map ?f ([?a] ++ [?b])) with [f a; f b]. cbv beta.
    by rewrite lookup_insert_eq, optimizeFallback_lookup_primary, He.
  - exact Hov.
  - intros Hlow. rewrite Hov.
    destruct (Reply.assessed w0 (id PRIMARY_ROUTE)) as [a|]; [|by vm_compute].
    specialize (Hlow a eq_refl). unfold Js.max.
    apply Q.max_lub_lt; [by vm_compute | exact Hlow].
Qed.

Lemma triggerDisruption_primary_risk_overwritten_witness :
  DashboardPage.loadFailed (Scenario.reporting 0.1) = false
  /\ optimizeFailed (DashboardPage.optimizeRoute Scenario.unreachableDisruption)
  /\ exists e,
       DashboardPage.riskProfile
         (DashboardPage.applyCalls Scenario.loadedHealthy
            (DashboardPage.triggerDisruption Scenario.loadedHealthy
               Scenario.unreachableDisruption))
         !! id PRIMARY_ROUTE = Some e
       /\ map (fun rp : RiskProfile => overall <$> rp !! id PRIMARY_ROUTE)
              (DashboardPage.storedProfiles
                 (DashboardPage.triggerDisruption Scenario.loadedHealthy
                    Scenario.unreachableDisruption))
          = [Some 0.78; Some (overall e)]
       /\ overall e < 0.75.
Proof.
  split; [reflexivity|]. split; [exact I|].
  destruct (triggerDisruption_primary_risk_overwritten None (Scenario.reporting 0.1)
              Scenario.unreachableDisruption eq_refl I)
    as (e & _ & He & Hstored & _ & Hlow).
  exists e. split; [exact He|]. split; [exact (Hstored eq_refl)|].
  apply Hlow. intros a Ha. injection Ha as <-. by vm_compute.
Defined.

(** ** The polling effect *)

Section Polling.
Import PollingEffect.

Lemma effect_guard (i : Inputs) :
  effect i = if bool_decide (is_Some (userConfig i)) && isDisruptionTriggered i
             then Some 10000%Z else None.
Proof.
  unfold effect. by destruct (bool_decide _), (isDisruptionTriggered i).
Qed.

Lemma effect_period (i : Inputs) (p : Z) : effect i = Some p -> p = 10000%Z.
Proof. unfold effect. destruct (_ || _); congruence. Qed.

(** The installed interval is the one the effect set up for the inputs of
    the last render; this holds in every state reached from the unmounted
    one. *)
Lemma after_consistent (evs : list Lifecycle) :
  forall st, installed st = lastInputs st ≫= effect ->
             installed (after st evs) = lastInputs (after st evs) ≫= effect.
Proof.
  unfold after. induction evs as [|ev evs IH]; intros st Hst; simpl; [done|].
  apply IH. destruct ev as [i|]; simpl; [|done].
  by destruct (bool_decide _).
Qed.

Lemma after_snoc (st : EffectState) (evs : list Lifecycle) (ev : Lifecycle) :
  after st (evs ++ [ev]) = fst (step (after st evs) ev).
Proof. unfold after. by rewrite fold_left_app. Qed.

Lemma run_snoc (evs : list Lifecycle) (ev : Lifecycle) :
  forall st,
    run st (evs ++ [ev])
    = run st evs ++ map (fun op => (ev, op)) (snd (step (after st evs) ev)).
Proof.
  induction evs as [|e evs IH]; intros st.
  - simpl. destruct (step st ev) as [st' ops]. by rewrite app_nil_r.
  - change (run st ((e :: evs) ++ [ev]))
      with (let '(st', ops) := step st e in
            map (fun op => (e, op)) ops ++ run st' (evs ++ [ev])).
    change (run st (e :: evs))
      with (let '(st', ops) := step st e in map (fun op => (e, op)) ops ++ run st' evs).
    change (after st (e :: evs)) with (after (fst (step st e)) evs).
    destruct (step st e) as [st' ops]. by rewrite IH, app_assoc.
Qed.

Lemma live_app (ops1 ops2 : list TimerOp) : live (ops1 ++ ops2) = (live ops1 + live ops2)%Z.
Proof.
  induction ops1 as [|[callback p| |] ops1 IH]; simpl; [done| | |]; rewrite ?IH; lia.
Qed.

Lemma map_snd_tagged (ev : Lifecycle) (ops : list TimerOp) :
  map snd (map (fun op => (ev, op)) ops) = ops.
Proof. induction ops as [|op ops IH]; simpl; [done|]. by rewrite IH. Qed.

(** In a state reached from the unmounted one an interval is installed
    exactly when the page polls. *)
Lemma installed_polling (st : EffectState) :
  installed st = lastInputs st ≫= effect ->
  installed st = if polling (lastInputs st) then Some 10000%Z else None.
Proof.
  intros ->. destruct (lastInputs st) as [i|]; [|done]. simpl. apply effect_guard.
Qed.

(** The operations of one step, in terms of the inputs of the renders. *)
Lemma step_ops (st : EffectState) (ev : Lifecycle) :
  installed st = lastInputs st ≫= effect ->
  snd (step st ev)
  = match ev with
    | Commit i =>
        if bool_decide (lastInputs st = Some i) then []
        else (if polling (lastInputs st) then [ClearInterval] else [])
             ++ (if polling (Some i) then [SetInterval DashboardPage.pollTick 10000] else [])
    | Unmount => if polling (lastInputs st) then [ClearInterval] else []
    end.
Proof.
  intros Hst. apply installed_polling in Hst.
  destruct ev as [i|]; simpl.
  - destruct (bool_decide (lastInputs st = Some i)); simpl; [done|].
    rewrite Hst, effect_guard.
    change (polling (Some i))
      with (bool_decide (is_Some (userConfig i)) && isDisruptionTriggered i).
    by destruct (polling (lastInputs st)), (bool_decide _ && _).
  - rewrite Hst. by destruct (polling (lastInputs st)).
Qed.

Lemma step_lastInputs (st : EffectState) (ev : Lifecycle) :
  lastInputs (fst (step st ev))
  = match ev with Commit i => Some i | Unmount => None end.
Proof.
  destruct ev as [i|]; simpl; [|done].
  by destruct (bool_decide_reflect (lastInputs st = Some i)).
Qed.

(** Along every run from the unmounted state, one interval is live while the
    page polls and none otherwise. *)
Lemma run_live (evs : list Lifecycle) :
  live (map snd (run unmounted evs))
  = if polling (lastInputs (after unmounted evs)) then 1%Z else 0%Z.
Proof.
  induction evs as [|ev evs IH] using rev_ind; [done|].
  rewrite run_snoc, map_app, live_app, map_snd_tagged, IH, after_snoc.
  assert (Hst : installed (after unmounted evs)
                = lastInputs (after unmounted evs) ≫= effect)
    by (by apply after_consistent).
  rewrite (step_ops _ _ Hst), step_lastInputs.
  destruct ev as [i|].
  - destruct (bool_decide_reflect (lastInputs (after unmounted evs) = Some i)) as [->|_].
    + simpl live. lia.
    + destruct (polling (lastInputs (after unmounted evs))), (polling (Some i)); simpl; lia.
  - destruct (polling (lastInputs (after unmounted evs))); simpl; lia.
Qed.

Lemma run_no_abort (evs : list Lifecycle) :
  ~ In AbortFetch (map snd (run unmounted evs)).
Proof.
  induction evs as [|ev evs IH] using rev_ind; [simpl; tauto|].
  rewrite run_snoc, map_app, map_snd_tagged, in_app_iff.
  intros [H|H]; [done|].
  assert (Hst : installed (after unmounted evs)
                = lastInputs (after unmounted evs) ≫= effect)
    by (by apply after_consistent).
  rewrite (step_ops _ _ Hst) in H.
  destruct ev as [i|].
  - destruct (bool_decide _); [done|].
    destruct (polling (lastInputs (after unmounted evs))), (polling (Some i));
      simpl in H; intuition discriminate.
  - destruct (polling (lastInputs (after unmounted evs))); simpl in H; intuition discriminate.
Qed.

End Polling.

(** C7, as stated, fails on "cleared on unmount only": the risk profile is a
    dependency of the polling effect, so a render in which only the risk
    profile object has changed runs the cleanup, which clears the interval,
    and installs a new one, while the page stays mounted. *)
Lemma polling_interval_cleared_while_mounted :
  PollingEffect.run PollingEffect.unmounted
    [PollingEffect.Commit (Scenario.pollingRender 10);
     PollingEffect.Commit (Scenario.pollingRender 11)]
  = [(PollingEffect.Commit (Scenario.pollingRender 10),
      PollingEffect.SetInterval DashboardPage.pollTick 10000);
     (PollingEffect.Commit (Scenario.pollingRender 11), PollingEffect.ClearInterval);
     (PollingEffect.Commit (Scenario.pollingRender 11),
      PollingEffect.SetInterval DashboardPage.pollTick 10000)]
  /\ ~ (forall st evs ev,
          In (ev, PollingEffect.ClearInterval) (PollingEffect.run st evs) ->
          ev = PollingEffect.Unmount).
Proof.
  assert (Hrun : PollingEffect.run PollingEffect.unmounted
            [PollingEffect.Commit (Scenario.pollingRender 10);
             PollingEffect.Commit (Scenario.pollingRender 11)]
          = [(PollingEffect.Commit (Scenario.pollingRender 10),
              PollingEffect.SetInterval DashboardPage.pollTick 10000);
             (PollingEffect.Commit (Scenario.pollingRender 11), PollingEffect.ClearInterval);
             (PollingEffect.Commit (Scenario.pollingRender 11),
              PollingEffect.SetInterval DashboardPage.pollTick 10000)])
    by reflexivity.
  split; [exact Hrun|].
  intros Hclaim.
  specialize (Hclaim PollingEffect.unmounted
                [PollingEffect.Commit (Scenario.pollingRender 10);
                 PollingEffect.Commit (Scenario.pollingRender 11)]
                (PollingEffect.Commit (Scenario.pollingRender 11))).
  rewrite Hrun in Hclaim. discriminate Hclaim. simpl. tauto.
Qed.

(** C7, amended.  Consider the page after any sequence of renders and
    unmounts, and its next step.  A render whose dependencies (disruption
    flag, user configuration, personalised shipment, risk profile,
    [addEvent]) are those of the previous render does nothing.  A render in
    which one of them has changed first clears the interval if the page was
    polling and then, if a user configuration exists and the disruption flag
    is set, installs an interval of 10000 ms whose callback is the polling
    body [pollTick]; an unmount clears the interval if the page was polling.
    Hence along every run exactly one interval is live while the page polls
    and none otherwise, and no operation ever cancels a request in
    flight. *)
Theorem polling_effect_lifecycle (evs : list PollingEffect.Lifecycle)
    (ev : PollingEffect.Lifecycle) :
  let st := PollingEffect.after PollingEffect.unmounted evs in
  let st' := fst (PollingEffect.step st ev) in
  let ops := snd (PollingEffect.step st ev) in
  let cleared :=
    if PollingEffect.polling (PollingEffect.lastInputs st)
    then [PollingEffect.ClearInterval] else [] in
  (forall i, ev = PollingEffect.Commit i -> PollingEffect.lastInputs st = Some i ->
     ops = [] /\ st' = st)
  /\ (forall i, ev = PollingEffect.Commit i -> PollingEffect.lastInputs st <> Some i ->
       ops = cleared
             ++ (if bool_decide (is_Some (PollingEffect.userConfig i))
                    && PollingEffect.isDisruptionTriggered i
                 then [PollingEffect.SetInterval DashboardPage.pollTick 10000]
                 else [])
       /\ PollingEffect.lastInputs st' = Some i)
  /\ (ev = PollingEffect.Unmount ->
      ops = cleared /\ PollingEffect.lastInputs st' = None)
  /\ PollingEffect.live
       (map snd (PollingEffect.run PollingEffect.unmounted (evs ++ [ev])))
     = (if PollingEffect.polling (PollingEffect.lastInputs st') then 1%Z else 0%Z)
  /\ ~ In PollingEffect.AbortFetch
         (map snd (PollingEffect.run PollingEffect.unmounted (evs ++ [ev]))).
Proof.
  intros st st' ops cleared.
  assert (Hst : PollingEffect.installed st
                = PollingEffect.lastInputs st ≫= PollingEffect.effect)
    by (by apply after_consistent).
  pose proof (step_ops st ev Hst) as Hops. fold ops in Hops.
  pose proof (step_lastInputs st ev) as Hlast. fold st' in Hlast.
  split; [|split; [|split; [|split]]].
  - intros i -> Hsame. split.
    + rewrite Hops. by rewrite bool_decide_eq_true_2.
    + subst st'. simpl. by rewrite bool_decide_eq_true_2.
  - intros i -> Hchanged. split; [|exact Hlast].
    rewrite Hops. by rewrite bool_decide_eq_false_2.
  - intros ->. split; [exact Hops | exact Hlast].
  - rewrite run_live, after_snoc. reflexivity.
  - apply run_no_abort.
Qed.

(** * Further properties of the modelled code *)

(** ** [fetchInitialData]: shape of the stored profile *)

Section InitialProfile.
Import DashboardPage.

Lemma initialPrimary_insert (w : AssessWorld) (u : RiskProfile) :
  exists e, initialPrimary w u = <[id PRIMARY_ROUTE := e]> u /\ 0.1 <= overall e.
Proof.
  unfold initialPrimary.
  destruct (assessRoute w (id PRIMARY_ROUTE)) as [resp|]; [destruct (okAssessment resp)|];
    eexists; (split; [reflexivity|]); try by vm_compute.
  apply max_lower_l.
Qed.

Lemma initialAlternative_insert (w : AssessWorld) (u : RiskProfile) (route : Route) :
  In route ALTERNATIVE_ROUTES ->
  exists e, initialAlternative w u route = <[id route := e]> u
            /\ 0.2 <= overall e /\ overall e <= 0.85.
Proof.
  intros Hin. unfold initialAlternative.
  assert (Hfb : 0.2 <= overall (alternativeFallback (indexOfAlternative route))
                /\ overall (alternativeFallback (indexOfAlternative route)) <= 0.85).
  { simpl in Hin. destruct Hin as [<-|[<-|[<-|[<-|[]]]]]; split; by vm_compute. }
  destruct (assessRoute w (id route)) as [resp|]; [destruct (okAssessment resp)|];
    eexists; (split; [reflexivity|]); try exact Hfb.
  apply initialFinalRisk_clamped.
Qed.

Lemma initialPrimary_is_Some (w : AssessWorld) (u : RiskProfile) k :
  is_Some (initialPrimary w u !! k) <-> id PRIMARY_ROUTE = k \/ is_Some (u !! k).
Proof.
  unfold initialPrimary.
  destruct (assessRoute w (id PRIMARY_ROUTE)) as [resp|]; [destruct (okAssessment resp)|];
    apply lookup_insert_is_Some'.
Qed.

Lemma initialAlternative_is_Some (w : AssessWorld) (u : RiskProfile) (route : Route) k :
  is_Some (initialAlternative w u route !! k) <-> id route = k \/ is_Some (u !! k).
Proof.
  unfold initialAlternative.
  destruct (assessRoute w (id route)) as [resp|]; [destruct (okAssessment resp)|];
    apply lookup_insert_is_Some'.
Qed.

Lemma ensureRoute_is_Some (u : RiskProfile) (route : Route) k :
  is_Some (ensureRoute u route !! k) <-> id route = k \/ is_Some (u !! k).
Proof.
  unfold ensureRoute. destruct (u !! id route) eqn:Hr.
  - split; [by right|]. intros [<-|H]; [by rewrite Hr | done].
  - apply lookup_insert_is_Some'.
Qed.

Lemma fold_left_is_Some {A} (f : RiskProfile -> A -> RiskProfile) (key : A -> string)
    (l : list A) :
  (forall u x k, is_Some (f u x !! k) <-> key x = k \/ is_Some (u !! k)) ->
  forall u k, is_Some (fold_left f l u !! k) <-> In k (map key l) \/ is_Some (u !! k).
Proof.
  intros Hf. induction l as [|x l IH]; intros u k; simpl; [tauto|].
  rewrite IH, Hf. tauto.
Qed.

End InitialProfile.

Lemma fetchInitialData_stored_keys (w : DashboardPage.AssessWorld) :
  exists rp,
    DashboardPage.fetchInitialData w = [DashboardPage.SetRiskProfile rp]
    /\ forall k, is_Some (rp !! k) <-> In k (map id DashboardPage.allRoutes).
Proof.
  unfold DashboardPage.fetchInitialData.
  destruct (DashboardPage.getApiHealth w) as [_|].
  - eexists. split; [reflexivity|]. intros k.
    rewrite (fold_left_is_Some _ id _ ensureRoute_is_Some).
    rewrite (fold_left_is_Some _ id _ (initialAlternative_is_Some w)).
    rewrite initialPrimary_is_Some, lookup_empty.
    change (map id DashboardPage.allRoutes)
      with (id PRIMARY_ROUTE :: map id ALTERNATIVE_ROUTES).
    pose proof (@is_Some_None RiskEntry) as Hnone. simpl In. tauto.
  - eexists. split; [reflexivity|]. intros k.
    unfold DashboardPage.mockRisk.
    rewrite (fold_left_is_Some _ id);
      [|intros u x k'; apply lookup_insert_is_Some'].
    rewrite lookup_empty. pose proof (@is_Some_None RiskEntry) as Hnone. tauto.
Qed.

Section InitialBounds.
Import DashboardPage.

Lemma alternative_id_not_primary (route : Route) :
  In route ALTERNATIVE_ROUTES ->
  id route <> id PRIMARY_ROUTE /\ In (id route) (map id ALTERNATIVE_ROUTES).
Proof.
  intros Hin. split; [|by apply in_map].
  simpl in Hin. destruct Hin as [<-|[<-|[<-|[<-|[]]]]]; done.
Qed.

Lemma primary_id_not_alternative : ~ In (id PRIMARY_ROUTE) (map id ALTERNATIVE_ROUTES).
Proof. simpl. intros [H|[H|[H|[H|[]]]]]; discriminate H. Qed.

Lemma initialBounds_insert_primary (u : RiskProfile) (e : RiskEntry) :
  0.1 <= overall e -> Reply.initialBounds u ->
  Reply.initialBounds (<[id PRIMARY_ROUTE := e]> u).
Proof.
  intros He Hu k e' Hk. destruct (decide (id PRIMARY_ROUTE = k)) as [<-|Hne].
  - rewrite lookup_insert_eq in Hk. injection Hk as <-.
    split; [done|]. intros H. by destruct primary_id_not_alternative.
  - rewrite lookup_insert_ne in Hk by done. by apply Hu.
Qed.

Lemma initialBounds_insert_alternative (u : RiskProfile) (route : Route) (e : RiskEntry) :
  In route ALTERNATIVE_ROUTES -> 0.2 <= overall e -> overall e <= 0.85 ->
  Reply.initialBounds u -> Reply.initialBounds (<[id route := e]> u).
Proof.
  intros Hin Hlo Hhi Hu k e' Hk. destruct (decide (id route = k)) as [<-|Hne].
  - rewrite lookup_insert_eq in Hk. injection Hk as <-.
    split; [|done]. intros H. by destruct (alternative_id_not_primary route Hin).
  - rewrite lookup_insert_ne in Hk by done. by apply Hu.
Qed.

Lemma fold_left_invariant {A} (P : RiskProfile -> Prop)
    (f : RiskProfile -> A -> RiskProfile) (l : list A) :
  (forall u x, In x l -> P u -> P (f u x)) -> forall u, P u -> P (fold_left f l u).
Proof.
  induction l as [|x l IH]; intros Hf u Hu; simpl; [done|].
  apply IH; [intros u' y Hy; apply Hf; by right|]. apply Hf; [by left | done].
Qed.

Lemma fetchInitialData_reachable_bounds (w : AssessWorld) :
  Reply.initialBounds
    (fold_left ensureRoute allRoutes
       (fold_left (initialAlternative w) ALTERNATIVE_ROUTES (initialPrimary w ∅))).
Proof.
  apply fold_left_invariant.
  { intros u route Hin Hu. unfold ensureRoute. destruct (u !! id route); [done|].
    destruct Hin as [<-|Hin].
    - apply initialBounds_insert_primary; [by vm_compute | done].
    - destruct (alternative_id_not_primary route Hin) as [Hne _].
      apply String.eqb_neq in Hne. rewrite Hne.
      destruct (initialAlternative_insert
                  {| getApiHealth := Rejected; getAllRiskData := Rejected;
                     assessRoute := fun _ => Rejected; random := fun _ => 0 |}
                  ∅ route Hin) as (e & Heq & Hlo & Hhi).
      unfold initialAlternative in Heq. simpl in Heq.
      assert (e = alternativeFallback (indexOfAlternative route)) as ->.
      { apply (f_equal (fun m : RiskProfile => m !! id route)) in Heq.
        rewrite !lookup_insert_eq in Heq. congruence. }
      by apply initialBounds_insert_alternative. }
  apply fold_left_invariant.
  { intros u route Hin Hu.
    destruct (initialAlternative_insert w u route Hin) as (e & -> & Hlo & Hhi).
    by apply initialBounds_insert_alternative. }
  destruct (initialPrimary_insert w ∅) as (e & -> & He).
  apply initialBounds_insert_primary; [done|].
  intros k e' Hk. by rewrite lookup_empty in Hk.
Qed.

End InitialBounds.

(** X1. Whatever the backend does, [fetchInitialData] calls [setRiskProfile]
    exactly once, with a profile that has an entry for each of the five
    routes and for nothing else.  When the health check passes, the primary
    route gets an overall risk of at least [0.1] and every alternative route
    one within [[0.2, 0.85]], whatever scores the assessments report and
    whether they succeed or not; when the health check fails, every route is
    stored with overall risk and factors [0.1]. *)
Theorem fetchInitialData_profile_shape (w : DashboardPage.AssessWorld) :
  exists rp,
    DashboardPage.fetchInitialData w = [DashboardPage.SetRiskProfile rp]
    /\ (forall k, is_Some (rp !! k) <-> In k (map id DashboardPage.allRoutes))
    /\ match DashboardPage.getApiHealth w with
       | Resolved _ =>
           (exists e, rp !! id PRIMARY_ROUTE = Some e /\ 0.1 <= overall e)
           /\ forall route, In route ALTERNATIVE_ROUTES ->
                exists e, rp !! id route = Some e
                          /\ 0.2 <= overall e /\ overall e <= 0.85
       | Rejected =>
           forall route, In route DashboardPage.allRoutes ->
             rp !! id route = Some (DashboardPage.entry 0.1 0.1 0.1 0.1)
       end.
Proof.
  destruct (fetchInitialData_stored_keys w) as (rp & Hcalls & Hkeys).
  exists rp. split; [exact Hcalls|]. split; [exact Hkeys|].
  unfold DashboardPage.fetchInitialData in Hcalls.
  destruct (DashboardPage.getApiHealth w) as [_|].
  - injection Hcalls as <-.
    pose proof (fetchInitialData_reachable_bounds w) as Hb.
    split.
    + destruct (proj2 (Hkeys (id PRIMARY_ROUTE))) as [e He]; [by left|].
      exists e. split; [done|]. by apply (Hb _ _ He).
    + intros route Hin.
      destruct (proj2 (Hkeys (id route))) as [e He]; [right; by apply in_map|].
      exists e. split; [done|].
      apply (Hb _ _ He). by apply alternative_id_not_primary.
  - injection Hcalls as <-. intros route Hin.
    simpl in Hin. destruct Hin as [<-|[<-|[<-|[<-|[<-|[]]]]]]; by vm_compute.
Qed.

(** ** The polling tick: what it rewrites and what it leaves alone *)

Section PollFrame.
Import DashboardPage.

Lemma pollPrimary_lookup_other (w : AssessWorld) (u : RiskProfile) k :
  k <> id PRIMARY_ROUTE \/ Reply.assessed w (id PRIMARY_ROUTE) = None ->
  pollPrimary w u !! k = u !! k.
Proof.
  unfold pollPrimary, Reply.assessed.
  destruct (assessRoute w (id PRIMARY_ROUTE)) as [resp|]; [|done].
  destruct (okAssessment resp); [|done].
  intros [Hne|H]; [|done]. by rewrite lookup_insert_ne.
Qed.

Lemma pollAlternative_lookup_other (w : AssessWorld) (u : RiskProfile) (route : Route) k :
  k <> id route \/ Reply.assessed w (id route) = None ->
  pollAlternative w u route !! k = u !! k.
Proof.
  unfold pollAlternative, Reply.assessed.
  destruct (assessRoute w (id route)) as [resp|]; [|done].
  destruct (okAssessment resp); [|done].
  intros [Hne|H]; [|done]. by rewrite lookup_insert_ne.
Qed.

Lemma pollAlternative_lookup_assessed (w : AssessWorld) (u : RiskProfile) (route : Route) a :
  Reply.assessed w (id route) = Some a ->
  pollAlternative w u route !! id route
  = Some (entry (pollFinalRisk a (indexOfAlternative route) (random w (id route)))
                (factorOr a fac_congestion port_congestion
                   (0.2 + inject_Z (indexOfAlternative route) * 0.05))
                (factorOr a fac_tariffs trade_news
                   (0.1 + inject_Z (indexOfAlternative route) * 0.02))
                (factorOr a fac_political_unrest political
                   (0.2 + inject_Z (indexOfAlternative route) * 0.03))).
Proof.
  unfold pollAlternative, Reply.assessed.
  destruct (assessRoute w (id route)) as [resp|]; [|done].
  intros ->. by rewrite lookup_insert_eq.
Qed.

Lemma fold_pollAlternative_lookup_other (w : AssessWorld) (l : list Route) k :
  ~ In k (map id l) \/ Reply.assessed w k = None ->
  forall u : RiskProfile, fold_left (pollAlternative w) l u !! k = u !! k.
Proof.
  induction l as [|r l IH]; intros Hk u; simpl; [done|].
  rewrite IH by (simpl in Hk; tauto).
  apply pollAlternative_lookup_other.
  destruct (decide (k = id r)) as [->|Hne]; [|by left].
  right. destruct Hk as [Hk|Hk]; [|done]. destruct Hk. by left.
Qed.

Lemma pollFinalRisk_clamped (a : Assessment) (routeIndex : Z) (rnd : Q) :
  0.15 <= pollFinalRisk a routeIndex rnd /\ pollFinalRisk a routeIndex rnd <= 0.9.
Proof.
  unfold pollFinalRisk. split.
  - apply min_lower; [by vm_compute | apply max_lower_l].
  - apply min_upper_l.
Qed.

End PollFrame.

(** X2. A polling tick whose risk-data fetch rejects stores nothing.
    Otherwise it stores exactly one profile, built from the captured one: the
    entry of every key that is not a route whose re-assessment succeeded is
    the captured entry, unchanged (no entry is ever removed); a re-assessed
    primary route gets the reported overall score ([0.1] when absent or
    zero) without any clamp; a re-assessed alternative route gets an overall
    risk within [[0.15, 0.9]] whatever score is reported. *)
Theorem pollTick_refresh (s : DashboardPage.State) (w : DashboardPage.AssessWorld) :
  match DashboardPage.getAllRiskData w with
  | Rejected => DashboardPage.pollTick s w = []
  | Resolved _ =>
      exists rp,
        DashboardPage.pollTick s w = [DashboardPage.SetRiskProfile rp]
        /\ (forall k, ~ In k (map id DashboardPage.allRoutes) \/ Reply.assessed w k = None ->
                      rp !! k = DashboardPage.riskProfile s !! k)
        /\ (forall a, Reply.assessed w (id PRIMARY_ROUTE) = Some a ->
              exists e, rp !! id PRIMARY_ROUTE = Some e
                        /\ overall e = Js.orNum (overall_risk_score a) 0.1)
        /\ (forall route a, In route ALTERNATIVE_ROUTES ->
              Reply.assessed w (id route) = Some a ->
              exists e, rp !! id route = Some e
                        /\ 0.15 <= overall e /\ overall e <= 0.9)
  end.
Proof.
  unfold DashboardPage.pollTick.
  destruct (DashboardPage.getAllRiskData w) as [_|]; [|reflexivity].
  eexists. split; [reflexivity|]. split; [|split].
  - intros k Hk.
    rewrite fold_pollAlternative_lookup_other.
    + apply pollPrimary_lookup_other.
      destruct (decide (k = id PRIMARY_ROUTE)) as [->|Hne]; [|by left].
      right. destruct Hk as [Hk|Hk]; [|done]. destruct Hk. by left.
    + destruct Hk as [Hk|Hk]; [|by right]. left. intros Hin. apply Hk. by right.
  - intros a Ha.
    rewrite fold_pollAlternative_lookup_other by (left; apply primary_id_not_alternative).
    unfold DashboardPage.pollPrimary. unfold Reply.assessed in Ha.
    destruct (DashboardPage.assessRoute w (id PRIMARY_ROUTE)) as [resp|]; [|done].
    rewrite Ha. eexists. by rewrite lookup_insert_eq.
  - intros route a Hin Ha.
    assert (Hl : overall <$>
              fold_left (DashboardPage.pollAlternative w) ALTERNATIVE_ROUTES
                (DashboardPage.pollPrimary w (DashboardPage.riskProfile s)) !! id route
              = Some (DashboardPage.pollFinalRisk a (DashboardPage.indexOfAlternative route)
                        (DashboardPage.random w (id route)))).
    { simpl in Hin. destruct Hin as [<-|[<-|[<-|[<-|[]]]]]; simpl fold_left;
        rewrite ?pollAlternative_lookup_other by (by left);
        by rewrite (pollAlternative_lookup_assessed _ _ _ a Ha). }
    destruct (fold_left _ _ _ !! id route) as [e|]; [|done].
    injection Hl as Hl. exists e. split; [done|]. rewrite Hl.
    apply pollFinalRisk_clamped.
Qed.

(** ** [triggerDisruption]: the profile it leaves *)

Section DisruptionProfile.
Import DashboardPage.

Lemma optimizeFailed_routesOf reply :
  optimizeFailed reply <-> Reply.routesOf reply = None.
Proof. unfold optimizeFailed, Reply.routesOf. destruct reply; [done|]. by split. Qed.

(** The last profile stored by the handler comes from the optimisation step. *)
Lemma triggerDisruption_final_profile (s : State) (w : DisruptionWorld) :
  riskProfile (applyCalls s (triggerDisruption s w))
  = match Reply.routesOf (optimizeRoute w) with
    | Some routes => raisePrimary (optimizedLoop (routeRandom w) routes 0 (riskProfile s))
    | None => optimizeFallback (riskProfile s)
    end.
Proof.
  rewrite applyCalls_riskProfile, storedProfiles_triggerDisruption.
  unfold optimizeRoutes, Reply.routesOf.
  destruct (optimizeRoute w) as [resp|].
  - destruct (resp ≫= _) as [routes|].
    + destruct (Js.truthyStr _).
      * change (storedProfiles (SetRiskProfile ?x :: [SetAiAnalysis ?y])) with [x].
        by rewrite last_snoc.
      * change (storedProfiles [SetRiskProfile ?x]) with [x]. by rewrite last_snoc.
    + change (storedProfiles [SetRiskProfile ?x]) with [x]. by rewrite last_snoc.
  - change (storedProfiles [SetRiskProfile ?x]) with [x]. by rewrite last_snoc.
Qed.

Lemma optimizedEntry_clamped (route : OptimizedRoute) (index : nat) (rnd : Q) :
  0.2 <= overall (optimizedEntry route index rnd)
  /\ overall (optimizedEntry route index rnd) <= 0.9.
Proof.
  unfold optimizedEntry. simpl. split.
  - apply min_lower; [by vm_compute | apply max_lower_l].
  - apply min_upper_l.
Qed.

(** Every entry present after the loop is a captured entry or one written by
    the loop, whose overall risk is clamped. *)
Lemma optimizedLoop_entries (rnd : nat -> Q) (routes : list OptimizedRoute) :
  forall index (u : RiskProfile) k e,
    optimizedLoop rnd routes index u !! k = Some e ->
    u !! k = Some e \/ (0.2 <= overall e /\ overall e <= 0.9).
Proof.
  induction routes as [|r routes IH]; intros index u k e Hk; [by left|].
  simpl in Hk. apply IH in Hk as [Hk|Hk]; [|by right].
  destruct (assign_cases (optimizedRouteId r index)
              (optimizedEntry r index (rnd index)) u) as [[_ Ha]|[_ Ha]];
    rewrite Ha in Hk; [by left|].
  destruct (decide (optimizedRouteId r index = k)) as [<-|Hne].
  - rewrite lookup_insert_eq in Hk. injection Hk as <-.
    right. apply optimizedEntry_clamped.
  - rewrite lookup_insert_ne in Hk by done. by left.
Qed.

(** The entry of the resolved identifier of each listed route is present,
    unless that identifier is ["__proto__"]. *)
Lemma optimizedLoop_writes (rnd : nat -> Q) (routes : list OptimizedRoute) :
  forall index (u : RiskProfile) j route,
    routes !! j = Some route ->
    optimizedRouteId route (index + j) <> "__proto__" ->
    is_Some (optimizedLoop rnd routes index u !! optimizedRouteId route (index + j)).
Proof.
  induction routes as [|r routes IH]; intros index u j route Hj Hkey; [done|].
  destruct j as [|j]; simpl in *.
  - injection Hj as ->. apply optimizedLoop_keeps_entry.
    rewrite Nat.add_0_r in *. rewrite assign_ne by done.
    rewrite lookup_insert_eq. by eexists.
  - replace (index + S j)%nat with (S index + j)%nat in * by lia. by apply IH.
Qed.

(** The loop stores nothing under ["__proto__"]. *)
Lemma optimizedLoop_proto (rnd : nat -> Q) (routes : list OptimizedRoute) :
  forall index (u : RiskProfile),
    optimizedLoop rnd routes index u !! "__proto__" = u !! "__proto__".
Proof.
  induction routes as [|r routes IH]; intros index u; [done|].
  simpl. rewrite IH. apply assign_proto_unset.
Qed.

(** Keys that no listed route resolves to are left alone. *)
Lemma optimizedLoop_frame (rnd : nat -> Q) (routes : list OptimizedRoute) k :
  forall index (u : RiskProfile),
    (forall j route, routes !! j = Some route -> optimizedRouteId route (index + j) <> k) ->
    optimizedLoop rnd routes index u !! k = u !! k.
Proof.
  induction routes as [|r routes IH]; intros index u Hk; [done|].
  simpl. rewrite IH.
  - apply assign_lookup_ne. specialize (Hk 0%nat r eq_refl). by rewrite Nat.add_0_r in Hk.
  - intros j route Hj. specialize (Hk (S j) route Hj).
    by replace (index + S j)%nat with (S index + j)%nat in Hk by lia.
Qed.

Lemma raisePrimary_lookup_ne (u : RiskProfile) k :
  k <> id PRIMARY_ROUTE -> raisePrimary u !! k = u !! k.
Proof.
  intros Hne. unfold raisePrimary. destruct (u !! id PRIMARY_ROUTE); [|done].
  by rewrite lookup_insert_ne.
Qed.

Lemma raisePrimary_lookup_primary (u : RiskProfile) :
  raisePrimary u !! id PRIMARY_ROUTE
  = (fun e => {| overall := Js.max 0.75 (overall e); factors := factors e |})
      <$> u !! id PRIMARY_ROUTE.
Proof.
  unfold raisePrimary. destruct (u !! id PRIMARY_ROUTE) as [e|] eqn:He.
  - by rewrite lookup_insert_eq.
  - by rewrite He.
Qed.

End DisruptionProfile.

(** X3. When the route optimisation fails (the call rejects, or its reply is
    not a success carrying routes), the profile left by [triggerDisruption]
    is the captured profile with the two canned entries for the first two
    alternative routes (overall [0.32] and [0.45]); every other entry,
    the primary route's included, is the captured one, whatever the primary
    assessment returned. *)
Theorem triggerDisruption_failed_optimisation_profile
    (s : DashboardPage.State) (w : DashboardPage.DisruptionWorld) :
  optimizeFailed (DashboardPage.optimizeRoute w) ->
  let final := DashboardPage.riskProfile
                 (DashboardPage.applyCalls s (DashboardPage.triggerDisruption s w)) in
  final !! "TW-VN-LA" = Some (DashboardPage.entry 0.32 0.2 0.1 0.2)
  /\ final !! "TW-JP-LA" = Some (DashboardPage.entry 0.45 0.4 0.1 0.3)
  /\ forall k, k <> "TW-VN-LA" -> k <> "TW-JP-LA" ->
               final !! k = DashboardPage.riskProfile s !! k.
Proof.
  intros Hfail final. subst final.
  rewrite triggerDisruption_final_profile.
  apply optimizeFailed_routesOf in Hfail. rewrite Hfail.
  unfold DashboardPage.optimizeFallback. simpl.
  split; [|split].
  - rewrite lookup_insert_ne by done. by rewrite lookup_insert_eq.
  - by rewrite lookup_insert_eq.
  - intros k Hvn Hjp. by rewrite !lookup_insert_ne.
Qed.

Lemma triggerDisruption_failed_optimisation_profile_witness :
  let s := Scenario.loadedHealthy in
  let final := DashboardPage.riskProfile
                 (DashboardPage.applyCalls s
                    (DashboardPage.triggerDisruption s Scenario.unreachableDisruption)) in
  final !! "TW-VN-LA" = Some (DashboardPage.entry 0.32 0.2 0.1 0.2)
  /\ final !! "TW-JP-LA" = Some (DashboardPage.entry 0.45 0.4 0.1 0.3)
  /\ forall k, k <> "TW-VN-LA" -> k <> "TW-JP-LA" ->
               final !! k = DashboardPage.riskProfile s !! k.
Proof.
  exact (triggerDisruption_failed_optimisation_profile Scenario.loadedHealthy
           Scenario.unreachableDisruption I).
Defined.

(** X4. When the route optimisation delivers routes, the profile left by
    [triggerDisruption] keeps every captured key, has an entry under the
    resolved identifier of each listed route other than ["__proto__"] (an
    assignment under that key replaces the prototype and stores no entry),
    and leaves untouched every key that is neither the primary route nor
    resolved from a listed route.  An
    entry of that profile is the captured entry, or has an overall risk
    within [[0.2, 0.9]], or is the primary route's captured entry with its
    overall risk raised to [max(0.75, .)]; the primary route, when it has an
    entry, ends at [0.75] or more. *)
Theorem triggerDisruption_successful_optimisation_profile
    (s : DashboardPage.State) (w : DashboardPage.DisruptionWorld)
    (routes : list OptimizedRoute) :
  Reply.routesOf (DashboardPage.optimizeRoute w) = Some routes ->
  let captured := DashboardPage.riskProfile s in
  let final := DashboardPage.riskProfile
                 (DashboardPage.applyCalls s (DashboardPage.triggerDisruption s w)) in
  (forall k, is_Some (captured !! k) -> is_Some (final !! k))
  /\ (forall j route, routes !! j = Some route ->
        DashboardPage.optimizedRouteId route j <> "__proto__" ->
        is_Some (final !! DashboardPage.optimizedRouteId route j))
  /\ final !! "__proto__" = captured !! "__proto__"
  /\ (forall k, k <> id PRIMARY_ROUTE ->
        (forall j route, routes !! j = Some route ->
                         DashboardPage.optimizedRouteId route j <> k) ->
        final !! k = captured !! k)
  /\ (forall k e, final !! k = Some e ->
        captured !! k = Some e
        \/ (0.2 <= overall e /\ overall e <= 0.9)
        \/ (k = id PRIMARY_ROUTE
            /\ exists e0, captured !! k = Some e0
                          /\ overall e = Js.max 0.75 (overall e0)
                          /\ factors e = factors e0))
  /\ (forall e, final !! id PRIMARY_ROUTE = Some e -> 0.75 <= overall e).
Proof.
  intros Hroutes captured final. subst final.
  rewrite triggerDisruption_final_profile, Hroutes. fold captured.
  set (u := DashboardPage.optimizedLoop _ _ _ _).
  assert (Hraise : forall k, is_Some (u !! k) -> is_Some (DashboardPage.raisePrimary u !! k)).
  { intros k Hk. destruct (decide (k = id PRIMARY_ROUTE)) as [->|Hne].
    - rewrite raisePrimary_lookup_primary. destruct Hk as [e ->]. by eexists.
    - by rewrite raisePrimary_lookup_ne. }
  split; [|split; [|split; [|split; [|split]]]].
  - intros k Hk. apply Hraise. by apply optimizedLoop_keeps_entry.
  - intros j route Hj Hkey. apply Hraise.
    exact (optimizedLoop_writes _ _ 0 _ j route Hj Hkey).
  - rewrite raisePrimary_lookup_ne by done. apply optimizedLoop_proto.
  - intros k Hne Hk. rewrite raisePrimary_lookup_ne by done.
    by apply optimizedLoop_frame.
  - intros k e Hk. destruct (decide (k = id PRIMARY_ROUTE)) as [->|Hne].
    + rewrite raisePrimary_lookup_primary in Hk.
      destruct (u !! id PRIMARY_ROUTE) as [e0|] eqn:He0; [|done].
      injection Hk as <-. simpl.
      apply optimizedLoop_entries in He0 as [He0|[Hlo Hhi]].
      * right. right. split; [done|]. by exists e0.
      * right. left. split.
        -- apply Qle_trans with (overall e0); [done | apply max_lower_r].
        -- apply max_upper; [by vm_compute | done].
    + rewrite raisePrimary_lookup_ne in Hk by done.
      apply optimizedLoop_entries in Hk as [Hk|Hk]; auto.
  - intros e He. rewrite raisePrimary_lookup_primary in He.
    destruct (u !! id PRIMARY_ROUTE) as [e0|]; [|done].
    injection He as <-. apply max_lower_l.
Qed.

Lemma triggerDisruption_successful_optimisation_profile_witness :
  let s := Scenario.loadedHealthy in
  let routes := replicate 18 Scenario.bareRoute in
  let captured := DashboardPage.riskProfile s in
  let final := DashboardPage.riskProfile
                 (DashboardPage.applyCalls s
                    (DashboardPage.triggerDisruption s Scenario.eighteenRoutes)) in
  (forall k, is_Some (captured !! k) -> is_Some (final !! k))
  /\ (forall j route, routes !! j = Some route ->
        DashboardPage.optimizedRouteId route j <> "__proto__" ->
        is_Some (final !! DashboardPage.optimizedRouteId route j))
  /\ final !! "__proto__" = captured !! "__proto__"
  /\ (forall k, k <> id PRIMARY_ROUTE ->
        (forall j route, routes !! j = Some route ->
                         DashboardPage.optimizedRouteId route j <> k) ->
        final !! k = captured !! k)
  /\ (forall k e, final !! k = Some e ->
        captured !! k = Some e
        \/ (0.2 <= overall e /\ overall e <= 0.9)
        \/ (k = id PRIMARY_ROUTE
            /\ exists e0, captured !! k = Some e0
                          /\ overall e = Js.max 0.75 (overall e0)
                          /\ factors e = factors e0))
  /\ (forall e, final !! id PRIMARY_ROUTE = Some e -> 0.75 <= overall e).
Proof.
  exact (triggerDisruption_successful_optimisation_profile Scenario.loadedHealthy
           Scenario.eighteenRoutes (replicate 18 Scenario.bareRoute) eq_refl).
Defined.

(** ** States reached after the initial load *)

Section ReachedStates.
Import DashboardPage.

Lemma pollPrimary_keeps_entry (w : AssessWorld) (u : RiskProfile) k :
  is_Some (u !! k) -> is_Some (pollPrimary w u !! k).
Proof.
  intros Hk. unfold pollPrimary.
  destruct (assessRoute w (id PRIMARY_ROUTE)) as [resp|]; [|done].
  destruct (okAssessment resp); [|done].
  rewrite lookup_insert_is_Some'. by right.
Qed.

Lemma pollAlternative_keeps_entry (w : AssessWorld) (u : RiskProfile) (route : Route) k :
  is_Some (u !! k) -> is_Some (pollAlternative w u route !! k).
Proof.
  intros Hk. unfold pollAlternative.
  destruct (assessRoute w (id route)) as [resp|]; [|done].
  destruct (okAssessment resp); [|done].
  rewrite lookup_insert_is_Some'. by right.
Qed.

Lemma applyCalls_single (s : State) (rp : RiskProfile) :
  riskProfile (applyCalls s [SetRiskProfile rp]) = rp.
Proof. reflexivity. Qed.

Lemma run_keeps_entry (s : State) (h : Handlers.Handler) k :
  In k (map id allRoutes) \/ (forall w, h <> Handlers.FetchInitialData w) ->
  is_Some (riskProfile s !! k) \/ (exists w, h = Handlers.FetchInitialData w) ->
  is_Some (riskProfile (Handlers.run s h) !! k).
Proof.
  intros Hroute Hk. unfold Handlers.run. destruct h as [w|w|w]; unfold Handlers.calls.
  - destruct (fetchInitialData_stored_keys w) as (rp & -> & Hkeys).
    rewrite applyCalls_single. apply Hkeys.
    destruct Hroute as [H|H]; [done|]. by destruct (H w).
  - destruct Hk as [Hk|[w' Hw']]; [|done].
    unfold pollTick. destruct (getAllRiskData w); [|done].
    rewrite applyCalls_single.
    apply (fold_left_invariant (fun u => is_Some (u !! k)));
      [intros; by apply pollAlternative_keeps_entry|].
    by apply pollPrimary_keeps_entry.
  - destruct Hk as [Hk|[w' Hw']]; [|done].
    rewrite triggerDisruption_final_profile.
    destruct (Reply.routesOf (optimizeRoute w)) as [routes|].
    + set (u := optimizedLoop _ _ _ _).
      assert (Hu : is_Some (u !! k)) by by apply optimizedLoop_keeps_entry.
      destruct (decide (k = id PRIMARY_ROUTE)) as [->|Hne].
      * rewrite raisePrimary_lookup_primary. destruct Hu as [e ->]. by eexists.
      * by rewrite raisePrimary_lookup_ne.
    + unfold optimizeFallback. simpl. rewrite !lookup_insert_is_Some'. auto.
Qed.

End ReachedStates.

(** X5. Once the initial load has run, along any sequence of handler runs
    (initial load, polling tick, disruption click, in any order and with any
    backend replies) each of the five routes keeps an entry in the risk
    profile and its recorded overall risk is never zero; hence the risk value
    used to rank the route is its recorded overall risk, never the [1.0]
    default. *)
Theorem routes_always_recorded
    (event : option DisruptionEvent) (w0 : DashboardPage.AssessWorld)
    (hs : list Handlers.Handler) :
  let s := fold_left Handlers.run hs
             (Handlers.run (Handlers.mounted event) (Handlers.FetchInitialData w0)) in
  forall route, In route DashboardPage.allRoutes ->
    exists e, DashboardPage.riskProfile s !! id route = Some e
              /\ ~ overall e == 0
              /\ DashboardPage.routeRisk (DashboardPage.riskProfile s) route = overall e.
Proof.
  intros s.
  assert (Hinv : (forall k, In k (map id DashboardPage.allRoutes) ->
                            is_Some (DashboardPage.riskProfile s !! k))
                 /\ profileNonzero (DashboardPage.riskProfile s)).
  { subst s.
    set (s0 := Handlers.run _ _).
    assert (H0 : (forall k, In k (map id DashboardPage.allRoutes) ->
                            is_Some (DashboardPage.riskProfile s0 !! k))
                 /\ profileNonzero (DashboardPage.riskProfile s0)).
    { split.
      - intros k Hk. apply run_keeps_entry; [by left | right; by eexists].
      - apply handlers_store_nonzero. apply profileNonzero_empty. }
    clearbody s0. revert s0 H0.
    induction hs as [|h hs IH]; intros s0 H0; [exact H0|].
    simpl. apply IH. destruct H0 as [Hkeys Hnz]. split.
    - intros k Hk. apply run_keeps_entry; [by left | left; by apply Hkeys].
    - by apply handlers_store_nonzero. }
  destruct Hinv as [Hkeys Hnz].
  intros route Hin.
  destruct (Hkeys (id route)) as [e He]; [by apply in_map|].
  exists e. split; [done|]. split; [by apply (Hnz (id route))|].
  apply (routeRisk_recorded _ _ _ He). by apply (Hnz (id route)).
Qed.

Lemma routes_always_recorded_witness :
  In PRIMARY_ROUTE DashboardPage.allRoutes
  /\ exists e,
       DashboardPage.riskProfile
         (fold_left Handlers.run
            [Handlers.TriggerDisruption Scenario.unreachableDisruption;
             Handlers.PollTick Scenario.unreachable]
            (Handlers.run (Handlers.mounted None)
               (Handlers.FetchInitialData (Scenario.reporting 0.1))))
         !! id PRIMARY_ROUTE = Some e
       /\ ~ overall e == 0
       /\ DashboardPage.routeRisk
            (DashboardPage.riskProfile
               (fold_left Handlers.run
                  [Handlers.TriggerDisruption Scenario.unreachableDisruption;
                   Handlers.PollTick Scenario.unreachable]
                  (Handlers.run (Handlers.mounted None)
                     (Handlers.FetchInitialData (Scenario.reporting 0.1)))))
            PRIMARY_ROUTE = overall e.
Proof.
  split; [by left|].
  apply (routes_always_recorded None (Scenario.reporting 0.1)
           [Handlers.TriggerDisruption Scenario.unreachableDisruption;
            Handlers.PollTick Scenario.unreachable] PRIMARY_ROUTE).
  by left.
Defined.

(** ** [triggerDisruption]: the analysis text it leaves *)

Section Analysis.
Import DashboardPage.

Lemma storedAnalyses_app (a b : list SetCall) :
  storedAnalyses (a ++ b) = storedAnalyses a ++ storedAnalyses b.
Proof. apply omap_app. Qed.

Lemma applyCalls_aiAnalysis (calls : list SetCall) :
  forall s, aiAnalysis (applyCalls s calls)
            = default (aiAnalysis s) (last (storedAnalyses calls)).
Proof.
  unfold applyCalls. induction calls as [|c calls IH]; intros s; [done|].
  simpl fold_left. rewrite IH.
  destruct c; try done.
  change (storedAnalyses (SetAiAnalysis text :: calls)) with (text :: storedAnalyses calls).
  by rewrite default_last_cons.
Qed.

Lemma storedAnalyses_triggerDisruption (s : State) (w : DisruptionWorld) :
  storedAnalyses (triggerDisruption s w)
  = storedAnalyses (optimizeRoutes (riskProfile s) (optimizeRoute w) (routeRandom w))
    ++ storedAnalyses (askAgent (aiAnalysis s) (optimizeRoute w) (queryVertexAI w)).
Proof.
  unfold triggerDisruption. rewrite !storedAnalyses_app.
  assert (H1 : storedAnalyses (assessPrimaryRisk (riskProfile s) (assessPrimary w)) = []).
  { unfold assessPrimaryRisk.
    destruct (assessPrimary w) as [resp|]; [destruct (okAssessment resp)|]; done. }
  assert (H2 : storedAnalyses (reroute (riskProfile s) (activeRouteId s)) = []).
  { unfold reroute. destruct (bestAlternative _); [destruct (negb _)|]; done. }
  rewrite H1, H2. by rewrite app_nil_r.
Qed.

(** The recommendation the optimisation step shows: the backend's, when the
    optimisation delivered routes and the reply carries a non-empty one. *)
Lemma storedAnalyses_optimizeRoutes (rp : RiskProfile) reply rnd :
  storedAnalyses (optimizeRoutes rp reply rnd)
  = match Reply.routesOf reply, reply with
    | Some _, Resolved resp =>
        if Js.truthyStr (backendRecommendation resp)
        then [default "" (backendRecommendation resp)] else []
    | _, _ => []
    end.
Proof.
  unfold optimizeRoutes, Reply.routesOf. destruct reply as [resp|]; [|done].
  destruct (resp ≫= _); [|done]. by destruct (Js.truthyStr _).
Qed.

End Analysis.

(** X6. The analysis text left by [triggerDisruption].  If the captured
    analysis is empty (as on the first click) or the backend sent no
    recommendation, the agent is asked, and when it answers its text is what
    remains, overriding a recommendation the backend may have sent.  If the
    agent is asked and fails, or is not asked (a backend recommendation is
    present and the captured analysis is non-empty), what remains is the
    backend's recommendation when the optimisation delivered routes together
    with one, and the captured text otherwise. *)
Theorem triggerDisruption_analysis
    (s : DashboardPage.State) (w : DashboardPage.DisruptionWorld) :
  let final := DashboardPage.aiAnalysis
                 (DashboardPage.applyCalls s (DashboardPage.triggerDisruption s w)) in
  let reply := match DashboardPage.optimizeRoute w with
               | Resolved resp => resp
               | Rejected => None
               end in
  let recommendation := DashboardPage.backendRecommendation reply in
  let shown := match Reply.routesOf (DashboardPage.optimizeRoute w) with
               | Some _ => if Js.truthyStr recommendation
                           then default "" recommendation
                           else DashboardPage.aiAnalysis s
               | None => DashboardPage.aiAnalysis s
               end in
  (forall a, DashboardPage.aiAnalysis s = "" \/ Js.truthyStr recommendation = false ->
             DashboardPage.queryVertexAI w = Resolved a -> final = a)
  /\ (DashboardPage.queryVertexAI w = Rejected -> final = shown)
  /\ (DashboardPage.aiAnalysis s <> "" -> Js.truthyStr recommendation = true ->
      final = shown).
Proof.
  intros final reply recommendation shown. subst final.
  rewrite applyCalls_aiAnalysis, storedAnalyses_triggerDisruption,
    storedAnalyses_optimizeRoutes.
  assert (Hshown : default (DashboardPage.aiAnalysis s)
             (last (match Reply.routesOf (DashboardPage.optimizeRoute w),
                          DashboardPage.optimizeRoute w with
                    | Some _, Resolved resp =>
                        if Js.truthyStr (DashboardPage.backendRecommendation resp)
                        then [default "" (DashboardPage.backendRecommendation resp)] else []
                    | _, _ => []
                    end)) = shown).
  { subst shown recommendation reply. unfold Reply.routesOf.
    destruct (DashboardPage.optimizeRoute w) as [resp|]; [|done].
    destruct (resp ≫= _); [|done]. by destruct (Js.truthyStr _). }
  assert (Hempty : Js.truthyStr (Some (DashboardPage.aiAnalysis s)) = false
                   <-> DashboardPage.aiAnalysis s = "").
  { destruct (DashboardPage.aiAnalysis s); simpl; split; done. }
  unfold DashboardPage.askAgent. fold reply. fold recommendation.
  split; [|split].
  - intros a Hasked ->.
    assert (Hcond : negb (Js.truthyStr recommendation)
                    || negb (Js.truthyStr (Some (DashboardPage.aiAnalysis s))) = true).
    { destruct Hasked as [H|H].
      - apply Hempty in H. rewrite H. by rewrite orb_true_r.
      - by rewrite H. }
    rewrite Hcond.
    change (storedAnalyses [DashboardPage.SetAiAnalysis a]) with [a].
    by rewrite last_snoc.
  - intros ->. destruct (_ || _); rewrite app_nil_r; exact Hshown.
  - intros Hne Hrec.
    assert (Hcond : negb (Js.truthyStr recommendation)
                    || negb (Js.truthyStr (Some (DashboardPage.aiAnalysis s))) = false).
    { rewrite Hrec. clear Hempty Hshown.
      destruct (DashboardPage.aiAnalysis s); [by destruct Hne | reflexivity]. }
    rewrite Hcond, app_nil_r. exact Hshown.
Qed.

(** ** Resolving an optimized route to an identifier *)

Section RouteResolution.
Import DashboardPage.

Lemma orStr_nonempty (a : option string) (b : string) : b <> "" -> Js.orStr a b <> "".
Proof.
  intros Hb. unfold Js.orStr. destruct a as [[|c t]|]; simpl; done.
Qed.

Lemma orStr_truthy (a : option string) (b : string) :
  Js.truthyStr a = true -> Js.orStr a b = default b a.
Proof. intros H. unfold Js.orStr. by rewrite H. Qed.

Lemma allRoutes_id_nonempty (fr : Route) : In fr allRoutes -> Js.truthyStr (Some (id fr)) = true.
Proof. intros Hin. simpl in Hin. destruct Hin as [<-|[<-|[<-|[<-|[<-|[]]]]]]; reflexivity. Qed.

Lemma matchingFrontendRoute_In (route : OptimizedRoute) (fr : Route) :
  matchingFrontendRoute route = Some fr -> In fr allRoutes.
Proof.
  unfold matchingFrontendRoute, Js.find.
  destruct (List.find _ allRoutes) as [fr'|] eqn:Hid.
  - intros [= <-]. by apply find_some in Hid as [? _].
  - intros Hwp. by apply find_some in Hwp as [? _].
Qed.

Lemma matchingFrontendRoute_by_id (route : OptimizedRoute) (fr : Route) :
  In fr allRoutes -> route_id route = Some (id fr) -> matchingFrontendRoute route = Some fr.
Proof.
  intros Hin Hid. unfold matchingFrontendRoute, Js.find. rewrite Hid.
  simpl in Hin. destruct Hin as [<-|[<-|[<-|[<-|[<-|[]]]]]]; reflexivity.
Qed.

End RouteResolution.

(** X7. The key under which an optimized route is stored is never the empty
    string.  A route whose [route_id] is the identifier of a front-end route
    is stored under that identifier, whatever its waypoints; any match is a
    member of [allRoutes]; a route without [route_id] and without waypoints
    is taken to be the primary route; and with no match the key is the
    route's own non-empty [route_id], else ["route-"] followed by its
    position. *)
Theorem optimizedRouteId_resolution (route : OptimizedRoute) (index : nat) :
  DashboardPage.optimizedRouteId route index <> ""
  /\ (forall fr, In fr DashboardPage.allRoutes -> route_id route = Some (id fr) ->
                 DashboardPage.optimizedRouteId route index = id fr)
  /\ (forall fr, DashboardPage.matchingFrontendRoute route = Some fr ->
                 In fr DashboardPage.allRoutes
                 /\ DashboardPage.optimizedRouteId route index = id fr)
  /\ (route_id route = None -> default [] (waypoints route) = [] ->
      DashboardPage.optimizedRouteId route index = id PRIMARY_ROUTE)
  /\ (DashboardPage.matchingFrontendRoute route = None ->
      DashboardPage.optimizedRouteId route index
      = match route_id route with
        | Some (String c rest) => String c rest
        | _ => "route-" +:+ pretty index
        end).
Proof.
  assert (Hmatch : forall fr, DashboardPage.matchingFrontendRoute route = Some fr ->
            In fr DashboardPage.allRoutes
            /\ DashboardPage.optimizedRouteId route index = id fr).
  { intros fr Hfr. pose proof (matchingFrontendRoute_In _ _ Hfr) as Hin.
    split; [done|]. unfold DashboardPage.optimizedRouteId. rewrite Hfr.
    change (id <$> Some fr) with (Some (id fr)).
    by rewrite (orStr_truthy _ _ (allRoutes_id_nonempty fr Hin)). }
  split; [|split; [|split; [|split]]].
  - unfold DashboardPage.optimizedRouteId.
    destruct (DashboardPage.matchingFrontendRoute route) as [fr|] eqn:Hfr.
    + destruct (Hmatch fr eq_refl) as [Hin _].
      change (id <$> Some fr) with (Some (id fr)).
      pose proof (allRoutes_id_nonempty fr Hin) as Hid.
      rewrite (orStr_truthy _ _ Hid). simpl. intros H. by rewrite H in Hid.
    + apply orStr_nonempty, orStr_nonempty. done.
  - intros fr Hin Hid. apply Hmatch. by apply matchingFrontendRoute_by_id.
  - exact Hmatch.
  - intros Hid Hwp. apply (Hmatch PRIMARY_ROUTE).
    unfold DashboardPage.matchingFrontendRoute. rewrite Hid, Hwp. reflexivity.
  - intros Hnone. unfold DashboardPage.optimizedRouteId. rewrite Hnone.
    unfold Js.orStr. simpl. by destruct (route_id route) as [[|c rest]|].
Qed.

(** ** [personalizedShipment]: the derived port identifiers *)

Section PortIdentifier.
Import DashboardPage.

Lemma slice0_length (n : nat) (s : string) : (String.length (Js.slice0 n s) <= n)%nat.
Proof.
  unfold Js.slice0. revert n.
  induction s as [|c s IH]; intros n; destruct n; simpl; try lia.
  specialize (IH n). lia.
Qed.

Lemma removeSpaces_length (s : string) :
  (String.length (removeSpaces s) <= String.length s)%nat.
Proof. induction s as [|c s IH]; simpl; [lia|]. destruct (isSpace c); simpl; lia. Qed.

Lemma removeSpaces_no_space (s : string) :
  allChars (fun c => negb (isSpace c)) (removeSpaces s) = true.
Proof.
  induction s as [|c s IH]; simpl; [done|].
  destruct (isSpace c) eqn:Hc; [done|]. simpl. by rewrite Hc.
Qed.

Lemma removeSpaces_allChars (p : ascii -> bool) (s : string) :
  allChars p s = true -> allChars p (removeSpaces s) = true.
Proof.
  induction s as [|c s IH]; simpl; [done|].
  intros [Hc Hs]%andb_true_iff. destruct (isSpace c); simpl; [auto|].
  rewrite Hc. auto.
Qed.

Lemma upperChar_not_lower (c : ascii) : isLowerAscii (Js.upperChar c) = false.
Proof. destruct c as [[] [] [] [] [] [] [] []]; reflexivity. Qed.

Lemma toUpperCase_no_lower (s : string) :
  allChars (fun c => negb (isLowerAscii c)) (Js.toUpperCase s) = true.
Proof.
  unfold Js.toUpperCase. induction s as [|c s IH]; [done|].
  change (negb (isLowerAscii (Js.upperChar c))
          && allChars (fun c => negb (isLowerAscii c)) (Js.mapStr Js.upperChar s) = true).
  by rewrite upperChar_not_lower, IH.
Qed.

Lemma portId_shape (name : string) :
  portIdShape (removeSpaces (Js.toUpperCase (Js.slice0 5 name))).
Proof.
  split; [|split].
  - pose proof (removeSpaces_length (Js.toUpperCase (Js.slice0 5 name))).
    pose proof (toUpperCase_length (Js.slice0 5 name)).
    pose proof (slice0_length 5 name). lia.
  - apply removeSpaces_no_space.
  - apply removeSpaces_allChars, toUpperCase_no_lower.
Qed.

End PortIdentifier.

(** X8. For every user configuration whose port names are made of ASCII
    characters, the origin and destination ports of [personalizedShipment]
    keep the configured names verbatim, and their derived identifiers have
    at most five characters, none of which is white space or a lower-case
    letter; the contents are the product, and the route and ETA are those of
    [INITIAL_SHIPMENT].  Without a configuration the shipment is
    [INITIAL_SHIPMENT]. *)
Theorem personalizedShipment_ports (cfg : UserConfiguration) :
  isAscii (cfg_origin cfg) = true ->
  isAscii (cfg_destination cfg) = true ->
  let sh := DashboardPage.personalizedShipment (Some cfg) in
  port_name (shipment_origin sh) = cfg_origin cfg
  /\ portIdShape (port_id (shipment_origin sh))
  /\ port_name (shipment_destination sh) = cfg_destination cfg
  /\ portIdShape (port_id (shipment_destination sh))
  /\ contents sh = product cfg
  /\ currentRouteId sh = id PRIMARY_ROUTE
  /\ eta sh = eta INITIAL_SHIPMENT
  /\ DashboardPage.personalizedShipment None = INITIAL_SHIPMENT.
Proof.
  intros _ _ sh.
  split; [reflexivity|]. split; [apply (portId_shape (cfg_origin cfg))|].
  split; [reflexivity|]. split; [apply (portId_shape (cfg_destination cfg))|].
  by repeat split.
Qed.

Lemma personalizedShipment_ports_witness :
  let cfg := {| product := "microchips"; cfg_origin := "Port of Taipei, Taiwan";
                cfg_destination := "los angeles" |} in
  let sh := DashboardPage.personalizedShipment (Some cfg) in
  isAscii (cfg_origin cfg) = true
  /\ isAscii (cfg_destination cfg) = true
  /\ port_id (shipment_origin sh) = "PORT"
  /\ port_id (shipment_destination sh) = "LOSA"
  /\ portIdShape (port_id (shipment_origin sh))
  /\ portIdShape (port_id (shipment_destination sh)).
Proof.
  intros cfg sh.
  destruct (personalizedShipment_ports cfg eq_refl eq_refl)
    as (_ & Ho & _ & Hd & _).
  split; [reflexivity|]. split; [reflexivity|].
  split; [reflexivity|]. split; [reflexivity|].
  split; [exact Ho | exact Hd].
Defined.

(** ** [getRandomDisruptionEvent]: which event is drawn *)

Lemma Qfloor_unique (x : Q) (z : Z) :
  inject_Z z <= x -> x < inject_Z (z + 1) -> Qfloor x = z.
Proof.
  intros Hlo Hhi.
  assert (H1 : (z <= Qfloor x)%Z).
  { apply Qfloor_resp_le in Hlo. by rewrite Qfloor_Z in Hlo. }
  assert (H2 : (Qfloor x < z + 1)%Z).
  { rewrite Zlt_Qlt. apply Qle_lt_trans with x; [apply Qfloor_le | done]. }
  lia.
Qed.

(** X9. The unit interval is cut into eight equal parts, one per event: for
    [k < 8], every draw [r] with [k/8 <= r < (k+1)/8] selects the event at
    position [k] of [DISRUPTION_EVENTS], so each of the eight events can be
    drawn. *)
Theorem getRandomDisruptionEvent_bucket (k : nat) (r : Q) :
  (k < 8)%nat ->
  inject_Z (Z.of_nat k) / 8 <= r ->
  r < inject_Z (Z.of_nat k + 1) / 8 ->
  exists e, nth_error DISRUPTION_EVENTS k = Some e /\ getRandomDisruptionEvent r = Some e.
Proof.
  intros Hk Hlo Hhi.
  assert (Hfloor : Js.floor (r * 8) = Z.of_nat k).
  { unfold Qdiv in Hlo, Hhi. change (/ 8) with (1 # 8) in Hlo, Hhi.
    apply Qfloor_unique; lra. }
  unfold getRandomDisruptionEvent, Js.index.
  change (inject_Z (Z.of_nat (length DISRUPTION_EVENTS))) with 8.
  rewrite Hfloor, Nat2Z.id.
  destruct (Z.ltb_spec (Z.of_nat k) 0) as [Hneg|_]; [lia|].
  destruct (nth_error DISRUPTION_EVENTS k) as [e|] eqn:He; [by exists e|].
  apply nth_error_None in He. change (length DISRUPTION_EVENTS) with 8%nat in He. lia.
Qed.

Lemma getRandomDisruptionEvent_bucket_witness :
  exists e, nth_error DISRUPTION_EVENTS 7 = Some e /\ getRandomDisruptionEvent 0.9 = Some e.
Proof.
  apply (getRandomDisruptionEvent_bucket 7 0.9); [lia | by vm_compute | reflexivity].
Defined.

(** ** The history timeline *)

Section Timeline.

Lemma lowerChar_upperChar (c : ascii) : Js.lowerChar (Js.upperChar c) = Js.lowerChar c.
Proof. destruct c as [[] [] [] [] [] [] [] []]; reflexivity. Qed.

Lemma lowerChar_idempotent (c : ascii) : Js.lowerChar (Js.lowerChar c) = Js.lowerChar c.
Proof. destruct c as [[] [] [] [] [] [] [] []]; reflexivity. Qed.

Lemma toLowerCase_toUpperCase (s : string) :
  Js.toLowerCase (Js.toUpperCase s) = Js.toLowerCase s.
Proof.
  unfold Js.toLowerCase, Js.toUpperCase. induction s as [|c s IH]; [done|].
  change (String (Js.lowerChar (Js.upperChar c))
            (Js.mapStr Js.lowerChar (Js.mapStr Js.upperChar s))
          = String (Js.lowerChar c) (Js.mapStr Js.lowerChar s)).
  by rewrite lowerChar_upperChar, IH.
Qed.

Lemma toLowerCase_idempotent (s : string) :
  Js.toLowerCase (Js.toLowerCase s) = Js.toLowerCase s.
Proof.
  unfold Js.toLowerCase. induction s as [|c s IH]; [done|].
  change (String (Js.lowerChar (Js.lowerChar c))
            (Js.mapStr Js.lowerChar (Js.mapStr Js.lowerChar s))
          = String (Js.lowerChar c) (Js.mapStr Js.lowerChar s)).
  by rewrite lowerChar_idempotent, IH.
Qed.

Lemma toLowerCase_app (a b : string) :
  Js.toLowerCase (a +:+ b) = Js.toLowerCase a +:+ Js.toLowerCase b.
Proof.
  unfold Js.toLowerCase. induction a as [|c a IH]; [done|].
  change (String (Js.lowerChar c) (Js.mapStr Js.lowerChar (a +:+ b))
          = String (Js.lowerChar c) (Js.mapStr Js.lowerChar a +:+ Js.mapStr Js.lowerChar b)).
  by rewrite IH.
Qed.

Lemma prefix_app (sub s t : string) :
  String.prefix sub s = true -> String.prefix sub (s +:+ t) = true.
Proof.
  revert s. induction sub as [|c sub IH]; intros s.
  { intros _. by destruct (s +:+ t). }
  destruct s as [|d s]; [intros H; discriminate H|].
  change (match Ascii.ascii_dec c d with left _ => String.prefix sub s | right _ => false end
          = true ->
          match Ascii.ascii_dec c d with
          | left _ => String.prefix sub (s +:+ t) | right _ => false end = true).
  destruct (Ascii.ascii_dec c d); [apply IH | done].
Qed.

Lemma includes_app_l (s t sub : string) :
  Js.includes s sub = true -> Js.includes (s +:+ t) sub = true.
Proof.
  induction s as [|c s IH].
  - change (String.prefix sub "" || false = true -> Js.includes ("" +:+ t) sub = true).
    rewrite orb_false_r. intros H.
    destruct sub as [|a sub]; [by destruct t | simpl in H; discriminate H].
  - change (String.prefix sub (String c s) || Js.includes s sub = true ->
            String.prefix sub (String c (s +:+ t)) || Js.includes (s +:+ t) sub = true).
    intros [H|H]%orb_true_iff.
    + pose proof (prefix_app sub (String c s) t H) as Hp.
      change (String c s +:+ t) with (String c (s +:+ t)) in Hp. by rewrite Hp.
    + rewrite (IH H). apply orb_true_r.
Qed.

Lemma includes_app_r (s t sub : string) :
  Js.includes t sub = true -> Js.includes (s +:+ t) sub = true.
Proof.
  intros H. induction s as [|c s IH]; [done|].
  change (String.prefix sub (String c (s +:+ t)) || Js.includes (s +:+ t) sub = true).
  rewrite IH. apply orb_true_r.
Qed.

End Timeline.

(** X10. [getIconForMessage] does not depend on the case of ASCII letters: a
    message, its upper-case form and its lower-case form get the same icon.
    The creation message of every shipment identifier gets the memo icon; a
    disruption message gets the warning icon unless the event name contains
    "created" (in any case), which holds for the eight scripted events. *)
Theorem getIconForMessage_case_insensitive :
  (forall m, HistoryView.getIconForMessage (Js.toUpperCase m)
             = HistoryView.getIconForMessage m
             /\ HistoryView.getIconForMessage (Js.toLowerCase m)
                = HistoryView.getIconForMessage m)
  /\ (forall shipmentId,
        HistoryView.getIconForMessage (EventMessage.shipmentCreated shipmentId)
        = HistoryView.getIconForMessage "created")
  /\ (forall e, Js.includes (Js.toLowerCase (event_name e)) "created" = false ->
        HistoryView.getIconForMessage (EventMessage.disruptionDetected e)
        = HistoryView.getIconForMessage "disruption")
  /\ (forall e, In e DISRUPTION_EVENTS ->
        HistoryView.getIconForMessage (EventMessage.disruptionDetected e)
        = HistoryView.getIconForMessage "disruption").
Proof.
  split; [|split; [|split]].
  - intros m. unfold HistoryView.getIconForMessage.
    by rewrite toLowerCase_toUpperCase, toLowerCase_idempotent.
  - intros shipmentId. unfold HistoryView.getIconForMessage, EventMessage.shipmentCreated.
    rewrite !toLowerCase_app.
    rewrite (includes_app_r _ _ "created"); [reflexivity|].
    apply includes_app_r, includes_app_l. reflexivity.
  - intros e Hno. unfold HistoryView.getIconForMessage, EventMessage.disruptionDetected.
    rewrite toLowerCase_app.
    assert (Hcreated : Js.includes
              (Js.toLowerCase "DISRUPTION DETECTED: " +:+ Js.toLowerCase (event_name e))
              "created" = false) by exact Hno.
    rewrite Hcreated.
    rewrite (includes_app_l _ _ "disruption"); reflexivity.
  - intros e Hin. simpl in Hin.
    destruct Hin as [<-|[<-|[<-|[<-|[<-|[<-|[<-|[<-|[]]]]]]]]]; reflexivity.
Qed.

(** X11. The history page lists the events newest first: after
    [addEvent(m)] the first line of the timeline is the new event with its
    icon, followed by the lines shown before.  The placeholder is shown
    exactly when the history is empty, so never after an [addEvent]; the
    timeline shows every entry once, in reverse order of logging, and leaves
    the history itself as it was. *)
Theorem timeline_newest_first :
  (forall m now prev,
      HistoryView.timeline (addEvent m now prev)
      = Some ((HistoryView.getIconForMessage m, {| message := m; timestamp := now |})
                :: default [] (HistoryView.timeline prev)))
  /\ (forall history, HistoryView.timeline history = None <-> history = [])
  /\ (forall history shown,
        HistoryView.timeline history = Some shown ->
        map snd shown = rev history /\ length shown = length history)
  /\ (forall s m now,
        HistoryView.timeline (eventHistory (appStep s (AddEvent m now)))
        = Some ((HistoryView.getIconForMessage m, {| message := m; timestamp := now |})
                  :: default [] (HistoryView.timeline (eventHistory s)))).
Proof.
  assert (Hadd : forall m now prev,
      HistoryView.timeline (addEvent m now prev)
      = Some ((HistoryView.getIconForMessage m, {| message := m; timestamp := now |})
                :: default [] (HistoryView.timeline prev))).
  { intros m now prev. unfold HistoryView.timeline, addEvent.
    rewrite length_app, rev_unit. simpl length.
    replace (0 <? length prev + 1)%nat with true by (symmetry; apply Nat.ltb_lt; lia).
    destruct prev as [|e prev]; [reflexivity|]. reflexivity. }
  split; [exact Hadd|]. split; [|split].
  - intros history. unfold HistoryView.timeline.
    destruct history as [|e history]; [done|]. simpl. split; discriminate.
  - intros history shown. unfold HistoryView.timeline.
    destruct (0 <? length history)%nat; [|discriminate].
    intros [= <-]. split.
    + rewrite map_map. simpl. apply map_id.
    + by rewrite length_map, length_rev.
  - intros s m now. apply Hadd.
Qed.

(** ** The risk bar of the dashboard *)

Section RiskBar.

Lemma Qle_bool_false (x y : Q) : Qle_bool x y = false <-> y < x.
Proof.
  split.
  - intros H. apply Qnot_le_lt. intros Hle. apply Qle_bool_iff in Hle. congruence.
  - intros H. destruct (Qle_bool x y) eqn:E; [|done].
    apply Qle_bool_iff in E. lra.
Qed.

Lemma barColor_cases (v : Q) :
  (v <= 0.3 /\ Dashboard.barColor v = "bg-green-500")
  \/ (0.3 < v /\ v <= 0.6 /\ Dashboard.barColor v = "bg-yellow-500")
  \/ (0.6 < v /\ Dashboard.barColor v = "bg-red-500").
Proof.
  unfold Dashboard.barColor.
  destruct (Qle_bool v 0.3) eqn:E3; destruct (Qle_bool v 0.6) eqn:E6; simpl.
  - left. by apply Qle_bool_iff in E3.
  - right. right. by apply Qle_bool_false in E6.
  - right. left. apply Qle_bool_false in E3. by apply Qle_bool_iff in E6.
  - right. right. by apply Qle_bool_false in E6.
Qed.

End RiskBar.

(** X12. The risk bar is green for values up to [0.3] inclusive, yellow
    above [0.3] and up to [0.6] inclusive, red above [0.6].  A route without
    an entry in the risk profile is displayed at risk [0] (a green bar) while
    the routing of [triggerDisruption] ranks it at [1.0].  After a click
    whose optimisation delivered routes, the primary route, if it had an
    entry, is displayed with a red bar. *)
Theorem riskBar_colours :
  (forall v, (Dashboard.barColor v = "bg-green-500" <-> v <= 0.3)
             /\ (Dashboard.barColor v = "bg-yellow-500" <-> 0.3 < v /\ v <= 0.6)
             /\ (Dashboard.barColor v = "bg-red-500" <-> 0.6 < v))
  /\ (forall (rp : RiskProfile) route, rp !! id route = None ->
        Dashboard.shownRisk rp route = 0
        /\ Dashboard.barColor (Dashboard.shownRisk rp route) = "bg-green-500"
        /\ DashboardPage.routeRisk rp route = 1.0)
  /\ (forall s w routes,
        Reply.routesOf (DashboardPage.optimizeRoute w) = Some routes ->
        is_Some (DashboardPage.riskProfile s !! id PRIMARY_ROUTE) ->
        Dashboard.barColor
          (Dashboard.shownRisk
             (DashboardPage.riskProfile
                (DashboardPage.applyCalls s (DashboardPage.triggerDisruption s w)))
             PRIMARY_ROUTE)
        = "bg-red-500").
Proof.
  split; [|split].
  - intros v.
    destruct (barColor_cases v) as [[H ->]|[(H1 & H2 & ->)|[H ->]]];
      repeat split; intros; try done; try lra.
  - intros rp route Hnone. unfold Dashboard.shownRisk, DashboardPage.routeRisk.
    rewrite Hnone. by repeat split.
  - intros s w routes Hroutes Hprim.
    rewrite triggerDisruption_final_profile, Hroutes.
    unfold Dashboard.shownRisk. rewrite raisePrimary_lookup_primary.
    assert (Hu : is_Some (DashboardPage.optimizedLoop (DashboardPage.routeRandom w) routes 0
                            (DashboardPage.riskProfile s) !! id PRIMARY_ROUTE))
      by by apply optimizedLoop_keeps_entry.
    destruct Hu as [e ->].
    set (v := Js.max 0.75 (overall e)).
    assert (Hv : 0.75 <= v) by apply max_lower_l.
    change (Dashboard.barColor (Js.orNum (Some v) 0) = "bg-red-500").
    destruct (orNum_cases (Some v) 0) as [[H _]|[(x & [= <-] & Hz & _)|(x & [= <-] & _ & ->)]];
      [done | lra |].
    destruct (barColor_cases v) as [[H _]|[(_ & H & _)|[_ ->]]]; [lra | lra | done].
Qed.

(** ** The AI services *)

Section AiServices.
Import DashboardPage.

Lemma truthyStr_nonempty (t : string) : Js.truthyStr (Some t) = true <-> t <> "".
Proof. destruct t; simpl; split; done. Qed.

(** When the agent is asked and answers, its text is what remains. *)
Lemma triggerDisruption_agent_answer (s : State) (w : DisruptionWorld) (a : string) :
  aiAnalysis s = "" ->
  queryVertexAI w = Resolved a ->
  aiAnalysis (applyCalls s (triggerDisruption s w)) = a.
Proof.
  intros Hempty Hagent.
  rewrite applyCalls_aiAnalysis, storedAnalyses_triggerDisruption.
  unfold askAgent. rewrite Hempty, Hagent, orb_true_r.
  change (storedAnalyses [SetAiAnalysis a]) with [a]. by rewrite last_snoc.
Qed.

End AiServices.

(** X13. [queryVertexAI] resolves with a text exactly when the request
    resolved with an OK status and a JSON body whose [success] flag is set and
    whose [response] is that text, non-empty; in every other case (network
    error, error status, unreadable or null body, unsuccessful or empty
    reply) it rejects.  Hence, on a click with an empty captured analysis,
    an agent answer obtained through [queryVertexAI] leaves a non-empty
    analysis text. *)
Theorem queryVertexAI_resolves :
  (forall fetch t,
      VertexAIService.queryVertexAI fetch = Resolved t
      <-> exists response data,
            fetch = Resolved response
            /\ Http.ok response = true
            /\ Http.json response = Resolved (Some data)
            /\ VertexAIService.data_success data = true
            /\ VertexAIService.data_response data = Some t
            /\ t <> "")
  /\ (forall s w fetch a,
        DashboardPage.queryVertexAI w = VertexAIService.queryVertexAI fetch ->
        DashboardPage.aiAnalysis s = "" ->
        VertexAIService.queryVertexAI fetch = Resolved a ->
        DashboardPage.aiAnalysis
          (DashboardPage.applyCalls s (DashboardPage.triggerDisruption s w)) = a
        /\ a <> "").
Proof.
  assert (Hiff : forall fetch t,
      VertexAIService.queryVertexAI fetch = Resolved t
      <-> exists response data,
            fetch = Resolved response
            /\ Http.ok response = true
            /\ Http.json response = Resolved (Some data)
            /\ VertexAIService.data_success data = true
            /\ VertexAIService.data_response data = Some t
            /\ t <> "").
  { intros fetch t. unfold VertexAIService.queryVertexAI. split.
    - destruct fetch as [response|]; [|done].
      destruct (Http.ok response) eqn:Hok; [|done]. simpl.
      destruct (Http.json response) as [[data|]|] eqn:Hjson; try done.
      destruct (VertexAIService.data_success data) eqn:Hs; [|done]. simpl.
      destruct (VertexAIService.data_response data) as [t'|] eqn:Hr; [|done].
      destruct (Js.truthyStr (Some t')) eqn:Ht; [|done].
      intros [= <-]. exists response, data.
      repeat split; try done. by apply truthyStr_nonempty.
    - intros (response & data & -> & Hok & Hjson & Hs & Hr & Hne).
      rewrite Hok, Hjson, Hs, Hr. simpl.
      apply truthyStr_nonempty in Hne. simpl in Hne. by rewrite Hne. }
  split; [exact Hiff|].
  intros s w fetch a Hw Hempty Ha. split.
  - apply triggerDisruption_agent_answer; [done|]. by rewrite Hw.
  - apply Hiff in Ha as (_ & _ & _ & _ & _ & _ & _ & Hne). exact Hne.
Qed.

(** X14. [getPerplexityAnalysis], with its fallback wired to
    [getDirectPerplexityAnalysis]: when the backend agent answers
    successfully the result is the agent's text and no key is needed;
    whenever the function resolves, the text is non-empty; and it rejects
    only if the agent query failed, a key is configured and the direct call
    rejected. *)
Theorem getPerplexityAnalysis_outcomes
    (apiKey : option string)
    (queryAgent : string -> Outcome (option PerplexityService.AgentResponse))
    (fetch : string -> Outcome (Http.Response (option PerplexityDirect.Completion)))
    (prompt : string) :
  let result := getPerplexityAnalysisDirect apiKey queryAgent fetch prompt in
  (forall r t, queryAgent prompt = Resolved (Some r) ->
     PerplexityService.agent_success r = true ->
     PerplexityService.agent_response r = Some t -> t <> "" ->
     result = Resolved t)
  /\ (forall t, result = Resolved t -> t <> "")
  /\ (result = Rejected ->
      agentQueryFailed (queryAgent prompt)
      /\ Js.truthyStr apiKey = true
      /\ PerplexityDirect.getDirectPerplexityAnalysis apiKey (fetch prompt) = Rejected).
Proof.
  intros result. subst result.
  unfold getPerplexityAnalysisDirect, PerplexityService.getPerplexityAnalysis.
  assert (Hdirect : forall t,
            PerplexityDirect.getDirectPerplexityAnalysis apiKey (fetch prompt) = Resolved t ->
            t <> "").
  { intros t. unfold PerplexityDirect.getDirectPerplexityAnalysis.
    destruct (negb (Js.truthyStr apiKey)); [done|].
    destruct (fetch prompt) as [response|]; [|done].
    destruct (negb (Http.ok response)); [done|].
    destruct (Http.json response) as [[data|]|]; try done.
    destruct (PerplexityDirect.choices data) as [cs|]; [|done].
    intros [= <-]. unfold PerplexityDirect.firstContent. by apply orStr_nonempty. }
  assert (Hfallback : forall t,
            (if Js.truthyStr apiKey
             then PerplexityDirect.getDirectPerplexityAnalysis apiKey (fetch prompt)
             else Resolved PerplexityService.mockResponse) = Resolved t -> t <> "").
  { intros t. destruct (Js.truthyStr apiKey); [apply Hdirect|]. by intros [= <-]. }
  assert (Hrejected :
            (if Js.truthyStr apiKey
             then PerplexityDirect.getDirectPerplexityAnalysis apiKey (fetch prompt)
             else Resolved PerplexityService.mockResponse) = Rejected ->
            Js.truthyStr apiKey = true
            /\ PerplexityDirect.getDirectPerplexityAnalysis apiKey (fetch prompt) = Rejected).
  { destruct (Js.truthyStr apiKey); [done | discriminate]. }
  split; [|split].
  - intros r t -> Hs Hr Hne. rewrite Hs, Hr.
    apply truthyStr_nonempty in Hne. by rewrite Hne.
  - intros t. destruct (queryAgent prompt) as [[r|]|]; try apply Hfallback.
    destruct (PerplexityService.agent_success r && _) eqn:Hok; [|apply Hfallback].
    apply andb_true_iff in Hok as [_ Hok].
    destruct (PerplexityService.agent_response r) as [t'|]; [|done].
    intros [= <-]. by apply truthyStr_nonempty.
  - destruct (queryAgent prompt) as [[r|]|] eqn:Hq; simpl; try (intros H; by apply Hrejected in H).
    destruct (PerplexityService.agent_success r && _) eqn:Hok; [done|].
    intros H. by apply Hrejected in H.
Qed.

(** ** Authentication and onboarding *)

Section Onboarding.
Import DashboardPage OnboardingPage.

Lemma trimStart_allChars (s : string) :
  allChars isSpace (trimStart s) = allChars isSpace s.
Proof.
  induction s as [|c s IH]; [done|]. simpl.
  destruct (isSpace c) eqn:Hc; [exact IH|]. simpl. by rewrite Hc.
Qed.

Lemma trimEnd_empty (s : string) : trimEnd s = "" <-> allChars isSpace s = true.
Proof.
  induction s as [|c s IH]; [done|]. simpl.
  destruct (trimEnd s) as [|d kept] eqn:Hs.
  - destruct (isSpace c); simpl.
    + split; [intros _; by apply IH | done].
    + split; done.
  - split; [done|]. intros [_ H]%andb_true_iff. apply IH in H. done.
Qed.

Lemma trim_blank (s : string) : String.eqb (trim s) "" = allChars isSpace s.
Proof.
  unfold trim. rewrite <- trimStart_allChars.
  destruct (allChars isSpace (trimStart s)) eqn:H.
  - apply trimEnd_empty in H. by rewrite H.
  - apply String.eqb_neq. intros Hempty. apply trimEnd_empty in Hempty. congruence.
Qed.

Lemma handleSubmit_cases (f : Form) :
  handleSubmit f =
    if filled (form_product f) && filled (form_origin f) && filled (form_destination f)
    then [SetUserConfig (Some {| product := form_product f;
                                 cfg_origin := form_origin f;
                                 cfg_destination := form_destination f |});
          Navigate dashboard]
    else [].
Proof.
  unfold handleSubmit, filled. rewrite !trim_blank.
  by destruct (allChars isSpace (form_product f)),
              (allChars isSpace (form_origin f)),
              (allChars isSpace (form_destination f)).
Qed.

Lemma userStep_configFilled (s : AppState) (e : UserEvent) :
  configFilled (userConfig s) -> configFilled (userConfig (userStep s e)).
Proof.
  intros Hs. destruct e as [[]|f|p|t|m now]; try exact Hs; try exact I.
  unfold userStep, userActions. rewrite handleSubmit_cases.
  destruct (filled (form_product f)) eqn:H1; [|exact Hs].
  destruct (filled (form_origin f)) eqn:H2; [|exact Hs].
  destruct (filled (form_destination f)) eqn:H3; [|exact Hs].
  simpl. by rewrite H1, H2, H3.
Qed.

Lemma userSteps_configFilled (events : list UserEvent) (s : AppState) :
  configFilled (userConfig s) -> configFilled (userConfig (fold_left userStep events s)).
Proof.
  revert s. induction events as [|e events IH]; intros s Hs; [exact Hs|].
  simpl. apply IH. by apply userStep_configFilled.
Qed.

End Onboarding.

(** X15. Take any history of user actions and a form, all filled in with
    ASCII characters.  Submitting the form with a field that is empty or all
    white space changes nothing; with three filled fields it stores them
    exactly as typed and opens the dashboard.  Signing up clears the
    configuration and opens the onboarding form; logging in keeps it.
    Hence after that history a stored configuration has three filled
    fields, and the shipment the dashboard derives from it has filled
    contents and port names. *)
Theorem onboarding_stores_filled_fields
    (events : list UserEvent) (f : OnboardingPage.Form) :
  Forall (fun e => asciiEvent e = true) events ->
  asciiForm f = true ->
  let s := fold_left userStep events initialApp in
  let shipment := DashboardPage.personalizedShipment (userConfig s) in
  (forall s0,
      filled (OnboardingPage.form_product f) = false
      \/ filled (OnboardingPage.form_origin f) = false
      \/ filled (OnboardingPage.form_destination f) = false ->
      userStep s0 (SubmitOnboarding f) = s0)
  /\ (forall s0,
        filled (OnboardingPage.form_product f) = true ->
        filled (OnboardingPage.form_origin f) = true ->
        filled (OnboardingPage.form_destination f) = true ->
        userStep s0 (SubmitOnboarding f) =
          {| page := dashboard; theme := theme s0; eventHistory := eventHistory s0;
             userConfig := Some {| product := OnboardingPage.form_product f;
                                   cfg_origin := OnboardingPage.form_origin f;
                                   cfg_destination := OnboardingPage.form_destination f |} |})
  /\ (forall s0,
        userStep s0 (SubmitAuth false) =
          {| page := onboarding; theme := theme s0; eventHistory := eventHistory s0;
             userConfig := None |}
        /\ userStep s0 (SubmitAuth true) =
             {| page := dashboard; theme := theme s0; eventHistory := eventHistory s0;
                userConfig := userConfig s0 |})
  /\ configFilled (userConfig s)
  /\ filled (contents shipment) = true
  /\ filled (port_name (shipment_origin shipment)) = true
  /\ filled (port_name (shipment_destination shipment)) = true.
Proof.
  intros _ _ s shipment.
  split; [|split; [|split]].
  - intros s0 H. unfold userStep, userActions. rewrite handleSubmit_cases.
    destruct H as [-> | [-> | ->]]; [done| |].
    + by rewrite andb_false_r.
    + by rewrite andb_false_r.
  - intros s0 H1 H2 H3. unfold userStep, userActions.
    rewrite handleSubmit_cases, H1, H2, H3. reflexivity.
  - intros s0. split; reflexivity.
  - assert (Hs : configFilled (userConfig s)).
    { apply userSteps_configFilled. exact I. }
    split; [exact Hs|]. subst shipment.
    destruct (userConfig s) as [cfg|]; [|by vm_compute].
    destruct Hs as (H1 & H2 & H3). by simpl.
Qed.

Lemma onboarding_stores_filled_fields_witness :
  let typed := {| OnboardingPage.form_product := "microchips";
                  OnboardingPage.form_origin := "Port of Taipei, Taiwan";
                  OnboardingPage.form_destination := " Los Angeles " |} in
  let blank := {| OnboardingPage.form_product := "microchips";
                  OnboardingPage.form_origin := "   ";
                  OnboardingPage.form_destination := "Los Angeles" |} in
  let events := [Follow auth; SubmitAuth false; SubmitOnboarding typed] in
  let s := fold_left userStep events initialApp in
  Forall (fun e => asciiEvent e = true) events
  /\ asciiForm blank = true
  /\ page s = dashboard
  /\ userConfig s = Some {| product := "microchips";
                            cfg_origin := "Port of Taipei, Taiwan";
                            cfg_destination := " Los Angeles " |}
  /\ userStep s (SubmitOnboarding blank) = s
  /\ configFilled (userConfig s).
Proof.
  intros typed blank events s.
  assert (Hevents : Forall (fun e => asciiEvent e = true) events)
    by (repeat constructor).
  destruct (onboarding_stores_filled_fields events blank Hevents eq_refl)
    as (Hblank & _ & _ & Hfilled & _).
  split; [exact Hevents|]. split; [reflexivity|].
  split; [reflexivity|]. split; [reflexivity|].
  split; [|exact Hfilled].
  apply Hblank. right. left. reflexivity.
Defined.

(** ** The route map *)

Section RouteMapPaths.
Import RouteMap.
Local Open Scope Q_scope.

Lemma pushed_length (c : option LatLng) : (length (pushed c) <= 1)%nat.
Proof.
  destruct c as [c|]; simpl; [|lia].
  destruct (negb (Qeq_bool (lat c) 0) && negb (Qeq_bool (lng c) 0)); simpl; lia.
Qed.

Lemma pushed_nonzero (c : option LatLng) (p : LatLng) :
  In p (pushed c) -> ~ lat p == 0 /\ ~ lng p == 0.
Proof.
  destruct c as [c|]; simpl; [|done].
  destruct (negb (Qeq_bool (lat c) 0) && negb (Qeq_bool (lng c) 0)) eqn:H; [|done].
  intros [<-|[]]. apply andb_true_iff in H as [Hlat Hlng].
  apply negb_true_iff in Hlat, Hlng.
  split; intros Heq; apply Qeq_bool_iff in Heq; congruence.
Qed.

Lemma flat_map_pushed_length (f : Port -> option LatLng) (ss : list Port) :
  (length (flat_map (fun stop => pushed (f stop)) ss) <= length ss)%nat.
Proof.
  induction ss as [|stop ss IH]; simpl; [lia|].
  rewrite length_app. pose proof (pushed_length (f stop)). lia.
Qed.

Lemma polyline_colour (portCoords table : gmap string LatLng)
    (activeRouteId : string) (routes : list Route) (pl : Polyline) :
  In (Some pl) (polylines portCoords table activeRouteId routes) ->
  (strokeColor pl = "#06b6d4" <-> polyline_key pl = activeRouteId).
Proof.
  unfold polylines. rewrite in_map_iff. intros (route & Hpl & _).
  destruct (length (routePath portCoords table route) <? 2)%nat; [done|].
  injection Hpl as <-. simpl. unfold getRouteColor.
  destruct (String.eqb (id route) activeRouteId) eqn:E.
  - apply String.eqb_eq in E. done.
  - apply String.eqb_neq in E. split; [done | by intros].
Qed.

Lemma getPortCoordinates_known (table : gmap string LatLng)
    (geocodePort : string -> option LatLng) (portName : string) (c : LatLng) :
  table !! portName = Some c ->
  getPortCoordinates table geocodePort portName = (table, c).
Proof. intros H. unfold getPortCoordinates. by rewrite H. Qed.

(** When every port is in the table, loading neither consults the geocoder
    nor changes the table, and stores the table's own coordinates. *)
Lemma loadCoordinates_fold_known (table : gmap string LatLng)
    (geocodePort : string -> option LatLng) (names : list string)
    (coords : gmap string LatLng) :
  Forall (fun n => is_Some (table !! n)) names ->
  (forall n c, coords !! n = Some c -> table !! n = Some c) ->
  let loaded :=
    fold_left
      (fun acc portName =>
         let '(table', c) := getPortCoordinates (fst acc) geocodePort portName in
         (table', <[portName := c]> (snd acc)))
      names (table, coords) in
  fst loaded = table
  /\ forall n c, snd loaded !! n = Some c -> table !! n = Some c.
Proof.
  intros Hnames. revert coords.
  induction Hnames as [|name names [c Hc] _ IH]; intros coords Hcoords; [done|].
  simpl. rewrite (getPortCoordinates_known _ _ _ _ Hc).
  apply IH. intros n c'. destruct (decide (n = name)) as [->|Hne].
  - rewrite lookup_insert_eq. intros [= <-]. exact Hc.
  - rewrite lookup_insert_ne by done. apply Hcoords.
Qed.

Lemma loadCoordinates_known (table : gmap string LatLng)
    (geocodePort : string -> option LatLng) (routes : list Route) :
  Forall (fun n => is_Some (table !! n)) (uniquePorts routes) ->
  fst (loadCoordinates table geocodePort routes) = table
  /\ forall n c, snd (loadCoordinates table geocodePort routes) !! n = Some c ->
                 table !! n = Some c.
Proof.
  intros Hnames. unfold loadCoordinates.
  by apply (loadCoordinates_fold_known table geocodePort (uniquePorts routes) ∅).
Qed.

Lemma lookupCoords_loaded (table coords : gmap string LatLng) (name : string) :
  (forall n c, coords !! n = Some c -> table !! n = Some c) ->
  lookupCoords coords table name = lookupCoords ∅ table name.
Proof.
  intros H. unfold lookupCoords. rewrite lookup_empty.
  destruct (coords !! name) as [c|] eqn:E; [|done]. symmetry. by apply H.
Qed.

Lemma routePath_loaded (table coords : gmap string LatLng) (route : Route) :
  (forall n c, coords !! n = Some c -> table !! n = Some c) ->
  routePath coords table route = routePath ∅ table route.
Proof.
  intros H. unfold routePath. rewrite !(lookupCoords_loaded table coords) by done.
  destruct (stops route) as [ss|]; [|done].
  do 2 f_equal. induction ss as [|stop ss IH]; [done|]. simpl.
  by rewrite IH, (lookupCoords_loaded table coords).
Qed.

Lemma polylines_loaded (table coords : gmap string LatLng)
    (activeRouteId : string) (routes : list Route) :
  (forall n c, coords !! n = Some c -> table !! n = Some c) ->
  polylines coords table activeRouteId routes = polylines ∅ table activeRouteId routes.
Proof.
  intros H. unfold polylines. apply map_ext. intros route.
  by rewrite (routePath_loaded table coords).
Qed.

Lemma allRoutes_ports_known :
  Forall (fun n => is_Some (PORT_COORDINATES !! n)) (uniquePorts DashboardPage.allRoutes).
Proof.
  set (names := uniquePorts DashboardPage.allRoutes). vm_compute in names. subst names.
  repeat (constructor; [vm_compute; eauto|]). constructor.
Qed.

End RouteMapPaths.

(** X16. Every point of a route path has a non-zero latitude and a non-zero
    longitude, and a path has at most one point per port of the route.  For
    the routes of the application the static table knows every port:
    loading the coordinates leaves the table as it was whatever the geocoder
    answers, every path is complete and the same as before loading, and each
    of the five routes gets a polyline, drawn in the active colour exactly
    when it is the active route. *)
Theorem routePaths_complete :
  (forall portCoords table route,
      (length (RouteMap.routePath portCoords table route)
       <= 2 + length (default [] (stops route)))%nat
      /\ forall p, In p (RouteMap.routePath portCoords table route) ->
                   ~ (RouteMap.lat p == 0)%Q /\ ~ (RouteMap.lng p == 0)%Q)
  /\ (forall geocodePort,
        let loaded :=
          RouteMap.loadCoordinates RouteMap.PORT_COORDINATES geocodePort
            DashboardPage.allRoutes in
        fst loaded = RouteMap.PORT_COORDINATES
        /\ (forall route, In route DashboardPage.allRoutes ->
              RouteMap.routePath (snd loaded) (fst loaded) route
              = RouteMap.routePath ∅ RouteMap.PORT_COORDINATES route
              /\ length (RouteMap.routePath (snd loaded) (fst loaded) route)
                 = (2 + length (default [] (stops route)))%nat)
        /\ forall activeRouteId,
             map (fun pl => RouteMap.polyline_key <$> pl)
                 (RouteMap.polylines (snd loaded) (fst loaded) activeRouteId
                    DashboardPage.allRoutes)
             = map (fun route => Some (id route)) DashboardPage.allRoutes)
  /\ (forall portCoords table activeRouteId routes pl,
        In (Some pl) (RouteMap.polylines portCoords table activeRouteId routes) ->
        (RouteMap.strokeColor pl = "#06b6d4" <-> RouteMap.polyline_key pl = activeRouteId)).
Proof.
  split; [|split].
  - intros portCoords table route. unfold RouteMap.routePath. split.
    + rewrite !length_app.
      pose proof (pushed_length
        (RouteMap.lookupCoords portCoords table (port_name (origin route)))).
      pose proof (pushed_length
        (RouteMap.lookupCoords portCoords table (port_name (destination route)))).
      destruct (stops route) as [ss|]; simpl; [|lia].
      pose proof (flat_map_pushed_length
        (fun stop => RouteMap.lookupCoords portCoords table (port_name stop)) ss).
      lia.
    + intros p. rewrite !in_app_iff. intros [H|[H|H]].
      * by apply pushed_nonzero in H.
      * destruct (stops route) as [ss|]; [|done].
        apply in_flat_map in H as (stop & _ & H). by apply pushed_nonzero in H.
      * by apply pushed_nonzero in H.
  - intros geocodePort loaded. subst loaded.
    destruct (loadCoordinates_known RouteMap.PORT_COORDINATES geocodePort
                DashboardPage.allRoutes allRoutes_ports_known) as [Htable Hcoords].
    split; [exact Htable|]. rewrite Htable. split.
    + intros route Hroute. rewrite (routePath_loaded _ _ _ Hcoords).
      split; [reflexivity|]. simpl in Hroute.
      destruct Hroute as [<-|[<-|[<-|[<-|[<-|[]]]]]]; vm_compute; reflexivity.
    + intros activeRouteId. rewrite (polylines_loaded _ _ _ _ Hcoords).
      vm_compute. reflexivity.
  - apply polyline_colour.
Qed.

Section RiskMarkers.
Import RouteMap.
Local Open Scope Q_scope.

Lemma orNum_nonzero (a : option Q) (b : Q) : ~ b == 0 -> ~ Js.orNum a b == 0.
Proof.
  intros Hb. unfold Js.orNum. destruct a as [x|]; [|exact Hb].
  destruct (Qeq_bool x 0) eqn:E; [exact Hb|].
  intros H. apply Qeq_bool_iff in H. congruence.
Qed.

Lemma located_position (point : RiskDataPoint) (index : nat) :
  located point = true ->
  latitude point = Some (lat (position (riskMarker index point)))
  /\ longitude point = Some (lng (position (riskMarker index point)))
  /\ ~ lat (position (riskMarker index point)) == 0
  /\ ~ lng (position (riskMarker index point)) == 0.
Proof.
  unfold located. simpl.
  destruct (latitude point) as [la|]; [|done].
  destruct (longitude point) as [lo|]; [|done]. simpl.
  intros [Hla Hlo]%andb_true_iff. apply negb_true_iff in Hla, Hlo.
  repeat split; intros H; apply Qeq_bool_iff in H; congruence.
Qed.

Lemma imap_marker_ids (f : nat -> nat) (points : list RiskDataPoint) :
  map marker_id (imap (fun i => riskMarker (f i)) points)
  = map (fun i => "risk-" +:+ pretty (f i)) (seq 0 (length points)).
Proof.
  revert f. induction points as [|point points IH]; intros f; [done|].
  simpl. f_equal. rewrite <- seq_shift, map_map. apply (IH (f ∘ S)).
Qed.

Lemma marker_ids_NoDup (n : nat) :
  NoDup (map (fun i => "risk-" +:+ pretty i) (seq 0 n)).
Proof.
  apply NoDup_fmap_2; [|apply NoDup_seq].
  intros i j H. apply (inj (String.append "risk-")) in H. by apply (inj pretty) in H.
Qed.

Lemma imap_positions (mk : nat -> RiskDataPoint -> RiskMarker)
    (points : list RiskDataPoint) :
  Forall (fun p => located p = true) points ->
  (forall i p, located p = true ->
     latitude p = Some (lat (position (mk i p)))
     /\ longitude p = Some (lng (position (mk i p)))) ->
  map (fun m => (Some (lat (position m)), Some (lng (position m)))) (imap mk points)
  = map (fun p => (latitude p, longitude p)) points.
Proof.
  intros Hpoints. revert mk.
  induction Hpoints as [|p ps Hp _ IH]; intros mk Hmk; [done|].
  simpl. f_equal.
  - destruct (Hmk 0%nat p Hp) as [-> ->]. reflexivity.
  - apply (IH (fun i => mk (S i))). intros i q Hq. apply (Hmk (S i) q Hq).
Qed.

End RiskMarkers.

(** X17. The risk markers are the data points that carry both a latitude
    and a longitude different from zero, in their order and at their
    coordinates; a point on the equator or on the prime meridian is not
    shown.  The markers are numbered [risk-0], [risk-1], ... without
    repetition after the filtering, and a marker never has severity zero or
    an empty category or title. *)
Theorem riskMarkers_located (riskDataPoints : list RouteMap.RiskDataPoint) :
  let markers := RouteMap.riskMarkers riskDataPoints in
  let shown := List.filter RouteMap.located riskDataPoints in
  (length markers <= length riskDataPoints)%nat
  /\ map (fun m => (Some (RouteMap.lat (RouteMap.position m)),
                    Some (RouteMap.lng (RouteMap.position m)))) markers
     = map (fun p => (RouteMap.latitude p, RouteMap.longitude p)) shown
  /\ (forall p, In p shown <->
        In p riskDataPoints
        /\ exists la lo, RouteMap.latitude p = Some la /\ RouteMap.longitude p = Some lo
                         /\ ~ (la == 0)%Q /\ ~ (lo == 0)%Q)
  /\ map RouteMap.marker_id markers
     = map (fun i => "risk-" +:+ pretty i) (seq 0 (length markers))
  /\ NoDup (map RouteMap.marker_id markers)
  /\ Forall (fun m => ~ (RouteMap.lat (RouteMap.position m) == 0)%Q
                      /\ ~ (RouteMap.lng (RouteMap.position m) == 0)%Q
                      /\ ~ (RouteMap.marker_severity m == 0)%Q
                      /\ RouteMap.marker_category m <> ""
                      /\ RouteMap.marker_title m <> "") markers.
Proof.
  intros markers shown. subst markers. unfold RouteMap.riskMarkers. fold shown.
  assert (Hshown : Forall (fun p => RouteMap.located p = true) shown).
  { apply List.Forall_forall. intros p Hp. by apply filter_In in Hp as [_ Hp]. }
  assert (Hids : map RouteMap.marker_id (imap RouteMap.riskMarker shown)
                 = map (fun i => "risk-" +:+ pretty i) (seq 0 (length shown))).
  { apply (imap_marker_ids (fun i => i)). }
  rewrite length_imap.
  split; [|split; [|split; [|split; [|split]]]].
  - subst shown. apply filter_length_le.
  - apply imap_positions; [exact Hshown|].
    intros i p Hp. by destruct (located_position p i Hp) as (? & ? & _).
  - intros p. subst shown. rewrite filter_In. split.
    + intros [Hin Hp]. split; [exact Hin|].
      destruct (located_position p 0 Hp) as (Hla & Hlo & Hla0 & Hlo0). eauto 8.
    + intros [Hin (la & lo & Hla & Hlo & Hla0 & Hlo0)]. split; [exact Hin|].
      unfold RouteMap.located. rewrite Hla, Hlo.
      apply andb_true_iff. split; apply negb_true_iff;
        (destruct (Qeq_bool _ 0) eqn:E; [apply Qeq_bool_iff in E; contradiction | done]).
  - exact Hids.
  - rewrite Hids. apply marker_ids_NoDup.
  - apply List.Forall_forall. intros m Hm.
    apply list_elem_of_In, elem_of_lookup_imap in Hm as (i & p & -> & Hp).
    assert (Hloc : RouteMap.located p = true).
    { eapply List.Forall_forall in Hshown; [exact Hshown|].
      apply list_elem_of_In. by eapply list_elem_of_lookup_2. }
    destruct (located_position p i Hloc) as (_ & _ & Hla0 & Hlo0).
    split; [exact Hla0|]. split; [exact Hlo0|]. split; [|split].
    + apply orNum_nonzero. by vm_compute.
    + by apply orStr_nonempty.
    + by apply orStr_nonempty.
Qed.
